(** * VaultAiAgent: strategy execution and provenance anchoring

    A shallow embedding of the execution pipeline of the agent:
    - [utils/executeStrategy.ts]: [getVaultTotalAssets],
      [executeLendingAllocation], [shouldInvestInLendingProtocol],
      [executeFullStrategy];
    - [utils/ipfsUpload.ts]: [uploadToIPFS];
    - [utils/contractInteraction.ts]: [getSigner], [setStrategyReference];
    - [actions/executeStrategy.ts]: the validator and the handler of
      [executeStrategyAction];
    - [actions/parseStrategy.ts]: the validator and the handler of
      [parseStrategyAction], and the extraction of the JSON document from
      the answer of the model.

    JavaScript numbers are IEEE-754 binary64 values: they are modelled by the
    primitive floats of the kernel.  BigInt values are [Z].  The condition
    string is a list of UTF-16 code units, since the regular expression
    inspects it unit by unit.  Remote collaborators (RPC node, pinning
    service, agent runtime) are a record of answers; every call to one of
    them is appended to a trace.  Calls to the logger are left out. *)

From Stdlib Require Import ZArith NArith Floats Ascii String List Lia.
From stdpp Require Import base option list gmap strings.

Local Open Scope Z_scope.

(** ** JavaScript numbers *)

Module Num.

Definition number := float.

(** [ToBoolean] on a number: [+0], [-0] and [NaN] are falsy. *)
Definition truthy (x : number) : bool :=
  negb (PrimFloat.is_zero x || PrimFloat.is_nan x).

(** [x || 0] where [x] may be [undefined]. *)
Definition or_zero (x : option number) : number :=
  match x with
  | Some v => if truthy v then v else PrimFloat.zero
  | None => PrimFloat.zero
  end.

(** The magnitude [m * 2^e] of a finite float when it is an integer. *)
Definition magnitude (m : positive) (e : Z) : option Z :=
  match e with
  | Z0 => Some (Zpos m)
  | Zpos k => Some (Zpos m * 2 ^ Zpos k)
  | Zneg k =>
      if (Zpos m mod 2 ^ Zpos k =? 0) then Some (Zpos m / 2 ^ Zpos k) else None
  end.

(** The mathematical value of a finite number when it is an integer:
    what [BigInt(x)] returns.  [None] stands for the [RangeError] raised
    on [NaN], the infinities and fractional values. *)
Definition to_integer (x : number) : option Z :=
  match Prim2SF x with
  | S754_zero _ => Some 0
  | S754_finite s m e => (if s then Z.opp else id) <$> magnitude m e
  | S754_infinity _ | S754_nan => None
  end.

Fixpoint pow10 (k : nat) : positive :=
  match k with
  | O => 1%positive
  | S k' => (10 * pow10 k')%positive
  end.

(** The binary64 value nearest to [n / 10^k], ties to even: the division
    of the specification floats rounds the exact quotient once. *)
Definition round_decimal (n : N) (k : nat) : number :=
  match n with
  | N0 => PrimFloat.zero
  | Npos p =>
      SF2Prim (SFdiv prec emax (S754_finite false p 0)
                               (S754_finite false (pow10 k) 0))
  end.

End Num.

(** ** Strings as sequences of UTF-16 code units *)

Module Str.

Definition code_unit := N.
Definition jsstring := list code_unit.

Definition cu (c : ascii) : code_unit := N_of_ascii c.

(** An ASCII literal as a JavaScript string. *)
Fixpoint js (s : string) : jsstring :=
  match s with
  | EmptyString => []
  | String c t => cu c :: js t
  end.

Local Open Scope N_scope.

(** The class [\s]: WhiteSpace and LineTerminator of ECMAScript. *)
Definition is_space (c : code_unit) : bool :=
  (c =? 9) || (c =? 10) || (c =? 11) || (c =? 12) || (c =? 13) || (c =? 32)
  || (c =? 160) || (c =? 5760) || ((8192 <=? c) && (c <=? 8202))
  || (c =? 8232) || (c =? 8233) || (c =? 8239) || (c =? 8287)
  || (c =? 12288) || (c =? 65279).

(** The class [[><=]]. *)
Definition is_opchar (c : code_unit) : bool :=
  (c =? 60) || (c =? 61) || (c =? 62).

(** The class [\d]. *)
Definition is_digit (c : code_unit) : bool := (48 <=? c) && (c <=? 57).

(** The class [[\d.]]. *)
Definition is_numchar (c : code_unit) : bool := is_digit c || (c =? 46).

(** A letter of the pattern under the [i] flag: the unit itself or its
    lower-case form (no unit above 127 canonicalizes to an ASCII letter). *)
Definition is_letter (upper : code_unit) (c : code_unit) : bool :=
  (c =? upper) || (c =? upper + 32).

(** The longest prefix whose units satisfy [p], and the rest: a greedy
    [*] or [+] over a character class. *)
Fixpoint span (p : code_unit -> bool) (s : jsstring) : jsstring * jsstring :=
  match s with
  | [] => ([], [])
  | c :: t =>
      if p c then let (a, b) := span p t in (c :: a, b) else ([], s)
  end.

(** [/APY\s*([><=]+)\s*([\d.]+)%?/i] tried at the start of [s]; the result
    is the pair of capture groups.  The classes that follow one another
    are disjoint, so each repetition takes its longest run and giving
    units back cannot turn a failure into a match ([match_here_greedy]
    and [match_here_sound] below relate the scanner to the pattern read
    as a set of matches). *)
Definition match_here (s : jsstring) : option (jsstring * jsstring) :=
  match s with
  | a :: p :: y :: r0 =>
      if is_letter 65 a && is_letter 80 p && is_letter 89 y then
        let (_, r1) := span is_space r0 in
        let (op, r2) := span is_opchar r1 in
        match op with
        | [] => None
        | _ :: _ =>
            let (_, r3) := span is_space r2 in
            let (num, _) := span is_numchar r3 in
            match num with
            | [] => None
            | _ :: _ => Some (op, num)
            end
        end
      else None
  | _ => None
  end.

(** [String.prototype.match] with a non-global pattern: the leftmost
    position at which the pattern matches. *)
Fixpoint regex_match (s : jsstring) : option (jsstring * jsstring) :=
  match match_here s with
  | Some m => Some m
  | None =>
      match s with
      | [] => None
      | _ :: t => regex_match t
      end
  end.

Definition digits_value (ds : jsstring) : N :=
  fold_left (fun acc d => 10 * acc + (d - 48)) ds 0.

(** [parseFloat] on a run of digits and dots (all that the second capture
    group can hold): the longest prefix [digits], [digits.], [digits.digits]
    or [.digits] is read as a decimal numeral and rounded to a number;
    without such a prefix the result is [NaN]. *)
Definition parseFloat (s : jsstring) : Num.number :=
  let (ip, r) := span is_digit s in
  let fp :=
    match r with
    | c :: r' => if c =? 46 then fst (span is_digit r') else []
    | [] => []
    end in
  match ip ++ fp with
  | [] => PrimFloat.nan
  | ds => Num.round_decimal (digits_value ds) (length fp)
  end.

End Str.

Export Str.

(** ** The strategy document ([StrategySchema]) *)

Record LendingProtocol := {
  investmentCondition : jsstring;
  fallbackCondition : option jsstring;
  stopLossCondition : option jsstring
}.

Record Rebalancing := { frequency : string; deviationTolerance : string }.

Record TransactionLimits := {
  maxTransactionPercentage : string;
  maxSwapSlippage : string
}.

Record Strategy := {
  assetAllocation : gmap string Num.number;
  lendingProtocol : LendingProtocol;
  rebalancing : Rebalancing;
  transactionLimits : TransactionLimits
}.

Record YieldStrategy := { strategy : Strategy }.

(** ** Configuration ([config.ts] and the environment) *)

Record NetworkConfig := {
  rpcUrl : string;
  strategyVaultAddress : string;
  lendingPoolAddress : string;
  tokenAddress : string;
  currentAPY : Num.number
}.

Record Config := {
  network : string;
  networkConfig : NetworkConfig;
  wallet_privateKey : string;
  env_PINATA_JWT : option string;
  env_GATEWAY_URL : option string
}.

(** ** Errors and results *)

Inductive error :=
| Error (message : string)        (* [new Error(message)] thrown by this code *)
| RangeError                      (* [BigInt] applied to a non-integral number *)
| Rejected (message : string).    (* a failure raised by a collaborator *)

Definition error_message (e : error) : string :=
  match e with
  | Error m => m
  | RangeError => "The number cannot be converted to a BigInt because it is not an integer"
  | Rejected m => m
  end.

Inductive result (A : Type) :=
| Ok (a : A)
| Err (e : error).
Arguments Ok {A} a.
Arguments Err {A} e.

(** ** Values exchanged with the collaborators *)

Record TransactionResponse := { tx_hash : string }.

Record TransactionReceipt := { hash : string; blockNumber : Z }.

(** ABI-encoded calldata, kept as the call it encodes. *)
Inductive calldata :=
| approve (spender : string) (amount : Z)
| deposit (amount : Z).

(** The answer of the pinning service: the [ok] flag of the response and
    what [response.json()] yields ([IpfsHash] of a [PinataResponse], and
    the serialized body used in the error message). *)
Record JsonBody := { IpfsHash : string; serialized : string }.
Record Response := { ok : bool; json : result JsonBody }.

Record IpfsResult := { cid : string; gatewayUrl : string; pinataUrl : string }.

(** A row of the [yieldStrategies] table: [content.text] when it is a
    string, and [content.strategy] when present. *)
Record MemoryRecord := {
  mem_id : string;
  mem_text : option string;
  mem_strategy : option string
}.

(** One line of [simulatedExecutionSteps]. *)
Inductive step :=
| StepConnected
| StepParsed
| StepAllocationSet (allocation : gmap string Num.number)
| StepLendingConditionsSet
| StepRebalancing (freq tolerance : string)
| StepLimitsConfigured
| StepNetwork (name : string)
| StepExecuted (txHash : string)
| StepNoAction
| StepExecutionFailed (message : string)
| StepReferenceSet (txHash : string)
| StepReferenceFailed (message : string).

(** The text of a reply, by the template that produced it. *)
Inductive reply_text :=
| TextNoStrategy
| TextStrategyError
| TextExecuted (steps : list step) (ipfs : option IpfsResult)
| TextFailure (message : string)
| TextParsed (parsed : YieldStrategy)
| TextParseTrouble.

Record Content := {
  text : reply_text;
  actions : list string;
  executedStrategy : option YieldStrategy;
  ipfsData : option IpfsResult;
  parsedStrategy : option YieldStrategy;
  source : string
}.

(** An inbound message object.  [content_processed] is the field the
    handlers write. *)
Record Message := {
  msg_id : option string;
  msg_roomId : string;
  content_text : string;
  content_source : string;
  content_processed : option string
}.

(** ** The collaborators *)

Record World := {
  config : Config;
  (* [new ethers.Wallet(privateKey, provider)] *)
  newWallet : string -> option error;
  (* [interface.encodeFunctionData]: the validation error, if any *)
  encodeFunctionData : calldata -> option error;
  (* [vault.totalAssets()] *)
  totalAssets : string -> result Z;
  (* [vault.execute(contracts, data, msgValues)] *)
  vault_execute :
    string -> list string -> list calldata -> list Z -> result TransactionResponse;
  (* [tx.wait()] *)
  tx_wait : TransactionResponse -> result TransactionReceipt;
  (* [fetch] to the pinning endpoint *)
  pin_fetch : YieldStrategy -> result Response;
  (* [strategyVault.setStrategyReference(strategyId, referenceData)] *)
  vault_setStrategyReference : string -> Z -> string -> result TransactionResponse;
  (* [runtime.getMemories] on table [yieldStrategies] *)
  getMemories : string -> result (list MemoryRecord);
  (* [StrategySchema.parse(JSON.parse(text))] and [StrategySchema.parse(object)] *)
  schema_parse_text : string -> result YieldStrategy;
  schema_parse_object : string -> result YieldStrategy;
  (* [runtime.createMemory] *)
  createMemory : string -> YieldStrategy -> option IpfsResult -> result string;
  (* [runtime.useModel] on the prompt built from the text of the message *)
  useModel : string -> result string;
  (* extraction of the JSON document from the answer of the model, then
     [JSON.parse] and [StrategySchema.parse] *)
  extract_strategy : string -> result YieldStrategy;
  (* [JSON.stringify] of a strategy document *)
  stringify : YieldStrategy -> string;
  (* the reply callback of the host *)
  callback : Content -> option error
}.

(** A call that reaches a collaborator. *)
Inductive event :=
| CallTotalAssets (vault : string)
| CallExecute (vault : string) (contracts : list string)
              (data : list calldata) (msgValues : list Z)
| CallWait (tx : TransactionResponse)
| CallPinJSON (document : YieldStrategy)
| CallSetStrategyReference (vault : string) (strategyId : Z) (referenceData : string)
| CallGetMemories (roomId : string)
| CallCreateMemory (table : string) (document : YieldStrategy)
| CallUseModel (userText : string)
| CallCallback (content : Content).

(** ** Process state: the trace, the message objects and the globals *)

Record State := {
  trace : list event;
  messages : gmap nat Message;
  processedMessageIds : option (gmap string bool);   (* [global._processedMessageIds] *)
  sentResponses : option (gmap string bool)          (* [global._sentResponses] *)
}.

Definition M (A : Type) : Type := State -> result A * State.

Definition ret {A} (a : A) : M A := fun st => (Ok a, st).

Definition throw {A} (e : error) : M A := fun st => (Err e, st).

Definition bind {A B} (m : M A) (k : A -> M B) : M B :=
  fun st =>
    match m st with
    | (Ok a, st') => k a st'
    | (Err e, st') => (Err e, st')
    end.

(** [try { m } catch (error) { h error }] *)
Definition try_catch {A} (m : M A) (h : error -> M A) : M A :=
  fun st =>
    match m st with
    | (Ok a, st') => (Ok a, st')
    | (Err e, st') => h e st'
    end.

Definition lift {A} (r : result A) : M A := fun st => (r, st).

Definition lift_unit (r : option error) : M unit :=
  fun st => (match r with None => Ok tt | Some e => Err e end, st).

Definition log_event (ev : event) (st : State) : State :=
  {| trace := trace st ++ [ev];
     messages := messages st;
     processedMessageIds := processedMessageIds st;
     sentResponses := sentResponses st |}.

(** An awaited call to a collaborator: recorded, then its answer. *)
Definition call {A} (ev : event) (r : result A) : M A :=
  fun st => (r, log_event ev st).

Definition call_unit (ev : event) (r : option error) : M unit :=
  fun st => (match r with None => Ok tt | Some e => Err e end, log_event ev st).

Declare Scope vault_scope.
Delimit Scope vault_scope with vault.
Notation "'let*' x := c 'in' k" := (bind c (fun x => k))
  (at level 10, x name, c at level 100, k at level 200) : vault_scope.
Local Open Scope vault_scope.

Definition is_empty (s : string) : bool :=
  match s with
  | EmptyString => true
  | String _ _ => false
  end.

(** ** The condition evaluator ([shouldInvestInLendingProtocol])

    The [try ... catch] of the source has nothing to catch on a validated
    strategy: [match], [parseFloat] and the comparisons do not throw. *)
Definition shouldInvestInLendingProtocol
    (strategy0 : YieldStrategy) (currentAPY : Num.number) : bool :=
  let condition := investmentCondition (lendingProtocol (strategy strategy0)) in
  match regex_match condition with
  | None => false
  | Some (operator, digits) =>
      let threshold := parseFloat digits in
      if bool_decide (operator = js ">") then (threshold <? currentAPY)%float
      else if bool_decide (operator = js ">=") then (threshold <=? currentAPY)%float
      else if bool_decide (operator = js "<") then (currentAPY <? threshold)%float
      else if bool_decide (operator = js "<=") then (currentAPY <=? threshold)%float
      else if bool_decide (operator = js "==") then (currentAPY =? threshold)%float
      else if bool_decide (operator = js "=") then (currentAPY =? threshold)%float
      else false
  end.

(** ** The allocation calculator (lines 69 to 75 of [executeLendingAllocation]) *)

Definition lendingPercentage (strategy0 : YieldStrategy) : Num.number :=
  Num.or_zero (assetAllocation (strategy strategy0) !! "lendingProtocol").

Definition NoAllocationError : error :=
  Error "No allocation for lending protocol found in strategy".

(** [totalAmount * BigInt(lendingPercentage) / 100n]; BigInt division
    truncates toward zero. *)
Definition amountToDeposit (strategy0 : YieldStrategy) (totalAmount : Z) : result Z :=
  let p := lendingPercentage strategy0 in
  if (p <=? 0)%float then Err NoAllocationError
  else
    match Num.to_integer p with
    | None => Err RangeError
    | Some percentage => Ok (Z.quot (totalAmount * percentage) 100)
    end.

Section Pipeline.

Variable W : World.

Definition getNetworkConfig : NetworkConfig := networkConfig (config W).

(** [getSigner] of [contractInteraction.ts]. *)
Definition getSigner : M unit :=
  let privateKey := wallet_privateKey (config W) in
  if is_empty privateKey then throw (Error "Wallet private key is not configured")
  else lift_unit (newWallet W privateKey).

(** [getVaultTotalAssets]: the [catch] rethrows. *)
Definition getVaultTotalAssets (vaultAddress : string) : M Z :=
  call (CallTotalAssets vaultAddress) (totalAssets W vaultAddress).

(** [contract.interface.encodeFunctionData(name, args)] *)
Definition encode (c : calldata) : M calldata :=
  match encodeFunctionData W c with
  | None => ret c
  | Some e => throw e
  end.

(** [executeLendingAllocation].  Lines 69 to 75 are [amountToDeposit];
    [totalAmount] is the bigint read from the vault; the three contract
    objects are built without effect; the [catch] rethrows. *)
Definition executeLendingAllocation
    (strategy0 : YieldStrategy) (vaultAddress lendingPoolAddress : string)
    (totalAmount : Z) : M TransactionReceipt :=
  let* _ := getSigner in
  let* amount := lift (amountToDeposit strategy0 totalAmount) in
  let token := tokenAddress getNetworkConfig in
  if is_empty token then
    throw (Error ("Token address not configured for network: " +:+ network (config W)))
  else
    let* approveCalldata := encode (approve lendingPoolAddress amount) in
    let* depositCalldata := encode (deposit amount) in
    let contracts := [token; lendingPoolAddress] in
    let data := [approveCalldata; depositCalldata] in
    let msgValues := [0; 0] in
    let* tx := call (CallExecute vaultAddress contracts data msgValues)
                    (vault_execute W vaultAddress contracts data msgValues) in
    let* receipt := call (CallWait tx) (tx_wait W tx) in
    ret receipt.

(** [executeFullStrategy]: [None] is the [null] of a skip. *)
Definition executeFullStrategy (strategy0 : YieldStrategy)
    : M (option TransactionReceipt) :=
  let vaultAddress := strategyVaultAddress getNetworkConfig in
  let poolAddress := lendingPoolAddress getNetworkConfig in
  let apy := currentAPY getNetworkConfig in
  if is_empty vaultAddress then
    throw (Error ("Strategy vault address not configured for network: "
                  +:+ network (config W)))
  else if is_empty poolAddress then
    throw (Error ("Lending pool address not configured for network: "
                  +:+ network (config W)))
  else if negb (shouldInvestInLendingProtocol strategy0 apy) then ret None
  else
    let* totalAmount := getVaultTotalAssets vaultAddress in
    if totalAmount <=? 0 then ret None
    else
      let* receipt :=
        executeLendingAllocation strategy0 vaultAddress poolAddress totalAmount in
      ret (Some receipt).

(** [uploadToIPFS] of [ipfsUpload.ts]. *)
Definition uploadToIPFS (document : YieldStrategy) : M IpfsResult :=
  let gateway :=
    match env_GATEWAY_URL (config W) with
    | Some g => if is_empty g then "ipfs.io" else g
    | None => "ipfs.io"
    end in
  match env_PINATA_JWT (config W) with
  | None => throw (Error "PINATA_JWT environment variable is not set")
  | Some jwt =>
      if is_empty jwt then throw (Error "PINATA_JWT environment variable is not set")
      else
        let* response := call (CallPinJSON document) (pin_fetch W document) in
        if negb (ok response) then
          let* errorData := lift (json response) in
          throw (Error ("Pinata upload failed: " +:+ serialized errorData))
        else
          let* body := lift (json response) in
          ret {| cid := IpfsHash body;
                 gatewayUrl := "https://" +:+ gateway +:+ "/ipfs/" +:+ IpfsHash body;
                 pinataUrl := "https://gateway.pinata.cloud/ipfs/" +:+ IpfsHash body |}
  end.

(** [setStrategyReference] of [contractInteraction.ts]. *)
Definition setStrategyReference (strategyId : Z) (referenceData : string)
    : M TransactionReceipt :=
  let* _ := getSigner in
  let vault := strategyVaultAddress getNetworkConfig in
  if is_empty vault then
    throw (Error ("Strategy vault address not configured for network: "
                  +:+ network (config W)))
  else
    let* tx := call (CallSetStrategyReference vault strategyId referenceData)
                    (vault_setStrategyReference W vault strategyId referenceData) in
    let* receipt := call (CallWait tx) (tx_wait W tx) in
    ret receipt.

(** *** Message objects and the globals *)

(** The message object at reference [l]. *)
Definition get_message (l : nat) : M Message :=
  fun st =>
    match messages st !! l with
    | Some m => (Ok m, st)
    | None => (Err (Rejected "no such message object"), st)
    end.

(** [message.content.processed = tag] *)
Definition mark_processed (l : nat) (tag : string) (st : State) : State :=
  {| trace := trace st;
     messages :=
       alter (fun m => {| msg_id := msg_id m;
                          msg_roomId := msg_roomId m;
                          content_text := content_text m;
                          content_source := content_source m;
                          content_processed := Some tag |}) l (messages st);
     processedMessageIds := processedMessageIds st;
     sentResponses := sentResponses st |}.

Definition set_processed (l : nat) (tag : string) : M unit :=
  fun st => (Ok tt, mark_processed l tag st).

(** A message identifier that is set and not the empty string. *)
Definition truthy_id (i : option string) : option string :=
  match i with
  | Some s => if is_empty s then None else Some s
  | None => None
  end.

(** [if (!global._processedMessageIds) global._processedMessageIds = {}] *)
Definition init_registry : M unit :=
  fun st =>
    (Ok tt,
     {| trace := trace st;
        messages := messages st;
        processedMessageIds := Some (default ∅ (processedMessageIds st));
        sentResponses := sentResponses st |}).

(** [message.id && global._processedMessageIds[message.id]] *)
Definition registry_has (i : option string) : M bool :=
  fun st =>
    (Ok match truthy_id i with
        | Some k => default false (default ∅ (processedMessageIds st) !! k)
        | None => false
        end, st).

(** [if (message.id) global._processedMessageIds[message.id] = true] *)
Definition registry_mark (i : option string) : M unit :=
  fun st =>
    (Ok tt,
     match truthy_id i with
     | Some k =>
         {| trace := trace st;
            messages := messages st;
            processedMessageIds :=
              Some (<[k := true]> (default ∅ (processedMessageIds st)));
            sentResponses := sentResponses st |}
     | None => st
     end).

(** [alreadySent[responseHash]], after [global._sentResponses] is
    initialised, and the marking of the hash when it was not there. *)
Definition sent_test_and_mark (responseHash : string) : M bool :=
  fun st =>
    let sent := default ∅ (sentResponses st) in
    let seen := default false (sent !! responseHash) in
    (Ok seen,
     {| trace := trace st;
        messages := messages st;
        processedMessageIds := processedMessageIds st;
        sentResponses :=
          Some (if seen then sent else <[responseHash := true]> sent) |}).

(** *** The handler of [executeStrategyAction] *)

Inductive handler_result :=
| Undefined                 (* [return;] *)
| Null                      (* [return null;] *)
| Reply (content : Content).

Definition reply (m : Message) (t : reply_text) (action : string)
    (executed : option YieldStrategy) (ipfs : option IpfsResult)
    (parsed : option YieldStrategy) : Content :=
  {| text := t;
     actions := [action];
     executedStrategy := executed;
     ipfsData := ipfs;
     parsedStrategy := parsed;
     source := content_source m |}.

Definition send (c : Content) : M handler_result :=
  let* _ := call_unit (CallCallback c) (callback W c) in
  ret (Reply c).

(** Lines 365 to 378: the stored strategy is parsed again. *)
Definition load_strategy (mem : MemoryRecord) : result YieldStrategy :=
  match mem_text mem with
  | Some t => schema_parse_text W t
  | None =>
      match mem_strategy mem with
      | Some o => schema_parse_object W o
      | None => Err (Error "Invalid strategy format")
      end
  end.

Definition initial_steps (strategy0 : YieldStrategy) : list step :=
  [ StepConnected; StepParsed;
    StepAllocationSet (assetAllocation (strategy strategy0));
    StepLendingConditionsSet;
    StepRebalancing (frequency (rebalancing (strategy strategy0)))
                    (deviationTolerance (rebalancing (strategy strategy0)));
    StepLimitsConfigured;
    StepNetwork (network (config W)) ].

(** Lines 407 to 420: the on-chain allocation, its failure recorded. *)
Definition allocation_phase (strategy0 : YieldStrategy) (steps : list step)
    : M (list step) :=
  try_catch
    (let* receipt := executeFullStrategy strategy0 in
     match receipt with
     | Some r => ret (steps ++ [StepExecuted (hash r)])
     | None => ret (steps ++ [StepNoAction])
     end)
    (fun e => ret (steps ++ [StepExecutionFailed (error_message e)])).

(** Lines 422 to 450: publication, then the reference on-chain. *)
Definition publication_phase (strategy0 : YieldStrategy) (steps : list step)
    : M (list step * option IpfsResult) :=
  try_catch
    (let* ipfsResult := uploadToIPFS strategy0 in
     if negb (is_empty (cid ipfsResult)) then
       try_catch
         (let* txReceipt := setStrategyReference 1 (gatewayUrl ipfsResult) in
          ret (steps ++ [StepReferenceSet (hash txReceipt)], Some ipfsResult))
         (fun contractError =>
            ret (steps ++ [StepReferenceFailed (error_message contractError)],
                 Some ipfsResult))
     else ret (steps, Some ipfsResult))
    (fun _ => ret (steps, None)).

(** Lines 407 to 497: what the handler does once the strategy is loaded.
    The 1500 ms timer between publication and reply has no effect on the
    state and is left out. *)
Definition run_strategy (message : Message) (strategy0 : YieldStrategy)
    : M handler_result :=
  let* steps := allocation_phase strategy0 (initial_steps strategy0) in
  let* published := publication_phase strategy0 steps in
  let responseContent :=
    reply message (TextExecuted (fst published) (snd published))
          "EXECUTE_YIELD_STRATEGY" (Some strategy0) (snd published) None in
  let* executionId :=
    call (CallCreateMemory "strategyExecutions" strategy0)
         (createMemory W "strategyExecutions" strategy0 (snd published)) in
  send responseContent.

(** [executeStrategyAction.handler] on the message object at [l]. *)
Definition execute_handler (l : nat) : M handler_result :=
  let* message := get_message l in
  try_catch
    (if bool_decide (content_processed message = Some "EXECUTE_YIELD_STRATEGY")
     then ret Undefined
     else
       let* _ := set_processed l "EXECUTE_YIELD_STRATEGY" in
       let* strategiesMemories :=
         call (CallGetMemories (msg_roomId message))
              (getMemories W (msg_roomId message)) in
       match strategiesMemories with
       | [] =>
           send (reply message TextNoStrategy "PARSE_YIELD_STRATEGY" None None None)
       | strategyMemory :: _ =>
           match load_strategy strategyMemory with
           | Err _ =>
               send (reply message TextStrategyError "PARSE_YIELD_STRATEGY"
                           None None None)
           | Ok strategy0 => run_strategy message strategy0
           end
       end)
    (fun e =>
       send (reply message (TextFailure (error_message e)) "PARSE_YIELD_STRATEGY"
                   None None None)).

(** *** The handler of [parseStrategyAction]

    The random [responseId] of the reply is left out. *)

(** [parseStrategyAction.handler] on the message object at [l]. *)
Definition parse_handler (l : nat) : M handler_result :=
  let* message := get_message l in
  try_catch
    (let* _ := init_registry in
     if bool_decide (content_processed message = Some "PARSE_YIELD_STRATEGY")
     then ret Undefined
     else
       let* seen := registry_has (msg_id message) in
       if seen then ret Undefined
       else
         let* _ := set_processed l "PARSE_YIELD_STRATEGY" in
         let* _ := registry_mark (msg_id message) in
         let* modelResponse :=
           call (CallUseModel (content_text message))
                (useModel W (content_text message)) in
         let* strategyJSON := lift (extract_strategy W modelResponse) in
         let responseContent :=
           reply message (TextParsed strategyJSON) "PARSE_YIELD_STRATEGY"
                 None None (Some strategyJSON) in
         let* memoryId :=
           call (CallCreateMemory "yieldStrategies" strategyJSON)
                (createMemory W "yieldStrategies" strategyJSON None) in
         let* alreadySent := sent_test_and_mark (stringify W strategyJSON) in
         if alreadySent then ret Null
         else send responseContent)
    (fun _ =>
       send (reply message TextParseTrouble "PARSE_YIELD_STRATEGY" None None None)).

End Pipeline.

(** ** Vocabulary of the statements *)

(** The six operators of the [switch]. *)
Inductive operator := OpGt | OpGe | OpLt | OpLe | OpEqEq | OpEq.

Definition operator_text (o : operator) : jsstring :=
  match o with
  | OpGt => js ">"
  | OpGe => js ">="
  | OpLt => js "<"
  | OpLe => js "<="
  | OpEqEq => js "=="
  | OpEq => js "="
  end.

(** The IEEE comparison [rate o threshold]. *)
Definition holds (o : operator) (rate threshold : Num.number) : bool :=
  match o with
  | OpGt => (threshold <? rate)%float
  | OpGe => (threshold <=? rate)%float
  | OpLt => (rate <? threshold)%float
  | OpLe => (rate <=? threshold)%float
  | OpEqEq | OpEq => (rate =? threshold)%float
  end.

Definition all_in (p : code_unit -> bool) (s : jsstring) : Prop :=
  Forall (fun c => p c = true) s.

(** What stops a greedy run: the end of the string or a unit outside the
    class. *)
Definition stops (p : code_unit -> bool) (s : jsstring) : Prop :=
  match s with
  | [] => True
  | c :: _ => p c = false
  end.

(** A decimal numeral: integer digits [ip], and fraction digits [fp] after
    a dot when [fp] is not empty. *)
Definition numeral (ip fp : jsstring) : jsstring :=
  ip ++ match fp with [] => [] | _ :: _ => cu "." :: fp end.

(** The number a numeral denotes, as [parseFloat] rounds it. *)
Definition numeral_value (ip fp : jsstring) : Num.number :=
  Num.round_decimal (digits_value (ip ++ fp)) (length fp).

(** The shape [APY {op} T%] of the specification: the whole string is the
    letters, optional white space, one operator, optional white space, a
    decimal numeral and an optional percent sign. *)
Definition well_formed (s : jsstring) (o : operator) (ip fp : jsstring) : Prop :=
  exists a p y ws1 ws2 pct,
    s = a :: p :: y :: ws1 ++ operator_text o ++ ws2 ++ numeral ip fp ++ pct
    /\ is_letter 65%N a = true /\ is_letter 80%N p = true /\ is_letter 89%N y = true
    /\ all_in is_space ws1 /\ all_in is_space ws2
    /\ all_in is_digit ip /\ ip <> [] /\ all_in is_digit fp
    /\ (pct = [] \/ pct = js "%").

(** The pattern read as a set of matches at the start of [s], whatever the
    lengths chosen for the repetitions. *)
Definition matches_at (s op digits : jsstring) : Prop :=
  exists a p y ws1 ws2 rest,
    s = a :: p :: y :: ws1 ++ op ++ ws2 ++ digits ++ rest
    /\ is_letter 65%N a = true /\ is_letter 80%N p = true /\ is_letter 89%N y = true
    /\ all_in is_space ws1 /\ all_in is_space ws2
    /\ all_in is_opchar op /\ op <> []
    /\ all_in is_numchar digits /\ digits <> [].

(** The pattern occurs somewhere in [s]. *)
Definition occurs_in (s op digits : jsstring) : Prop :=
  exists before t, s = before ++ t /\ matches_at t op digits.

(** The match of the pattern at the start of [t] that the greedy
    repetitions produce: the run [digits] of digits and dots is the
    longest one (the runs of white space and the operator run end where
    the next class begins, so they are the longest ones in any match). *)
Definition matches_greedy (t op digits : jsstring) : Prop :=
  exists a p y ws1 ws2 rest,
    t = a :: p :: y :: ws1 ++ op ++ ws2 ++ digits ++ rest
    /\ is_letter 65%N a = true /\ is_letter 80%N p = true /\ is_letter 89%N y = true
    /\ all_in is_space ws1 /\ all_in is_space ws2
    /\ all_in is_opchar op /\ op <> []
    /\ all_in is_numchar digits /\ digits <> []
    /\ stops is_numchar rest.

(** The first match of the pattern in [s], which is the one
    [String.prototype.match] returns: it starts after [before], no match
    of the pattern starts earlier, and its captures are [op] and
    [digits]. *)
Definition first_match (s before op digits : jsstring) : Prop :=
  exists t,
    s = before ++ t
    /\ matches_greedy t op digits
    /\ forall before' t' op' digits',
        s = before' ++ t' -> matches_at t' op' digits' ->
        (length before <= length before')%nat.

(** A run of the characters [<], [>], [=] that is none of the six
    operators of the [switch], such as [=>] or [<>]. *)
Definition unsupported (op : jsstring) : Prop :=
  forall o, op <> operator_text o.

(** A strategy that holds a given investment condition. *)
Definition with_condition (c : jsstring) (alloc : gmap string Num.number) : YieldStrategy :=
  {| strategy :=
       {| assetAllocation := alloc;
          lendingProtocol :=
            {| investmentCondition := c;
               fallbackCondition := None;
               stopLossCondition := None |};
          rebalancing := {| frequency := "24 hours"; deviationTolerance := "8%" |};
          transactionLimits :=
            {| maxTransactionPercentage := "12%"; maxSwapSlippage := "1.8%" |} |} |}.

(** The signer can be built: a private key is configured and the wallet
    accepts it. *)
Definition signer_available (W : World) : Prop :=
  is_empty (wallet_privateKey (config W)) = false
  /\ newWallet W (wallet_privateKey (config W)) = None.

(** The state after further calls to collaborators. *)
Definition add_events (evs : list event) (st : State) : State :=
  {| trace := trace st ++ evs;
     messages := messages st;
     processedMessageIds := processedMessageIds st;
     sentResponses := sentResponses st |}.

(** The calls of a successful allocation: the batch, then the wait for its
    confirmation. *)
Definition batch_events (W : World) (vault pool : string) (amount : Z)
    (tx : TransactionResponse) : list event :=
  [ CallExecute vault [tokenAddress (getNetworkConfig W); pool]
                [approve pool amount; deposit amount] [0; 0];
    CallWait tx ].

Definition is_submission (ev : event) : bool :=
  match ev with
  | CallExecute _ _ _ _ => true
  | _ => false
  end.

Definition is_publication (ev : event) : bool :=
  match ev with
  | CallPinJSON _ => true
  | _ => false
  end.

Definition is_anchor (ev : event) : bool :=
  match ev with
  | CallSetStrategyReference _ _ _ => true
  | _ => false
  end.

Definition no_anchor (evs : list event) : Prop :=
  Forall (fun ev => is_anchor ev = false) evs.

(** The vault and the pool are configured for the active network. *)
Definition configured (W : World) : Prop :=
  is_empty (strategyVaultAddress (getNetworkConfig W)) = false
  /\ is_empty (lendingPoolAddress (getNetworkConfig W)) = false.

(** Every anchoring call of [evs] is the call [a]. *)
Definition only_anchor (a : event) (evs : list event) : Prop :=
  Forall (fun ev => is_anchor ev = true -> ev = a) evs.

(** The anchoring call the handler makes for a published document. *)
Definition anchor_of (W : World) (r : IpfsResult) : event :=
  CallSetStrategyReference (strategyVaultAddress (getNetworkConfig W)) 1 (gatewayUrl r).

Definition is_anchor_step (s : step) : bool :=
  match s with
  | StepReferenceSet _ | StepReferenceFailed _ => true
  | _ => false
  end.

(** A reply that carries no published document and records no anchoring. *)
Definition no_anchor_record (c : Content) : Prop :=
  ipfsData c = None
  /\ match text c with
     | TextExecuted steps ipfs =>
         ipfs = None /\ Forall (fun x => is_anchor_step x = false) steps
     | _ => True
     end.

(** The allocation step fails with [e], whatever was called before. *)
Definition allocation_fails (W : World) (s : YieldStrategy) (e : error) : Prop :=
  forall st, fst (executeFullStrategy W s st) = Err e.

(** The publication of [s] fails with [e], whatever was called before. *)
Definition publication_fails (W : World) (s : YieldStrategy) (e : error) : Prop :=
  forall st, fst (uploadToIPFS W s st) = Err e.

(** The publication of [s] succeeds with [r], whatever was called before. *)
Definition publication_succeeds (W : World) (s : YieldStrategy) (r : IpfsResult) : Prop :=
  forall st, fst (uploadToIPFS W s st) = Ok r.

(** *** A concrete deployment, for the examples *)

#[local] Set Warnings "-inexact-float".

Definition demo_config (apy : Num.number) : Config :=
  {| network := "rootstock";
     networkConfig :=
       {| rpcUrl := "https://public-node.testnet.rsk.co/";
          strategyVaultAddress := "0x00000000000000000000000000000000000000a1";
          lendingPoolAddress := "0x00000000000000000000000000000000000000b2";
          tokenAddress := "0x00000000000000000000000000000000000000c3";
          currentAPY := apy |};
     wallet_privateKey := "0x01";
     env_PINATA_JWT := Some "jwt";
     env_GATEWAY_URL := None |}.

Definition demo_strategy (condition : string) (alloc : gmap string Num.number)
    : YieldStrategy :=
  with_condition (js condition) alloc.

(** A world in which every collaborator answers; the balance of the vault,
    the answer of the vault to [execute], the answer of the pinning
    service, the stored strategy and the answer of the store of execution
    records are parameters. *)
Definition demo_world (apy : Num.number) (balance : result Z)
    (executed : result TransactionResponse) (pinned : result Response)
    (stored : YieldStrategy) (recorded : result string) : World :=
  {| config := demo_config apy;
     newWallet := fun _ => None;
     encodeFunctionData := fun _ => None;
     totalAssets := fun _ => balance;
     vault_execute := fun _ _ _ _ => executed;
     tx_wait := fun tx => Ok {| hash := tx_hash tx; blockNumber := 42 |};
     pin_fetch := fun _ => pinned;
     vault_setStrategyReference := fun _ _ _ => Ok {| tx_hash := "0xa2" |};
     getMemories :=
       fun _ => Ok [ {| mem_id := "m1"; mem_text := Some "{...}"; mem_strategy := None |} ];
     schema_parse_text := fun _ => Ok stored;
     schema_parse_object := fun _ => Ok stored;
     createMemory := fun _ _ _ => recorded;
     useModel := fun _ => Ok "{...}";
     extract_strategy := fun _ => Ok stored;
     stringify := fun _ => "{...}";
     callback := fun _ => None |}.

Definition demo_pinned : result Response :=
  Ok {| ok := true;
        json := Ok {| IpfsHash := "bafkreigh2akiscaildc"; serialized := "{}" |} |}.

Definition demo_message (i : string) : Message :=
  {| msg_id := Some i;
     msg_roomId := "room";
     content_text := "Execute my yield strategy";
     content_source := "chat";
     content_processed := None |}.

Definition initial_state (msgs : gmap nat Message) : State :=
  {| trace := [];
     messages := msgs;
     processedMessageIds := None;
     sentResponses := None |}.

Definition demo_lending70 : YieldStrategy :=
  demo_strategy "APY > 6%" {[ "lendingProtocol" := 70%float ]}.

Definition demo_stable_eth : YieldStrategy :=
  demo_strategy "APY > 6%" {[ "stablecoin" := 70%float; "eth" := 30%float ]}.

Definition demo_sent : TransactionResponse := {| tx_hash := "0xa1" |}.

(** A world in which everything succeeds. *)
Definition demo_healthy (apy : Num.number) (balance : Z) (s : YieldStrategy) : World :=
  demo_world apy (Ok balance) (Ok demo_sent) demo_pinned s (Ok "e1").

(** The same deployment with no private key configured. *)
Definition without_wallet_key (W : World) : World :=
  {| config :=
       {| network := network (config W);
          networkConfig := networkConfig (config W);
          wallet_privateKey := EmptyString;
          env_PINATA_JWT := env_PINATA_JWT (config W);
          env_GATEWAY_URL := env_GATEWAY_URL (config W) |};
     newWallet := newWallet W;
     encodeFunctionData := encodeFunctionData W;
     totalAssets := totalAssets W;
     vault_execute := vault_execute W;
     tx_wait := tx_wait W;
     pin_fetch := pin_fetch W;
     vault_setStrategyReference := vault_setStrategyReference W;
     getMemories := getMemories W;
     schema_parse_text := schema_parse_text W;
     schema_parse_object := schema_parse_object W;
     createMemory := createMemory W;
     useModel := useModel W;
     extract_strategy := extract_strategy W;
     stringify := stringify W;
     callback := callback W |}.

(** Two message objects that carry the same identifier. *)
Definition demo_inbox : State :=
  initial_state {[ 0%nat := demo_message "msg-1"; 1%nat := demo_message "msg-1" ]}.

(** ** The validators of the two actions

    [validate] reads [message.content.text], [message.content.actions] and
    [message.id], and the registry of identifiers.  The record of message
    objects holds the fields the handlers use; [content.actions] is passed
    beside it.  The text is kept as a sequence of bytes: whether an ASCII
    word occurs in it does not depend on the encoding. *)

(** [hay.includes(needle)] on strings. *)
Fixpoint includes (needle hay : string) : bool :=
  String.prefix needle hay
  || match hay with
     | EmptyString => false
     | String _ t => includes needle t
     end.

(** [actions && actions.includes(name)] *)
Definition has_action (name : string) (content_actions : option (list string)) : bool :=
  match content_actions with
  | Some l => existsb (String.eqb name) l
  | None => false
  end.

(** [message.id && global._processedMessageIds
    && global._processedMessageIds[message.id]].  An identifier is a UUID
    (the type of [Memory.id]), never the name of an inherited property. *)
Definition registered (i : option string) (st : State) : bool :=
  match truthy_id i, processedMessageIds st with
  | Some k, Some reg => default false (reg !! k)
  | _, _ => false
  end.

(** An identifier of the shape of a UUID, the type of [Memory.id], or no
    identifier: a UUID holds hyphens, which no name of a property that a
    plain object inherits does, so that [registry[id]] is what was stored
    under [id]. *)
Definition uuid_shaped (i : option string) : Prop :=
  match i with
  | Some k => includes "-" k = true
  | None => True
  end.

(** The text of a JSON object, which [JSON.stringify] returns on an
    object: it starts with a brace. *)
Definition object_text (t : string) : Prop :=
  match t with
  | String c _ => c = "{"%char
  | EmptyString => False
  end.

Section Validators.

(** [String.prototype.toLowerCase], the case conversion of the engine:
    the validators are defined for any such function. *)
Variable toLowerCase : string -> string.

(** [parseStrategyAction.validate] *)
Definition parse_validate (message : Message)
    (content_actions : option (list string)) (st : State) : bool :=
  let text := toLowerCase (content_text message) in
  if includes "execute" text then false
  else if has_action "PARSE_YIELD_STRATEGY" content_actions then false
  else if registered (msg_id message) st then false
  else
    (includes "allocate" text || includes "invest" text || includes "strategy" text)
    && (includes "yield" text || includes "apy" text || includes "earn" text
        || includes "lending" text || includes "stake" text
        || includes "rebalance" text).

(** [executeStrategyAction.validate] *)
Definition execute_validate (message : Message)
    (content_actions : option (list string)) : bool :=
  let text := toLowerCase (content_text message) in
  if has_action "EXECUTE_YIELD_STRATEGY" content_actions then false
  else includes "execute" text.

End Validators.

(** ** The JSON document in the answer of the model

    Lines 168 to 177 of the handler of [parseStrategyAction]: the answer is
    searched for a fenced block, then for a pair of braces; the fences are
    removed from what was found, and the result is trimmed. *)

(** [needle] at the start of [s]: what follows it. *)
Fixpoint strip_prefix (needle s : jsstring) : option jsstring :=
  match needle, s with
  | [], _ => Some s
  | c :: needle', d :: s' => if (c =? d)%N then strip_prefix needle' s' else None
  | _ :: _, [] => None
  end.

(** The first occurrence of [needle] in [s]: the text before it and the
    text after it. *)
Fixpoint find (needle s : jsstring) : option (jsstring * jsstring) :=
  match strip_prefix needle s with
  | Some after => Some ([], after)
  | None =>
      match s with
      | [] => None
      | c :: t =>
          match find needle t with
          | Some (before, after) => Some (c :: before, after)
          | None => None
          end
      end
  end.

(** The text before the last occurrence of the unit [c] in [s]. *)
Fixpoint upto_last (c : code_unit) (s : jsstring) : option jsstring :=
  match s with
  | [] => None
  | d :: t =>
      match upto_last c t with
      | Some before => Some (d :: before)
      | None => if (d =? c)%N then Some [] else None
      end
  end.

(** Element 0 of [modelResponse.match(/```json\s*([\s\S]*?)\s*```/)].  The
    pattern matches at the first opening fence, and its lazy body ends at
    the first closing fence after it: white space holds no backquote, so
    the two greedy runs of white space cannot move that end. *)
Definition match_fenced (s : jsstring) : option jsstring :=
  match find (js "```json") s with
  | Some (_, after) =>
      match find (js "```") after with
      | Some (body, _) => Some (js "```json" ++ body ++ js "```")
      | None => None
      end
  | None => None
  end.

(** Element 0 of [modelResponse.match(/\{[\s\S]*\}/)]: from the first
    opening brace to the last closing brace after it. *)
Definition match_braces (s : jsstring) : option jsstring :=
  match find (js "{") s with
  | Some (_, after) =>
      match upto_last 125%N after with
      | Some inner => Some (cu "{" :: inner ++ js "}")
      | None => None
      end
  | None => None
  end.

(** [text.replace(/```json|```/g, '')]: the text is scanned from the left;
    [skip] counts the units of a fence still to be dropped. *)
Fixpoint remove_fences (skip : nat) (s : jsstring) : jsstring :=
  match s with
  | [] => []
  | c :: t =>
      match skip with
      | S k => remove_fences k t
      | O =>
          match strip_prefix (js "```json") s with
          | Some _ => remove_fences 6 t
          | None =>
              match strip_prefix (js "```") s with
              | Some _ => remove_fences 2 t
              | None => c :: remove_fences 0 t
              end
          end
      end
  end.

Fixpoint drop_spaces (s : jsstring) : jsstring :=
  match s with
  | [] => []
  | c :: t => if is_space c then drop_spaces t else s
  end.

(** [String.prototype.trim] *)
Definition trim (s : jsstring) : jsstring :=
  rev (drop_spaces (rev (drop_spaces s))).

(** [jsonStr], or the error thrown when neither pattern matches. *)
Definition jsonStr (modelResponse : jsstring) : result jsstring :=
  match match_fenced modelResponse with
  | Some jsonMatch => Ok (trim (remove_fences 0 jsonMatch))
  | None =>
      match match_braces modelResponse with
      | Some jsonMatch => Ok (trim (remove_fences 0 jsonMatch))
      | None => Err (Error "Failed to extract JSON from the response")
      end
  end.

(** ** Further vocabulary *)

(** A text in which the unit [c] does not occur. *)
Definition without (c : code_unit) (s : jsstring) : Prop :=
  Forall (fun d => d <> c) s.

(** A text that neither starts nor ends with white space. *)
Definition trimmed (s : jsstring) : Prop :=
  stops is_space s /\ stops is_space (rev s).

(** The condition of [s] holds, after a text [before] without the letter
    A, the three letters, optional white space, the operator [o], optional
    white space, and then [tail]. *)
Definition condition_at (s : YieldStrategy) (before : jsstring) (o : operator)
    (tail : jsstring) : Prop :=
  exists a p y ws1 ws2,
    investmentCondition (lendingProtocol (strategy s))
    = before ++ a :: p :: y :: ws1 ++ operator_text o ++ ws2 ++ tail
    /\ all_in (fun c => negb (is_letter 65%N c)) before
    /\ is_letter 65%N a = true /\ is_letter 80%N p = true /\ is_letter 89%N y = true
    /\ all_in is_space ws1 /\ all_in is_space ws2.

Definition is_callback (ev : event) : bool :=
  match ev with
  | CallCallback _ => true
  | _ => false
  end.

Definition is_storage (ev : event) : bool :=
  match ev with
  | CallCreateMemory _ _ => true
  | _ => false
  end.

(** The batch submitted to the vault for an amount. *)
Definition submission (W : World) (vault pool : string) (amount : Z) : event :=
  CallExecute vault [tokenAddress (getNetworkConfig W); pool]
              [approve pool amount; deposit amount] [0; 0].

(** The calls of a run of the handler before its reply: none when no
    strategy was loaded; otherwise first calls of the allocation (balance
    read, batch, wait), first calls of the publication (pinning request,
    anchoring transaction, wait) and the store of the execution record. *)
Definition run_body (W : World) (body : list event) : Prop :=
  body = []
  \/ exists s amount tx url tx' evsA evsP,
      body = evsA ++ evsP ++ [CallCreateMemory "strategyExecutions" s]
      /\ evsA `prefix_of`
           (CallTotalAssets (strategyVaultAddress (getNetworkConfig W))
            :: [ CallExecute (strategyVaultAddress (getNetworkConfig W))
                             [tokenAddress (getNetworkConfig W);
                              lendingPoolAddress (getNetworkConfig W)]
                             [approve (lendingPoolAddress (getNetworkConfig W)) amount;
                              deposit amount] [0; 0];
                 CallWait tx ])
      /\ evsP `prefix_of`
           [ CallPinJSON s;
             CallSetStrategyReference (strategyVaultAddress (getNetworkConfig W)) 1 url;
             CallWait tx' ].

(** The replies of a run: the content [c1] is handed to the callback and
    the run ends as that delivery does, unless the delivery fails inside
    the [try], in which case the failure reply [c2] is handed over. *)
Definition run_replies (W : World) (res : result handler_result) (c1 : Content)
    (more : list event) : Prop :=
  (more = []
   /\ res = match callback W c1 with
            | None => Ok (Reply c1)
            | Some e => Err e
            end)
  \/ (exists c2,
        callback W c1 <> None /\ more = [CallCallback c2]
        /\ res = match callback W c2 with
                 | None => Ok (Reply c2)
                 | Some e => Err e
                 end).

(** A deployment that cannot send a transaction: no private key, or no
    address for the vault. *)
Definition unable_to_sign (W : World) : Prop :=
  is_empty (wallet_privateKey (config W)) = true
  \/ is_empty (strategyVaultAddress (getNetworkConfig W)) = true.

(** A call that sends a transaction. *)
Definition is_transaction (ev : event) : bool :=
  is_submission ev || is_anchor ev.

(** How many calls of a kind a trace holds. *)
Definition occurrences (kind : event -> bool) (evs : list event) : nat :=
  length (List.filter kind evs).

(** The calls of a successful anchoring: the transaction, then the wait
    for its confirmation. *)
Definition reference_events (W : World) (strategyId : Z) (referenceData : string)
    (tx : TransactionResponse) : list event :=
  [ CallSetStrategyReference (strategyVaultAddress (getNetworkConfig W))
                             strategyId referenceData;
    CallWait tx ].

(** The address under which a published document is retrieved. *)
Definition gateway_host (W : World) : string :=
  match env_GATEWAY_URL (config W) with
  | Some g => if is_empty g then "ipfs.io" else g
  | None => "ipfs.io"
  end.

(** No token is configured for the pinning service. *)
Definition pinning_unconfigured (W : World) : Prop :=
  match env_PINATA_JWT (config W) with
  | Some jwt => is_empty jwt = true
  | None => True
  end.

(** A strategy that differs from [demo_lending70] in every field the
    execution does not read. *)
Definition demo_cautious : YieldStrategy :=
  {| strategy :=
       {| assetAllocation := {[ "lendingProtocol" := 70%float; "stablecoin" := 30%float ]};
          lendingProtocol :=
            {| investmentCondition := js "APY > 6%";
               fallbackCondition := Some (js "APY < 6%");
               stopLossCondition := Some (js "APY < 3.5%") |};
          rebalancing := {| frequency := "1 hour"; deviationTolerance := "2%" |};
          transactionLimits :=
            {| maxTransactionPercentage := "12%"; maxSwapSlippage := "0.1%" |} |} |}.

(** The same deployment with another content of the store of strategies. *)
Definition with_memories (W : World) (stored : result (list MemoryRecord)) : World :=
  {| config := config W;
     newWallet := newWallet W;
     encodeFunctionData := encodeFunctionData W;
     totalAssets := totalAssets W;
     vault_execute := vault_execute W;
     tx_wait := tx_wait W;
     pin_fetch := pin_fetch W;
     vault_setStrategyReference := vault_setStrategyReference W;
     getMemories := fun _ => stored;
     schema_parse_text := schema_parse_text W;
     schema_parse_object := schema_parse_object W;
     createMemory := createMemory W;
     useModel := useModel W;
     extract_strategy := extract_strategy W;
     stringify := stringify W;
     callback := callback W |}.

(** Two message objects with different identifiers. *)
Definition demo_two_messages : State :=
  initial_state {[ 0%nat := demo_message "msg-1"; 1%nat := demo_message "msg-2" ]}.

(** The case conversion on a text of ASCII characters, for the examples. *)
Definition lower_ascii (c : ascii) : ascii :=
  let n := N_of_ascii c in
  if ((65 <=? n) && (n <=? 90))%N then ascii_of_N (n + 32) else c.

Fixpoint demo_toLowerCase (t : string) : string :=
  match t with
  | EmptyString => EmptyString
  | String c r => String (lower_ascii c) (demo_toLowerCase r)
  end.

(** * Properties *)

(** ** Character classes and greedy scanning *)

Section Scanning.

Local Open Scope N_scope.

Ltac class_facts :=
  unfold is_numchar in *; unfold is_space, is_opchar, is_digit, is_letter in *;
  repeat match goal with
  | H : _ || _ = true |- _ => apply orb_true_iff in H; destruct H
  | H : _ && _ = true |- _ => apply andb_true_iff in H; destruct H
  | H : (_ =? _) = true |- _ => apply N.eqb_eq in H
  | H : (_ <=? _) = true |- _ => apply N.leb_le in H
  end.

Ltac class_false :=
  intros; apply not_true_iff_false; intro; class_facts; lia.

Lemma opchar_not_space c : is_opchar c = true -> is_space c = false.
Proof. class_false. Qed.

Lemma space_not_opchar c : is_space c = true -> is_opchar c = false.
Proof. class_false. Qed.

Lemma numchar_not_space c : is_numchar c = true -> is_space c = false.
Proof. class_false. Qed.

Lemma numchar_not_opchar c : is_numchar c = true -> is_opchar c = false.
Proof. class_false. Qed.

Lemma digit_numchar c : is_digit c = true -> is_numchar c = true.
Proof. unfold is_numchar. intros ->. reflexivity. Qed.

Lemma span_app p l r : all_in p l -> stops p r -> span p (l ++ r) = (l, r).
Proof.
  induction 1 as [|c l Hc _ IH]; intros Hr; simpl.
  - destruct r as [|c r]; simpl in *; [reflexivity | now rewrite Hr].
  - rewrite Hc, (IH Hr). reflexivity.
Qed.

Lemma span_spec p s a b :
  span p s = (a, b) -> s = a ++ b /\ all_in p a /\ stops p b.
Proof.
  revert a b. induction s as [|c s IH]; simpl; intros a b E.
  - inversion E. repeat split; constructor.
  - destruct (p c) eqn:Hc.
    + destruct (span p s) as [a' b'] eqn:E'. inversion E; subst.
      destruct (IH _ _ eq_refl) as (-> & Ha & Hb).
      repeat split; [constructor; assumption | assumption].
    + inversion E; subst. repeat split; [constructor | exact Hc].
Qed.

End Scanning.

(** ** The condition evaluator *)

Section Evaluator.

Local Open Scope N_scope.

Lemma all_in_app p l1 l2 : all_in p l1 -> all_in p l2 -> all_in p (l1 ++ l2).
Proof. intros H1 H2. apply Forall_app. split; assumption. Qed.

Lemma stops_head p q l r :
  (forall c, q c = true -> p c = false) ->
  all_in q l -> l <> [] -> stops p (l ++ r).
Proof.
  intros Hpq Hl Hne. destruct l as [|c l]; [congruence|].
  simpl. apply Hpq. now inversion Hl.
Qed.

Lemma stops_spaces_then p q ws l r :
  (forall c, is_space c = true -> p c = false) ->
  (forall c, q c = true -> p c = false) ->
  all_in is_space ws -> all_in q l -> l <> [] -> stops p (ws ++ l ++ r).
Proof.
  intros Hs Hq Hws Hl Hne. destruct ws as [|w ws]; simpl.
  - exact (stops_head p q l r Hq Hl Hne).
  - apply Hs. now inversion Hws.
Qed.

(** The scanner finds the greedy match. *)
Lemma match_here_eq a p y ws1 op ws2 digits rest :
  is_letter 65 a = true -> is_letter 80 p = true -> is_letter 89 y = true ->
  all_in is_space ws1 -> all_in is_space ws2 ->
  all_in is_opchar op -> op <> [] ->
  all_in is_numchar digits -> digits <> [] ->
  stops is_numchar rest ->
  match_here (a :: p :: y :: ws1 ++ op ++ ws2 ++ digits ++ rest) = Some (op, digits).
Proof.
  intros Ha Hp Hy Hw1 Hw2 Hop Hop0 Hd Hd0 Hrest.
  unfold match_here. rewrite Ha, Hp, Hy. simpl.
  rewrite (span_app is_space ws1) by
    (try assumption; eapply stops_head; eauto using opchar_not_space).
  rewrite (span_app is_opchar op) by
    (try assumption;
     eapply stops_spaces_then; eauto using space_not_opchar, numchar_not_opchar).
  destruct op as [|o op']; [congruence|].
  rewrite (span_app is_space ws2) by
    (try assumption; eapply stops_head; eauto using numchar_not_space).
  rewrite (span_app is_numchar digits) by assumption.
  destruct digits; [congruence | reflexivity].
Qed.

(** Whatever lengths a match of the pattern chooses, the scanner succeeds
    at the same place with the same operator and at least those digits:
    the scanner loses no match of the pattern. *)
Lemma match_here_greedy s op digits :
  matches_at s op digits ->
  exists more, match_here s = Some (op, digits ++ more).
Proof.
  intros (a & p & y & ws1 & ws2 & rest & -> & Ha & Hp & Hy & Hw1 & Hw2
          & Hop & Hop0 & Hd & Hd0).
  destruct (span is_numchar rest) as [more rest'] eqn:E.
  apply span_spec in E. destruct E as (-> & Hmore & Hstop).
  exists more. rewrite (app_assoc digits more rest').
  apply match_here_eq; try assumption.
  - now apply all_in_app.
  - destruct digits; [congruence | discriminate].
Qed.

(** What the scanner returns is a match of the pattern. *)
Lemma match_here_sound s op digits :
  match_here s = Some (op, digits) -> matches_at s op digits.
Proof.
  unfold match_here.
  destruct s as [|a [|p [|y r0]]]; try discriminate.
  destruct (is_letter 65 a) eqn:Ha; [|discriminate].
  destruct (is_letter 80 p) eqn:Hp; [|discriminate].
  destruct (is_letter 89 y) eqn:Hy; [|discriminate]. simpl.
  destruct (span is_space r0) as [ws1 r1] eqn:E1.
  destruct (span is_opchar r1) as [op' r2] eqn:E2.
  destruct op' as [|o op']; [discriminate|].
  destruct (span is_space r2) as [ws2 r3] eqn:E3.
  destruct (span is_numchar r3) as [num r4] eqn:E4.
  destruct num as [|d num]; [discriminate|].
  intros H. inversion H; subst; clear H.
  apply span_spec in E1, E2, E3, E4.
  destruct E1 as (-> & H1 & _), E2 as (-> & H2 & _),
           E3 as (-> & H3 & _), E4 as (-> & H4 & _).
  exists a, p, y, ws1, ws2, r4. repeat split; try assumption; discriminate.
Qed.

Lemma regex_match_sound s op digits :
  regex_match s = Some (op, digits) -> occurs_in s op digits.
Proof.
  induction s as [|c s IH].
  - discriminate.
  - change (regex_match (c :: s))
      with (match match_here (c :: s) with
            | Some m => Some m
            | None => regex_match s
            end).
    destruct (match_here (c :: s)) as [[op' d']|] eqn:E.
    + intros H. inversion H; subst; clear H. exists [], (c :: s).
      split; [reflexivity | now apply match_here_sound].
    + intros H. destruct (IH H) as (before & t & -> & Ht).
      exists (c :: before), t. split; [reflexivity | assumption].
Qed.

Lemma regex_match_here s m : match_here s = Some m -> regex_match s = Some m.
Proof. intros H. destruct s; [discriminate|]. unfold regex_match. now rewrite H. Qed.

Lemma numeral_numchars ip fp :
  all_in is_digit ip -> all_in is_digit fp -> all_in is_numchar (numeral ip fp).
Proof.
  intros Hi Hf. unfold numeral. apply all_in_app.
  - eapply Forall_impl; [exact Hi | apply digit_numchar].
  - destruct fp; constructor; [reflexivity|].
    eapply Forall_impl; [exact Hf | apply digit_numchar].
Qed.

(** [parseFloat] reads the whole of a decimal numeral. *)
Lemma parseFloat_numeral ip fp :
  all_in is_digit ip -> ip <> [] -> all_in is_digit fp ->
  parseFloat (numeral ip fp) = numeral_value ip fp.
Proof.
  intros Hi Hne Hf. unfold parseFloat, numeral, numeral_value.
  destruct fp as [|f fp].
  - rewrite (span_app is_digit ip []) by (assumption || exact I).
    rewrite app_nil_r. destruct ip; [congruence | reflexivity].
  - rewrite (span_app is_digit ip) by (assumption || reflexivity).
    change (cu "." =? 46) with true. cbv iota.
    replace (span is_digit (f :: fp)) with (f :: fp, @nil code_unit).
    + simpl fst. destruct ip; [congruence | reflexivity].
    + symmetry. rewrite <- (app_nil_r (f :: fp)) at 1.
      apply span_app; [assumption | exact I].
Qed.

Lemma operator_text_opchars o :
  all_in is_opchar (operator_text o) /\ operator_text o <> [].
Proof. destruct o; split; try discriminate; repeat constructor. Qed.

(** The [switch] on a recognised operator. *)
Lemma evaluate_switch s o digits rate :
  regex_match (investmentCondition (lendingProtocol (strategy s)))
  = Some (operator_text o, digits) ->
  shouldInvestInLendingProtocol s rate = holds o rate (parseFloat digits).
Proof.
  intros H. unfold shouldInvestInLendingProtocol. simpl. rewrite H.
  destruct o; reflexivity.
Qed.

(** A positive answer comes from one of the six operators. *)
Lemma evaluate_true s rate :
  shouldInvestInLendingProtocol s rate = true ->
  exists o digits,
    regex_match (investmentCondition (lendingProtocol (strategy s)))
    = Some (operator_text o, digits)
    /\ holds o rate (parseFloat digits) = true.
Proof.
  unfold shouldInvestInLendingProtocol. simpl.
  destruct (regex_match _) as [[op digits]|]; [|discriminate].
  repeat case_bool_decide; subst; intros Hres;
    [ exists OpGt | exists OpGe | exists OpLt | exists OpLe
    | exists OpEqEq | exists OpEq | discriminate ];
    exists digits; (split; [reflexivity | exact Hres]).
Qed.

Lemma well_formed_match c o ip fp :
  well_formed c o ip fp ->
  regex_match c = Some (operator_text o, numeral ip fp).
Proof.
  intros (a & p & y & ws1 & ws2 & pct & -> & Ha & Hp & Hy & Hw1 & Hw2
          & Hi & Hi0 & Hf & Hpct).
  apply regex_match_here, match_here_eq; try assumption.
  - apply operator_text_opchars.
  - apply operator_text_opchars.
  - now apply numeral_numchars.
  - unfold numeral. destruct ip; [congruence | discriminate].
  - destruct Hpct as [-> | ->]; [exact I | reflexivity].
Qed.

(** What the scanner returns is the greedy match. *)
Lemma match_here_matches_greedy s op digits :
  match_here s = Some (op, digits) -> matches_greedy s op digits.
Proof.
  unfold match_here.
  destruct s as [|a [|p [|y r0]]]; try discriminate.
  destruct (is_letter 65 a) eqn:Ha; [|discriminate].
  destruct (is_letter 80 p) eqn:Hp; [|discriminate].
  destruct (is_letter 89 y) eqn:Hy; [|discriminate]. simpl.
  destruct (span is_space r0) as [ws1 r1] eqn:E1.
  destruct (span is_opchar r1) as [op' r2] eqn:E2.
  destruct op' as [|o op']; [discriminate|].
  destruct (span is_space r2) as [ws2 r3] eqn:E3.
  destruct (span is_numchar r3) as [num r4] eqn:E4.
  destruct num as [|d num]; [discriminate|].
  intros H. inversion H; subst; clear H.
  apply span_spec in E1, E2, E3, E4.
  destruct E1 as (-> & H1 & _), E2 as (-> & H2 & _),
           E3 as (-> & H3 & _), E4 as (-> & H4 & Hstop).
  exists a, p, y, ws1, ws2, r4. repeat split; try assumption; discriminate.
Qed.

Lemma matches_greedy_here t op digits :
  matches_greedy t op digits -> match_here t = Some (op, digits).
Proof.
  intros (a & p & y & ws1 & ws2 & rest & -> & Ha & Hp & Hy & Hw1 & Hw2
          & Hop & Hop0 & Hd & Hd0 & Hrest).
  now apply match_here_eq.
Qed.

(** No match of the pattern where the scanner fails. *)
Lemma match_here_none t op digits : match_here t = None -> ~ matches_at t op digits.
Proof.
  intros Hnone Hm. destruct (match_here_greedy t op digits Hm) as [more E].
  congruence.
Qed.

(** The search returns the first match of the pattern. *)
Lemma regex_match_first s op digits :
  regex_match s = Some (op, digits) -> exists before, first_match s before op digits.
Proof.
  induction s as [|c s IH].
  - discriminate.
  - change (regex_match (c :: s))
      with (match match_here (c :: s) with
            | Some m => Some m
            | None => regex_match s
            end).
    destruct (match_here (c :: s)) as [[op' d']|] eqn:E.
    + intros H. inversion H; subst; clear H. exists [], (c :: s).
      split; [reflexivity|]. split; [now apply match_here_matches_greedy|].
      intros. simpl. apply Nat.le_0_l.
    + intros H. destruct (IH H) as (before & t & -> & Ht & Hmin).
      exists (c :: before), t. split; [reflexivity|]. split; [exact Ht|].
      intros before' t' op' digits' Hs Hm. destruct before' as [|c' before'].
      * simpl in Hs. subst t'. destruct (match_here_none _ _ _ E Hm).
      * injection Hs as <- Hs. simpl. apply le_n_S.
        exact (Hmin before' t' op' digits' Hs Hm).
Qed.

Lemma first_match_regex s before op digits :
  first_match s before op digits -> regex_match s = Some (op, digits).
Proof.
  revert s. induction before as [|c before IH]; intros s (t & -> & Ht & Hmin).
  - apply regex_match_here, matches_greedy_here, Ht.
  - change (regex_match ((c :: before) ++ t))
      with (match match_here (c :: before ++ t) with
            | Some m => Some m
            | None => regex_match (before ++ t)
            end).
    destruct (match_here (c :: before ++ t)) as [[op' d']|] eqn:E.
    + apply match_here_sound in E.
      pose proof (Hmin [] (c :: before ++ t) op' d' eq_refl E) as Hle.
      simpl in Hle. inversion Hle.
    + apply IH. exists t. split; [reflexivity|]. split; [exact Ht|].
      intros before' t' op' digits' Hs Hm.
      apply le_S_n. apply (Hmin (c :: before') t' op' digits'); [|exact Hm].
      simpl. now rewrite Hs.
Qed.

Lemma regex_match_absent s :
  (forall op digits, ~ occurs_in s op digits) -> regex_match s = None.
Proof.
  intros Hno. destruct (regex_match s) as [[op digits]|] eqn:E; [|reflexivity].
  destruct (Hno op digits (regex_match_sound s op digits E)).
Qed.

(** The [default] branch of the [switch]. *)
Lemma evaluate_unsupported s op digits rate :
  regex_match (investmentCondition (lendingProtocol (strategy s))) = Some (op, digits) ->
  unsupported op ->
  shouldInvestInLendingProtocol s rate = false.
Proof.
  intros H Hun. unfold shouldInvestInLendingProtocol. simpl. rewrite H.
  repeat case_bool_decide; subst; try reflexivity;
    [ destruct (Hun OpGt) | destruct (Hun OpGe) | destruct (Hun OpLt)
    | destruct (Hun OpLe) | destruct (Hun OpEqEq) | destruct (Hun OpEq) ];
    reflexivity.
Qed.

(** After a text without the letter A, the greedy match is the first
    match. *)
Lemma first_match_plain before t op digits :
  all_in (fun c => negb (is_letter 65 c)) before ->
  matches_greedy t op digits ->
  first_match (before ++ t) before op digits.
Proof.
  intros Hb Ht. exists t. split; [reflexivity|]. split; [exact Ht|].
  intros before' t' op' digits' Hs Hm.
  apply List.app_eq_app in Hs as [l [[-> ->] | [-> _]]].
  - destruct l as [|c l]; [rewrite app_nil_r; apply Nat.le_refl|].
    exfalso. apply Forall_app in Hb as [_ Hb]. inversion Hb as [|? ? Hc _]; subst.
    destruct Hm as (a & p & y & ws1 & ws2 & rest & Hs & Ha & _).
    simpl in Hs. injection Hs as <- _. rewrite Ha in Hc. discriminate.
  - rewrite length_app. apply Nat.le_add_r.
Qed.

(** C1, as the code has it.  On a condition of the shape [APY {op} T%]
    the evaluator returns the IEEE comparison of the rate with the
    number nearest to [T].  The pattern is searched anywhere in the
    condition and its first match decides, whatever surrounds it: when
    the operator run of that match is one of the six operators, the
    evaluator returns the comparison of the rate with the number read
    from the longest run of digits and dots of the match; when it is
    another run of [<], [>], [=], it returns [false]; a condition in
    which the pattern does not occur yields [false]; every condition is
    in one of these cases; and the evaluator always returns a boolean. *)
Theorem condition_evaluator_spec :
  (forall s o ip fp rate,
      well_formed (investmentCondition (lendingProtocol (strategy s))) o ip fp ->
      shouldInvestInLendingProtocol s rate = holds o rate (numeral_value ip fp))
  /\ (forall s before o digits rate,
      first_match (investmentCondition (lendingProtocol (strategy s)))
                  before (operator_text o) digits ->
      shouldInvestInLendingProtocol s rate = holds o rate (parseFloat digits))
  /\ (forall s before op digits rate,
      first_match (investmentCondition (lendingProtocol (strategy s))) before op digits ->
      unsupported op ->
      shouldInvestInLendingProtocol s rate = false)
  /\ (forall s rate,
      (forall op digits,
          ~ occurs_in (investmentCondition (lendingProtocol (strategy s))) op digits) ->
      shouldInvestInLendingProtocol s rate = false)
  /\ (forall s,
      (forall op digits,
          ~ occurs_in (investmentCondition (lendingProtocol (strategy s))) op digits)
      \/ exists before op digits,
          first_match (investmentCondition (lendingProtocol (strategy s)))
                      before op digits)
  /\ (forall s rate,
      shouldInvestInLendingProtocol s rate = true
      \/ shouldInvestInLendingProtocol s rate = false).
Proof.
  split; [|split; [|split; [|split; [|split]]]].
  - intros s o ip fp rate Hwf.
    pose proof Hwf as (a & p & y & ws1 & ws2 & pct & _ & _ & _ & _ & _ & _
                       & Hi & Hi0 & Hf & _).
    rewrite (evaluate_switch s o (numeral ip fp) rate (well_formed_match _ _ _ _ Hwf)).
    now rewrite parseFloat_numeral.
  - intros s before o digits rate Hfirst.
    apply evaluate_switch. now apply (first_match_regex _ before).
  - intros s before op digits rate Hfirst Hun.
    apply (evaluate_unsupported s op digits rate); [|exact Hun].
    now apply (first_match_regex _ before).
  - intros s rate Hno. unfold shouldInvestInLendingProtocol. simpl.
    now rewrite (regex_match_absent _ Hno).
  - intros s.
    destruct (regex_match (investmentCondition (lendingProtocol (strategy s))))
      as [[op digits]|] eqn:E.
    + right. destruct (regex_match_first _ op digits E) as [before Hfirst].
      exists before, op, digits. exact Hfirst.
    + left. intros op digits (before & t & Hs & Hm).
      assert (Hsome : exists m, regex_match (before ++ t) = Some m).
      { clear Hs E. induction before as [|c before IH].
        - destruct (match_here_greedy t op digits Hm) as [more Hh].
          eexists. apply regex_match_here. exact Hh.
        - change (regex_match ((c :: before) ++ t))
            with (match match_here (c :: before ++ t) with
                  | Some m => Some m
                  | None => regex_match (before ++ t)
                  end).
          destruct (match_here (c :: before ++ t)); [eauto | exact IH]. }
      destruct Hsome as [m Hm']. rewrite <- Hs in Hm'. congruence.
  - intros s rate. destruct (shouldInvestInLendingProtocol s rate); auto.
Qed.

(** The theorem at the scenario of the specification, [APY > 6%] against
    the rate 7.2, at the same condition inside a sentence, and at a
    condition whose threshold has two digits: all of them are read. *)
Lemma condition_evaluator_spec_witness :
  shouldInvestInLendingProtocol (with_condition (js "APY > 6%") ∅) 7.2%float
  = holds OpGt 7.2%float (numeral_value (js "6") [])
  /\ shouldInvestInLendingProtocol
       (with_condition (js "Invest when APY > 6% holds") ∅) 7.2%float
     = holds OpGt 7.2%float (parseFloat (js "6"))
  /\ shouldInvestInLendingProtocol (with_condition (js "x APY > 65") ∅) 7%float
     = false.
Proof.
  split; [|split].
  3:{ transitivity (holds OpGt 7%float (parseFloat (js "65")));
        [|vm_compute; reflexivity].
      apply (proj1 (proj2 condition_evaluator_spec)
                   (with_condition (js "x APY > 65") ∅) (js "x ") OpGt (js "65")
                   7%float).
      apply (first_match_plain (js "x ") (js "APY > 65")).
      - repeat constructor.
      - exists (cu "A"), (cu "P"), (cu "Y"), (js " "), (js " "), [].
        repeat split; try reflexivity; try discriminate; repeat constructor. }
  - apply (proj1 condition_evaluator_spec
                 (with_condition (js "APY > 6%") ∅) OpGt (js "6") [] 7.2%float).
    exists (cu "A"), (cu "P"), (cu "Y"), (js " "), (js " "), (js "%").
    repeat split; try reflexivity; try discriminate;
      try (right; reflexivity); repeat constructor.
  - apply (proj1 (proj2 condition_evaluator_spec)
                 (with_condition (js "Invest when APY > 6% holds") ∅)
                 (js "Invest when ") OpGt (js "6") 7.2%float).
    apply (first_match_plain (js "Invest when ") (js "APY > 6% holds")).
    + repeat constructor.
    + exists (cu "A"), (cu "P"), (cu "Y"), (js " "), (js " "), (js "% holds").
      repeat split; try reflexivity; try discriminate; repeat constructor.
Defined.

(** The threshold is the number nearest to the numeral: [0.1] is read as
    [7205759403792794 * 2^-56], which is more than one tenth, and a rate
    with that value is found equal to it. *)
Lemma threshold_is_rounded :
  Prim2SF (parseFloat (js "0.1")) = S754_finite false 7205759403792794 (-56)
  /\ (10 * 7205759403792794 > 2 ^ 56)%Z
  /\ shouldInvestInLendingProtocol (with_condition (js "APY == 0.1") ∅)
                                   (parseFloat (js "0.1")) = true.
Proof. vm_compute. repeat split. Qed.

(** C1 as stated fails on a string that is not of the shape: the pattern
    is searched anywhere in the condition, and text around it is ignored. *)
Lemma evaluator_accepts_embedded_pattern :
  let c := js "Invest when APY > 6% holds" in
  (~ exists o ip fp, well_formed c o ip fp)
  /\ shouldInvestInLendingProtocol (with_condition c ∅) 7.2%float = true.
Proof.
  split.
  - intros (o & ip & fp & a & p & y & ws1 & ws2 & pct & Hs & Ha & _).
    inversion Hs; subst a. discriminate Ha.
  - vm_compute. reflexivity.
Qed.

End Evaluator.

(** ** Numbers *)

Section Numbers.

Lemma Prim2SF_zero : Prim2SF 0 = S754_zero false.
Proof. reflexivity. Qed.

Lemma Prim2SF_hundred : Prim2SF 100 = S754_finite false 7036874417766400 (-46).
Proof. reflexivity. Qed.

Lemma digits2_pos_bound m : Zpos m < 2 ^ Zpos (digits2_pos m).
Proof.
  induction m as [m IH | m IH |]; simpl digits2_pos;
    rewrite ?Pos2Z.inj_succ, ?Z.pow_succ_r by lia; lia.
Qed.

Lemma magnitude_pos m e g : Num.magnitude m e = Some g -> 0 < g.
Proof.
  destruct e as [|k|k]; simpl.
  - intros [= <-]. lia.
  - intros [= <-]. assert (0 < 2 ^ Zpos k) by (apply Z.pow_pos_nonneg; lia). lia.
  - destruct (Z.eqb_spec (Zpos m mod 2 ^ Zpos k) 0) as [Hm|]; [|discriminate].
    intros [= <-].
    assert (0 < 2 ^ Zpos k) by (apply Z.pow_pos_nonneg; lia).
    pose proof (Z.div_mod (Zpos m) (2 ^ Zpos k) ltac:(lia)) as Hd.
    rewrite Hm in Hd. nia.
Qed.

Lemma to_integer_finite p s m e :
  Prim2SF p = S754_finite s m e ->
  Num.to_integer p = (if s then Z.opp else id) <$> Num.magnitude m e.
Proof. intros H. unfold Num.to_integer. rewrite H. reflexivity. Qed.

(** A number whose integer value is positive is a positive finite float. *)
Lemma to_integer_positive p z :
  Num.to_integer p = Some z -> 0 < z ->
  exists m e, Prim2SF p = S754_finite false m e /\ Num.magnitude m e = Some z.
Proof.
  intros Hz Hpos. destruct (Prim2SF p) as [s|s| |s m e] eqn:E;
    try (unfold Num.to_integer in Hz; rewrite E in Hz; simpl in Hz;
         first [discriminate | injection Hz as <-; lia]).
  rewrite (to_integer_finite _ _ _ _ E) in Hz.
  destruct (Num.magnitude m e) as [g|] eqn:Hg; [|discriminate].
  apply magnitude_pos in Hg as Hgpos.
  destruct s; simpl in Hz; injection Hz as <-; [lia|].
  exists m, e. split; [reflexivity | assumption].
Qed.

Lemma positive_not_le_zero p z :
  Num.to_integer p = Some z -> 0 < z -> (p <=? 0)%float = false.
Proof.
  intros Hz Hpos. destruct (to_integer_positive p z Hz Hpos) as (m & e & E & _).
  rewrite FloatAxioms.leb_spec. rewrite E. reflexivity.
Qed.

Lemma positive_truthy p z :
  Num.to_integer p = Some z -> 0 < z -> Num.truthy p = true.
Proof.
  intros Hz Hpos. destruct (to_integer_positive p z Hz Hpos) as (m & e & E & _).
  unfold Num.truthy, is_zero, is_nan.
  rewrite !FloatAxioms.eqb_spec. rewrite E.
  change (Prim2SF PrimFloat.zero) with (S754_zero false). unfold SFeqb, SFcompare.
  rewrite Z.compare_refl, Pos.compare_cont_refl. reflexivity.
Qed.

(** The integer value of a number that compares below 100 is at most 100. *)
Lemma to_integer_le_hundred p z :
  Num.to_integer p = Some z -> (p <=? 100)%float = true -> z <= 100.
Proof.
  intros Hz Hle. destruct (Z_lt_le_dec 0 z) as [Hpos|]; [|lia].
  destruct (to_integer_positive p z Hz Hpos) as (m & e & E & Hg).
  pose proof (Prim2SF_valid p) as Hv. rewrite E in Hv.
  rewrite FloatAxioms.leb_spec in Hle. rewrite E, Prim2SF_hundred in Hle.
  unfold SFleb, SFcompare in Hle.
  unfold valid_binary, bounded, canonical_mantissa, fexp in Hv.
  apply andb_true_iff in Hv as [Hc _]. apply Z.eqb_eq in Hc.
  pose proof (digits2_pos_bound m) as Hm.
  assert (Hd : Zpos (digits2_pos m) <= 53) by (unfold prec in Hc; lia).
  assert (H53 : Zpos m < 2 ^ 53).
  { eapply Z.lt_le_trans; [exact Hm|]. apply Z.pow_le_mono_r; lia. }
  destruct (Z.compare_spec e (-46)) as [He|He|He]; try discriminate.
  - subst e. simpl in Hg.
    destruct (Z.eqb_spec (Zpos m mod 2 ^ 46) 0); [|discriminate].
    injection Hg as <-.
    assert (Hm' : (m <= 7036874417766400)%positive).
    { unfold Pos.le, Pos.compare.
      destruct (PosDef.Pos.compare_cont Eq m 7036874417766400); congruence. }
    clear - Hm'. apply Z.div_le_upper_bound; [reflexivity|].
    change (2 ^ 46 * 100) with (Z.pos 7036874417766400). exact Hm'.
  - destruct e as [|k|k]; try lia. simpl in Hg.
    destruct (Z.eqb_spec (Zpos m mod 2 ^ Zpos k) 0); [|discriminate].
    injection Hg as <-.
    assert (Hk : 2 ^ 47 <= 2 ^ Zpos k) by (apply Z.pow_le_mono_r; lia).
    clear - Hk H53. set (X := 2 ^ Zpos k) in *.
    change (2 ^ 53) with 9007199254740992 in H53.
    change (2 ^ 47) with 140737488355328 in Hk.
    apply Z.div_le_upper_bound; lia.
Qed.

Lemma digits2_pos_lower m : 2 ^ (Zpos (digits2_pos m) - 1) <= Zpos m.
Proof.
  induction m as [m IH | m IH |]; simpl digits2_pos.
  - rewrite Pos2Z.inj_succ. replace (Z.succ (Zpos (digits2_pos m)) - 1)
      with (Z.succ (Zpos (digits2_pos m) - 1)) by lia.
    rewrite Z.pow_succ_r by lia. lia.
  - rewrite Pos2Z.inj_succ. replace (Z.succ (Zpos (digits2_pos m)) - 1)
      with (Z.succ (Zpos (digits2_pos m) - 1)) by lia.
    rewrite Z.pow_succ_r by lia. lia.
  - simpl. lia.
Qed.

(** The exponent and the mantissa of a number: the exponent is at least
    -1074, the mantissa is below 2^53, and at least 2^52 unless the
    exponent is -1074. *)
Lemma finite_bounds p s m e :
  Prim2SF p = S754_finite s m e ->
  -1074 <= e /\ Zpos m < 2 ^ 53 /\ (-1074 < e -> 2 ^ 52 <= Zpos m).
Proof.
  intros E. pose proof (Prim2SF_valid p) as Hv. rewrite E in Hv.
  unfold valid_binary, bounded, canonical_mantissa, fexp in Hv.
  apply andb_true_iff in Hv as [Hc _]. apply Z.eqb_eq in Hc.
  unfold prec, emin, emax in Hc.
  pose proof (digits2_pos_bound m) as Hm.
  pose proof (digits2_pos_lower m) as Hl.
  split; [lia|]. split.
  - eapply Z.lt_le_trans; [exact Hm|]. apply Z.pow_le_mono_r; lia.
  - intros He. eapply Z.le_trans; [|exact Hl]. apply Z.pow_le_mono_r; lia.
Qed.

Lemma magnitude_value m e g :
  Num.magnitude m e = Some g -> -1074 <= e ->
  g * 2 ^ 1074 = Zpos m * 2 ^ (e + 1074).
Proof.
  destruct e as [|k|k]; simpl Num.magnitude.
  - intros [= <-] _. reflexivity.
  - intros [= <-] _. rewrite Z.pow_add_r by lia. lia.
  - destruct (Z.eqb_spec (Zpos m mod 2 ^ Zpos k) 0) as [Hm|]; [|discriminate].
    intros [= <-] He.
    assert (Hk : 0 < 2 ^ Zpos k) by (apply Z.pow_pos_nonneg; lia).
    pose proof (Z.div_mod (Zpos m) (2 ^ Zpos k) ltac:(lia)) as Hd.
    rewrite Hm in Hd.
    replace 1074 with ((Zneg k + 1074) + Zpos k) at 1 by lia.
    rewrite Z.pow_add_r by lia.
    set (q := Zpos m / 2 ^ Zpos k) in *. set (X := 2 ^ Zpos k) in *.
    set (Y := 2 ^ (Z.neg k + 1074)). rewrite Hd. ring.
Qed.

(** The comparison of two positive numbers is the comparison of their
    values. *)
Lemma compare_values x y m1 e1 m2 e2 :
  Prim2SF x = S754_finite false m1 e1 ->
  Prim2SF y = S754_finite false m2 e2 ->
  (x <? y)%float = true ->
  Zpos m1 * 2 ^ (e1 + 1074) < Zpos m2 * 2 ^ (e2 + 1074).
Proof.
  intros Ex Ey Hlt.
  destruct (finite_bounds x _ _ _ Ex) as (He1 & Hm1 & _).
  destruct (finite_bounds y _ _ _ Ey) as (He2 & _ & Hm2).
  rewrite FloatAxioms.ltb_spec in Hlt. rewrite Ex, Ey in Hlt.
  unfold SFltb, SFcompare in Hlt.
  destruct (Z.compare_spec e1 e2) as [He|He|He]; try discriminate.
  - subst e2.
    assert (Hm : (m1 < m2)%positive).
    { unfold Pos.lt, Pos.compare.
      destruct (PosDef.Pos.compare_cont Eq m1 m2); congruence. }
    assert (0 < 2 ^ (e1 + 1074)) by (apply Z.pow_pos_nonneg; lia).
    apply Z.mul_lt_mono_pos_r; [assumption | exact Hm].
  - specialize (Hm2 ltac:(lia)).
    assert (Hp : 2 * 2 ^ (e1 + 1074) <= 2 ^ (e2 + 1074)).
    { rewrite <- Z.pow_succ_r by lia. apply Z.pow_le_mono_r; lia. }
    assert (0 < 2 ^ (e1 + 1074)) by (apply Z.pow_pos_nonneg; lia).
    clear - Hm1 Hm2 Hp H.
    set (X := 2 ^ (e1 + 1074)) in *. set (Y := 2 ^ (e2 + 1074)) in *.
    change (2 ^ 53) with 9007199254740992 in Hm1.
    change (2 ^ 52) with 4503599627370496 in Hm2. nia.
Qed.

(** A number strictly between two consecutive integers, the lower one
    not negative, is positive and is no integer. *)
Lemma between_integers lo p hi n :
  Num.to_integer lo = Some n -> Num.to_integer hi = Some (n + 1) -> 0 <= n ->
  (lo <? p)%float = true -> (p <? hi)%float = true ->
  Num.to_integer p = None /\ Num.truthy p = true /\ (p <=? 0)%float = false.
Proof.
  intros Hlo Hhi Hn Hlt1 Hlt2.
  destruct (to_integer_positive hi (n + 1) Hhi ltac:(lia)) as (mh & eh & Eh & Hgh).
  assert (Ep : exists mp ep, Prim2SF p = S754_finite false mp ep).
  { pose proof Hlt1 as H1. pose proof Hlt2 as H2.
    rewrite FloatAxioms.ltb_spec in H1, H2. rewrite Eh in H2.
    unfold Num.to_integer in Hlo.
    destruct (Prim2SF p) as [sp|sp| |sp mp ep].
    - exfalso. destruct (Prim2SF lo) as [sl|sl| |sl ml el];
        try discriminate Hlo; try (cbv in H1; discriminate H1).
      destruct sl; [|cbv in H1; discriminate H1]. simpl in Hlo.
      destruct (Num.magnitude ml el) as [g|] eqn:Hg; [|discriminate].
      apply magnitude_pos in Hg. injection Hlo as <-. lia.
    - exfalso. destruct sp; [|cbv in H2; discriminate H2].
      destruct (Prim2SF lo) as [sl|sl| |sl ml el];
        try discriminate Hlo; try (cbv in H1; discriminate H1).
    - cbv in H2. discriminate H2.
    - destruct sp; [exfalso|eauto].
      destruct (Prim2SF lo) as [sl|sl| |sl ml el];
        try discriminate Hlo; try (cbv in H1; discriminate H1).
      destruct sl; [|cbv in H1; discriminate H1]. simpl in Hlo.
      destruct (Num.magnitude ml el) as [g|] eqn:Hg; [|discriminate].
      apply magnitude_pos in Hg. injection Hlo as <-. lia. }
  destruct Ep as (mp & ep & Ep).
  split; [|split].
  - rewrite (to_integer_finite _ _ _ _ Ep). simpl.
    destruct (Num.magnitude mp ep) as [z|] eqn:Hz; [exfalso|reflexivity].
    destruct (finite_bounds p _ _ _ Ep) as (Hep & _).
    destruct (finite_bounds hi _ _ _ Eh) as (Heh & _).
    pose proof (magnitude_pos _ _ _ Hz) as Hzpos.
    pose proof (magnitude_value _ _ _ Hz Hep) as Vz.
    pose proof (magnitude_value _ _ _ Hgh Heh) as Vh.
    pose proof (compare_values p hi _ _ _ _ Ep Eh Hlt2) as C2.
    rewrite <- Vz, <- Vh in C2.
    assert (Hzn : n < z).
    { destruct (Z_lt_le_dec 0 n) as [Hpos|]; [|lia].
      destruct (to_integer_positive lo n Hlo Hpos) as (ml & el & El & Hgl).
      destruct (finite_bounds lo _ _ _ El) as (Hel & _).
      pose proof (magnitude_value _ _ _ Hgl Hel) as Vl.
      pose proof (compare_values lo p _ _ _ _ El Ep Hlt1) as C1.
      rewrite <- Vl, <- Vz in C1.
      apply Z.mul_lt_mono_pos_r in C1; [exact C1 | reflexivity]. }
    apply Z.mul_lt_mono_pos_r in C2; [lia | reflexivity].
  - unfold Num.truthy, is_zero, is_nan.
    rewrite !FloatAxioms.eqb_spec. rewrite Ep.
    change (Prim2SF PrimFloat.zero) with (S754_zero false). unfold SFeqb, SFcompare.
    rewrite Z.compare_refl, Pos.compare_cont_refl. reflexivity.
  - rewrite FloatAxioms.leb_spec. rewrite Ep. reflexivity.
Qed.

End Numbers.

(** ** The allocation calculator *)

Section Calculator.

Implicit Types (s : YieldStrategy) (p : Num.number) (b z : Z).

Lemma lendingPercentage_entry s p z :
  assetAllocation (strategy s) !! "lendingProtocol" = Some p ->
  Num.to_integer p = Some z -> 0 < z ->
  lendingPercentage s = p.
Proof.
  intros Hp Hz Hpos. unfold lendingPercentage, Num.or_zero.
  rewrite Hp. now rewrite (positive_truthy p z).
Qed.

Lemma amountToDeposit_integer s b p z :
  assetAllocation (strategy s) !! "lendingProtocol" = Some p ->
  Num.to_integer p = Some z -> 0 < z ->
  amountToDeposit s b = Ok (Z.quot (b * z) 100).
Proof.
  intros Hp Hz Hpos. unfold amountToDeposit.
  rewrite (lendingPercentage_entry s p z Hp Hz Hpos).
  now rewrite (positive_not_le_zero p z Hz Hpos), Hz.
Qed.

(** When an amount is computed, the percentage is a positive integer. *)
Lemma amountToDeposit_ok s b a :
  amountToDeposit s b = Ok a ->
  exists z,
    Num.to_integer (lendingPercentage s) = Some z /\ 0 < z
    /\ a = Z.quot (b * z) 100.
Proof.
  unfold amountToDeposit.
  destruct (lendingPercentage s <=? 0)%float eqn:Hle; [discriminate|].
  destruct (Num.to_integer (lendingPercentage s)) as [z|] eqn:Hz; [|discriminate].
  intros [= <-]. exists z. repeat split.
  destruct (Z_lt_le_dec 0 z) as [|Hz0]; [assumption|exfalso].
  rewrite FloatAxioms.leb_spec in Hle. rewrite Prim2SF_zero in Hle.
  unfold Num.to_integer in Hz.
  destruct (Prim2SF (lendingPercentage s)) as [sg|sg| |sg m e] eqn:E;
    try discriminate.
  destruct (Num.magnitude m e) as [g|] eqn:Hg; [|discriminate].
  apply magnitude_pos in Hg. destruct sg; [cbv in Hle; discriminate Hle|].
  simpl in Hz. injection Hz as <-. unfold id in Hz0. lia.
Qed.

Lemma amountToDeposit_unallocated s b :
  assetAllocation (strategy s) !! "lendingProtocol" = None
  \/ (exists p, assetAllocation (strategy s) !! "lendingProtocol" = Some p
                /\ (p <=? 0)%float = true) ->
  amountToDeposit s b = Err NoAllocationError.
Proof.
  intros H. unfold amountToDeposit, lendingPercentage, Num.or_zero.
  destruct H as [-> | (p & -> & Hp)]; [reflexivity|].
  destruct (Num.truthy p); [now rewrite Hp | reflexivity].
Qed.

(** A percentage strictly between two consecutive integers [n] and
    [n + 1], [n] not negative, makes [BigInt] raise, whatever the balance:
    no amount is computed.  Such are 12.5, between 12 and 13, and a share
    written as the fraction 0.7, between 0 and 1. *)
Lemma fractional_percentage_raises s b p lo hi n :
  assetAllocation (strategy s) !! "lendingProtocol" = Some p ->
  Num.to_integer lo = Some n -> Num.to_integer hi = Some (n + 1) -> 0 <= n ->
  (lo <? p)%float = true -> (p <? hi)%float = true ->
  amountToDeposit s b = Err RangeError.
Proof.
  intros Hp Hlo Hhi Hn H1 H2.
  destruct (between_integers lo p hi n Hlo Hhi Hn H1 H2) as (Hnone & Ht & Hle).
  unfold amountToDeposit, lendingPercentage, Num.or_zero.
  rewrite Hp, Ht, Hle, Hnone. reflexivity.
Qed.

Lemma fractional_percentage_raises_witness :
  amountToDeposit (demo_strategy "APY > 6%" {[ "lendingProtocol" := 12.5%float ]}) 1000
  = Err RangeError
  /\ amountToDeposit (demo_strategy "APY > 6%" {[ "lendingProtocol" := 0.7%float ]}) 1000
    = Err RangeError.
Proof.
  split.
  - apply (fractional_percentage_raises
             (demo_strategy "APY > 6%" {[ "lendingProtocol" := 12.5%float ]}) 1000
             12.5%float 12%float 13%float 12);
      [reflexivity | reflexivity | reflexivity | lia | reflexivity | reflexivity].
  - apply (fractional_percentage_raises
             (demo_strategy "APY > 6%" {[ "lendingProtocol" := 0.7%float ]}) 1000
             0.7%float 0%float 1%float 0);
      [reflexivity | reflexivity | reflexivity | lia | reflexivity | reflexivity].
Defined.

(** C3.  For a balance [b >= 0] and an allocation whose percentage is the
    positive integer [z], the amount is the floor of [b * z / 100]: the
    remainder is dropped.  Whenever an amount is computed for [b >= 0], the
    percentage is such an integer and the amount is that floor.  In
    particular 70 percent of 1000 is 700 and 70 percent of 999 is 699. *)
Theorem allocation_amount_is_floor :
  (forall s b p z,
      assetAllocation (strategy s) !! "lendingProtocol" = Some p ->
      Num.to_integer p = Some z -> 0 < z -> 0 <= b ->
      amountToDeposit s b = Ok (b * z / 100)
      /\ 100 * (b * z / 100) <= b * z < 100 * (b * z / 100) + 100)
  /\ (forall s b a,
      0 <= b -> amountToDeposit s b = Ok a ->
      exists z, Num.to_integer (lendingPercentage s) = Some z
                /\ 0 < z /\ a = b * z / 100)
  /\ amountToDeposit demo_lending70 1000 = Ok 700
  /\ amountToDeposit demo_lending70 999 = Ok 699.
Proof.
  split; [|split; [|split; vm_compute; reflexivity]].
  - intros s b p z Hp Hz Hpos Hb. split.
    + rewrite (amountToDeposit_integer s b p z Hp Hz Hpos).
      rewrite Z.quot_div_nonneg by lia. reflexivity.
    + pose proof (Z.div_mod (b * z) 100 ltac:(lia)).
      pose proof (Z.mod_pos_bound (b * z) 100 ltac:(lia)). lia.
  - intros s b a Hb Ha.
    destruct (amountToDeposit_ok s b a Ha) as (z & Hz & Hpos & ->).
    exists z. rewrite Z.quot_div_nonneg by lia. auto.
Qed.

Lemma allocation_amount_is_floor_witness :
  amountToDeposit (demo_strategy "APY > 6%" {[ "lendingProtocol" := 70%float ]}) 999
  = Ok (999 * 70 / 100)
  /\ 100 * (999 * 70 / 100) <= 999 * 70 < 100 * (999 * 70 / 100) + 100.
Proof.
  apply (proj1 allocation_amount_is_floor
               (demo_strategy "APY > 6%" {[ "lendingProtocol" := 70%float ]})
               999 70%float 70).
  - vm_compute. reflexivity.
  - vm_compute. reflexivity.
  - lia.
  - lia.
Defined.

(** C5.  With a balance [b >= 0] and a percentage that compares at most
    100, an amount that is computed lies between 0 and [b]; and for an
    integer percentage between 1 and 100 an amount is computed. *)
Theorem allocation_within_balance :
  (forall s b a,
      0 <= b -> (lendingPercentage s <=? 100)%float = true ->
      amountToDeposit s b = Ok a -> 0 <= a <= b)
  /\ (forall s b p z,
      assetAllocation (strategy s) !! "lendingProtocol" = Some p ->
      Num.to_integer p = Some z -> 0 < z <= 100 -> 0 <= b ->
      exists a, amountToDeposit s b = Ok a /\ 0 <= a <= b).
Proof.
  assert (Hbound : forall b z, 0 <= b -> 0 < z <= 100 ->
                               0 <= Z.quot (b * z) 100 <= b).
  { intros b z Hb Hz. rewrite Z.quot_div_nonneg by lia. split.
    - apply Z.div_pos; nia.
    - apply Z.div_le_upper_bound; nia. }
  split.
  - intros s b a Hb Hle Ha.
    destruct (amountToDeposit_ok s b a Ha) as (z & Hz & Hpos & ->).
    apply Hbound; [assumption|].
    split; [assumption | now apply (to_integer_le_hundred (lendingPercentage s))].
  - intros s b p z Hp Hz Hrange Hb. eexists. split.
    + apply (amountToDeposit_integer s b p z Hp Hz). lia.
    + now apply Hbound.
Qed.

Lemma allocation_within_balance_witness :
  let s := demo_strategy "APY > 6%" {[ "lendingProtocol" := 70%float ]} in
  amountToDeposit s 1000 = Ok 700 /\ 0 <= 700 <= 1000.
Proof.
  split; [vm_compute; reflexivity|].
  apply (proj1 allocation_within_balance
               (demo_strategy "APY > 6%" {[ "lendingProtocol" := 70%float ]})
               1000 700).
  - lia.
  - vm_compute. reflexivity.
  - vm_compute. reflexivity.
Defined.

End Calculator.

(** ** The allocation executor *)

Section Executor.

Variable W : World.

Implicit Types (s : YieldStrategy) (st : State) (b : Z).

Lemma add_events_nil st : add_events [] st = st.
Proof. destruct st. unfold add_events. simpl. now rewrite app_nil_r. Qed.

Lemma add_events_app evs1 evs2 st :
  add_events evs2 (add_events evs1 st) = add_events (evs1 ++ evs2) st.
Proof. unfold add_events. simpl. now rewrite app_assoc. Qed.

Lemma log_event_add ev st : log_event ev st = add_events [ev] st.
Proof. reflexivity. Qed.

Lemma getSigner_available st :
  signer_available W -> getSigner W st = (Ok tt, st).
Proof.
  intros [Hkey Hwallet]. unfold getSigner, lift_unit.
  now rewrite Hkey, Hwallet.
Qed.

Lemma getSigner_state st : exists r, getSigner W st = (r, st).
Proof.
  unfold getSigner, throw, lift_unit.
  destruct (is_empty _); eauto.
Qed.

Lemma getSigner_ok st st' :
  getSigner W st = (Ok tt, st') -> signer_available W /\ st' = st.
Proof.
  unfold getSigner, throw, lift_unit, signer_available.
  destruct (is_empty _); [discriminate|].
  destruct (newWallet W _); [discriminate|].
  intros [= <-]. auto.
Qed.

Lemma executeLendingAllocation_unallocated s vault pool b st :
  amountToDeposit s b = Err NoAllocationError ->
  exists e,
    executeLendingAllocation W s vault pool b st = (Err e, st)
    /\ (signer_available W -> e = NoAllocationError).
Proof.
  intros Ha. unfold executeLendingAllocation, bind.
  destruct (getSigner W st) as [[[]|e] st'] eqn:E.
  - apply getSigner_ok in E as [_ ->]. unfold lift. rewrite Ha.
    exists NoAllocationError. auto.
  - destruct (getSigner_state st) as [r Hr]. rewrite Hr in E.
    injection E as -> <-. exists e. split; [reflexivity|].
    intros Hs. rewrite (getSigner_available st Hs) in Hr. discriminate.
Qed.

(** C4, as the code has it.  When the lending percentage is unset, zero
    or negative the calculator fails with the no-allocation error for
    every balance; the executor fails without contacting any collaborator,
    and with the no-allocation error as soon as the signer could be built
    (the signer is built first).  This is so for the percentages 0 and
    -5. *)
Theorem no_allocation_fails :
  (forall s vault pool b st,
      assetAllocation (strategy s) !! "lendingProtocol" = None
      \/ (exists p, assetAllocation (strategy s) !! "lendingProtocol" = Some p
                    /\ (p <=? 0)%float = true) ->
      amountToDeposit s b = Err NoAllocationError
      /\ exists e,
          executeLendingAllocation W s vault pool b st = (Err e, st)
          /\ (signer_available W -> e = NoAllocationError))
  /\ (forall x,
      amountToDeposit (demo_strategy "APY > 6%" {[ "lendingProtocol" := 0%float ]}) x
      = Err NoAllocationError)
  /\ (forall x,
      amountToDeposit (demo_strategy "APY > 6%" {[ "lendingProtocol" := (-5)%float ]}) x
      = Err NoAllocationError).
Proof.
  split; [|split].
  - intros s vault pool b st H.
    pose proof (amountToDeposit_unallocated s b H) as Ha.
    split; [exact Ha | now apply executeLendingAllocation_unallocated].
  - intros x. apply amountToDeposit_unallocated. right.
    exists 0%float. split; vm_compute; reflexivity.
  - intros x. apply amountToDeposit_unallocated. right.
    exists (-5)%float. split; vm_compute; reflexivity.
Qed.

(** C10, as the code has it.  A strategy without an entry under the key
    [lendingProtocol] makes the executor fail without contacting any
    collaborator, with the no-allocation error as soon as the signer could
    be built, whatever its other entries; and two strategies with the same
    entry under that key are executed alike. *)
Theorem allocation_reads_lending_entry_only :
  (forall s vault pool b st,
      assetAllocation (strategy s) !! "lendingProtocol" = None ->
      exists e,
        executeLendingAllocation W s vault pool b st = (Err e, st)
        /\ (signer_available W -> e = NoAllocationError))
  /\ (forall s s' vault pool b st,
      assetAllocation (strategy s) !! "lendingProtocol"
      = assetAllocation (strategy s') !! "lendingProtocol" ->
      executeLendingAllocation W s vault pool b st
      = executeLendingAllocation W s' vault pool b st).
Proof.
  split.
  - intros s vault pool b st H.
    apply executeLendingAllocation_unallocated, amountToDeposit_unallocated. auto.
  - intros s s' vault pool b st H.
    unfold executeLendingAllocation, amountToDeposit, lendingPercentage.
    now rewrite H.
Qed.

(** C2.  A run of the executor that returns a receipt has submitted one
    batch to [execute] on the vault and nothing else: the token contract
    with an approval of the pool for the computed amount, then the pool
    with a deposit of that amount, both values zero; the receipt is the
    one of that transaction.  And the executor does return the receipt
    when the signer, the percentage, the token address, the encoder, the
    vault and the confirmation all answer. *)
Theorem lending_batch_shape :
  (forall s vault pool b st receipt st',
      executeLendingAllocation W s vault pool b st = (Ok receipt, st') ->
      exists amount tx,
        amountToDeposit s b = Ok amount
        /\ vault_execute W vault [tokenAddress (getNetworkConfig W); pool]
                         [approve pool amount; deposit amount] [0; 0] = Ok tx
        /\ tx_wait W tx = Ok receipt
        /\ st' = add_events (batch_events W vault pool amount tx) st
        /\ filter (fun ev => is_submission ev = true)
                  (batch_events W vault pool amount tx)
           = [ CallExecute vault [tokenAddress (getNetworkConfig W); pool]
                           [approve pool amount; deposit amount] [0; 0] ])
  /\ (forall s vault pool b st amount tx receipt,
      signer_available W ->
      amountToDeposit s b = Ok amount ->
      is_empty (tokenAddress (getNetworkConfig W)) = false ->
      encodeFunctionData W (approve pool amount) = None ->
      encodeFunctionData W (deposit amount) = None ->
      vault_execute W vault [tokenAddress (getNetworkConfig W); pool]
                    [approve pool amount; deposit amount] [0; 0] = Ok tx ->
      tx_wait W tx = Ok receipt ->
      executeLendingAllocation W s vault pool b st
      = (Ok receipt, add_events (batch_events W vault pool amount tx) st)).
Proof.
  split.
  - intros s vault pool b st receipt st'.
    unfold executeLendingAllocation, bind.
    destruct (getSigner W st) as [[[]|e] st1] eqn:E; [|discriminate].
    apply getSigner_ok in E as [_ ->]. unfold lift.
    destruct (amountToDeposit s b) as [amount|e]; [|discriminate].
    destruct (is_empty (tokenAddress (getNetworkConfig W))); [discriminate|].
    unfold encode, bind, ret, throw, call.
    destruct (encodeFunctionData W (approve pool amount)); [discriminate|].
    destruct (encodeFunctionData W (deposit amount)); [discriminate|].
    destruct (vault_execute W vault _ _ _) as [tx|e] eqn:Hx; [|discriminate].
    destruct (tx_wait W tx) as [r|e] eqn:Hw; [|discriminate].
    intros [= <- <-]. exists amount, tx.
    rewrite !log_event_add, add_events_app.
    repeat split; try assumption; reflexivity.
  - intros s vault pool b st amount tx receipt Hs Ha Ht He1 He2 Hx Hw.
    unfold executeLendingAllocation, bind.
    rewrite (getSigner_available st Hs). unfold lift. rewrite Ha, Ht.
    unfold encode, bind, ret, call. rewrite He1, He2, Hx, Hw.
    now rewrite !log_event_add, add_events_app.
Qed.

End Executor.

(** ** The orchestrator *)

Section Orchestrator.

Variable W : World.

Implicit Types (s : YieldStrategy) (st : State) (steps : list step).

Ltac no_events :=
  eexists; exists []; rewrite add_events_nil; split; [reflexivity | constructor].

Ltac some_events :=
  rewrite ?log_event_add, ?add_events_app;
  do 2 eexists; split; [reflexivity | repeat constructor].

Lemma executeLendingAllocation_events s vault pool b st :
  exists r evs,
    executeLendingAllocation W s vault pool b st = (r, add_events evs st)
    /\ no_anchor evs.
Proof.
  unfold executeLendingAllocation, bind.
  destruct (getSigner_state W st) as [[[]|e] ->]; [|no_events].
  unfold lift. destruct (amountToDeposit s b) as [amount|e]; [|no_events].
  destruct (is_empty _); [unfold throw; no_events|].
  unfold encode, bind, ret, throw, call.
  destruct (encodeFunctionData W (approve pool amount)); [no_events|].
  destruct (encodeFunctionData W (deposit amount)); [no_events|].
  destruct (vault_execute W vault _ _ _) as [tx|e]; [|some_events].
  destruct (tx_wait W tx) as [r|e]; some_events.
Qed.

Lemma executeFullStrategy_events s st :
  exists r evs,
    executeFullStrategy W s st = (r, add_events evs st) /\ no_anchor evs.
Proof.
  unfold executeFullStrategy, throw, ret.
  destruct (is_empty (strategyVaultAddress _)); [no_events|].
  destruct (is_empty (lendingPoolAddress _)); [no_events|].
  destruct (shouldInvestInLendingProtocol _ _); simpl; [|no_events].
  unfold bind, getVaultTotalAssets, call.
  destruct (totalAssets W _) as [b|e]; [|some_events].
  destruct (b <=? 0); [some_events|].
  destruct (executeLendingAllocation_events s
              (strategyVaultAddress (getNetworkConfig W))
              (lendingPoolAddress (getNetworkConfig W)) b
              (log_event (CallTotalAssets (strategyVaultAddress (getNetworkConfig W))) st))
    as (r & evs & -> & Hevs).
  rewrite log_event_add, add_events_app.
  destruct r; (do 2 eexists; split;
               [reflexivity | constructor; [reflexivity | exact Hevs]]).
Qed.

(** C6.  With the vault and the pool configured, a condition that does
    not hold, or a balance read as zero or less, ends the orchestration
    with no receipt and no error: nothing is submitted (the only call is
    the balance read, when the condition holds), and what the handler
    records for the step is "no action", not a failure. *)
Theorem gating_skip_is_clean :
  forall s steps st,
    configured W ->
    (shouldInvestInLendingProtocol s (currentAPY (getNetworkConfig W)) = false ->
     executeFullStrategy W s st = (Ok None, st)
     /\ allocation_phase W s steps st = (Ok (steps ++ [StepNoAction]), st))
    /\ (forall b,
        shouldInvestInLendingProtocol s (currentAPY (getNetworkConfig W)) = true ->
        totalAssets W (strategyVaultAddress (getNetworkConfig W)) = Ok b ->
        b <= 0 ->
        let st' :=
          add_events [CallTotalAssets (strategyVaultAddress (getNetworkConfig W))] st in
        executeFullStrategy W s st = (Ok None, st')
        /\ allocation_phase W s steps st = (Ok (steps ++ [StepNoAction]), st')).
Proof.
  intros s steps st [Hv Hp]. split.
  - intros Hc.
    assert (E : executeFullStrategy W s st = (Ok None, st)).
    { unfold executeFullStrategy. now rewrite Hv, Hp, Hc. }
    split; [exact E|]. unfold allocation_phase, try_catch, bind. now rewrite E.
  - intros b Hc Hb Hle st'.
    assert (E : executeFullStrategy W s st = (Ok None, st')).
    { unfold executeFullStrategy. rewrite Hv, Hp, Hc. simpl.
      unfold bind, getVaultTotalAssets, call. rewrite Hb.
      apply Z.leb_le in Hle. now rewrite Hle. }
    split; [exact E|]. unfold allocation_phase, try_catch, bind. now rewrite E.
Qed.

Lemma no_anchor_app evs1 evs2 :
  no_anchor evs1 -> no_anchor evs2 -> no_anchor (evs1 ++ evs2).
Proof. intros H1 H2. apply Forall_app. split; assumption. Qed.


Lemma allocation_phase_events s steps st :
  exists x evs,
    allocation_phase W s steps st = (Ok (steps ++ [x]), add_events evs st)
    /\ no_anchor evs /\ is_anchor_step x = false
    /\ (forall e, fst (executeFullStrategy W s st) = Err e ->
                  x = StepExecutionFailed (error_message e)).
Proof.
  unfold allocation_phase, try_catch, bind.
  destruct (executeFullStrategy_events s st) as (r & evs & -> & Hevs).
  destruct r as [[r|]|e]; unfold ret; simpl;
    (do 2 eexists; split; [reflexivity|]; split; [exact Hevs|];
     split; [reflexivity|]; intros e' [= ->]; reflexivity).
Qed.

Lemma uploadToIPFS_cases s st :
  (exists r, uploadToIPFS W s st = (Ok r, add_events [CallPinJSON s] st))
  \/ (exists e evs,
        uploadToIPFS W s st = (Err e, add_events evs st) /\ no_anchor evs).
Proof.
  unfold uploadToIPFS.
  assert (Hnone : forall e, exists e' evs,
             @throw IpfsResult e st = (Err e', add_events evs st) /\ no_anchor evs).
  { intros e. exists e, []. rewrite add_events_nil. split; [reflexivity | constructor]. }
  destruct (env_PINATA_JWT _) as [jwt|]; [|right; apply Hnone].
  destruct (is_empty jwt); [right; apply Hnone|].
  unfold bind, call, lift, throw, ret.
  destruct (pin_fetch W s) as [response|e].
  - destruct (ok response); simpl; destruct (json response) as [body|e];
      rewrite log_event_add;
      first [ left; eexists; reflexivity
            | right; do 2 eexists; split; [reflexivity | repeat constructor] ].
  - rewrite log_event_add. right. do 2 eexists.
    split; [reflexivity | repeat constructor].
Qed.

Lemma setStrategyReference_events i ref st :
  exists r evs,
    setStrategyReference W i ref st = (r, add_events evs st)
    /\ only_anchor
         (CallSetStrategyReference (strategyVaultAddress (getNetworkConfig W)) i ref)
         evs.
Proof.
  unfold setStrategyReference, bind.
  destruct (getSigner_state W st) as [[[]|e] ->]; [|no_events].
  destruct (is_empty _); [unfold throw; no_events|].
  unfold call, ret.
  destruct (vault_setStrategyReference W _ i ref) as [tx|e].
  - destruct (tx_wait W tx) as [r|e];
      rewrite !log_event_add, add_events_app;
      (do 2 eexists; split; [reflexivity|]);
      repeat constructor; discriminate.
  - rewrite log_event_add. do 2 eexists. split; [reflexivity|].
    repeat constructor.
Qed.

(** The publication phase never throws.  Either the upload failed, and
    then nothing is anchored and no step is added; or it succeeded, the
    document is in the result, and the only possible anchoring call is
    the one for this document, made when its identifier is not empty. *)
Lemma publication_phase_cases s steps st :
  (exists e evs,
      uploadToIPFS W s st = (Err e, add_events evs st)
      /\ publication_phase W s steps st = (Ok (steps, None), add_events evs st)
      /\ no_anchor evs)
  \/ (exists r tail evs,
        uploadToIPFS W s st = (Ok r, add_events [CallPinJSON s] st)
        /\ publication_phase W s steps st
           = (Ok (steps ++ tail, Some r), add_events (CallPinJSON s :: evs) st)
        /\ only_anchor (anchor_of W r) evs
        /\ (is_empty (cid r) = true -> no_anchor evs)).
Proof.
  unfold publication_phase, try_catch, bind.
  destruct (uploadToIPFS_cases s st) as [[r E] | (e & evs & E & Hevs)]; rewrite E.
  - right. exists r. destruct (is_empty (cid r)) eqn:Hcid; simpl.
    + exists [], []. rewrite app_nil_r. unfold ret.
      split; [reflexivity|]; split; [reflexivity|]; split; [constructor|].
      intros _. constructor.
    + destruct (setStrategyReference_events 1 (gatewayUrl r)
                  (add_events [CallPinJSON s] st)) as (res & evs & -> & Hevs).
      rewrite add_events_app. simpl.
      destruct res as [receipt|e]; unfold ret;
        (eexists; exists evs;
         split; [reflexivity|]; split; [reflexivity|];
         split; [exact Hevs | discriminate]).
  - left. exists e, evs. unfold ret. repeat split. exact Hevs.
Qed.

Lemma initial_steps_no_anchor s x :
  is_anchor_step x = false ->
  Forall (fun y => is_anchor_step y = false) (initial_steps W s ++ [x]).
Proof. intros Hx. unfold initial_steps. simpl. repeat constructor. exact Hx. Qed.

Lemma send_run c st :
  send W c st
  = (match callback W c with None => Ok (Reply c) | Some e => Err e end,
     add_events [CallCallback c] st).
Proof.
  unfold send, bind, call_unit, ret. rewrite log_event_add.
  destruct (callback W c); reflexivity.
Qed.

Lemma no_anchor_In evs a : no_anchor evs -> In a evs -> is_anchor a = true -> False.
Proof.
  intros H Ha Hanchor. unfold no_anchor in H. rewrite List.Forall_forall in H.
  apply H in Ha. congruence.
Qed.

Ltac prove_no_anchor :=
  unfold no_anchor in *;
  repeat first [ assumption
               | exact I
               | apply Forall_nil
               | apply Forall_cons; split; [reflexivity|]
               | apply Forall_app; split ].

Ltac split_in H :=
  rewrite ?in_app_iff in H; simpl in H;
  repeat match goal with
         | H' : _ \/ _ |- _ => destruct H'
         | H' : False |- _ => destruct H'
         end.

(** What the handler does once the strategy is loaded. *)
Lemma run_strategy_cases m s st :
  exists res evs,
    run_strategy W m s st = (res, add_events evs st)
    /\ (forall e, publication_fails W s e ->
          no_anchor evs /\ forall c, res = Ok (Reply c) -> no_anchor_record c)
    /\ (forall a, In a evs -> is_anchor a = true ->
          exists r, (exists st0, fst (uploadToIPFS W s st0) = Ok r)
                    /\ is_empty (cid r) = false /\ a = anchor_of W r
                    /\ In (CallPinJSON s) evs)
    /\ (forall e r i,
          allocation_fails W s e -> publication_succeeds W s r ->
          createMemory W "strategyExecutions" s (Some r) = Ok i ->
          (forall c, callback W c = None) ->
          exists c steps,
            res = Ok (Reply c)
            /\ text c = TextExecuted steps (Some r) /\ ipfsData c = Some r
            /\ In (StepExecutionFailed (error_message e)) steps
            /\ In (CallPinJSON s) evs).
Proof.
  unfold run_strategy, bind.
  destruct (allocation_phase_events s (initial_steps W s) st)
    as (x & evs1 & -> & Hevs1 & Hx & Hfail).
  pose proof (initial_steps_no_anchor s x Hx) as Hsteps.
  set (steps0 := initial_steps W s ++ [x]) in *.
  destruct (publication_phase_cases s steps0 (add_events evs1 st))
    as [(e0 & evs2 & Eup & -> & Hevs2) | (r0 & tail & evs2 & Eup & -> & Honly & Hempty)];
    unfold call; cbn [fst snd].
  - (* the upload failed *)
    assert (Hnot : forall r, ~ publication_succeeds W s r).
    { intros r Hr. specialize (Hr (add_events evs1 st)).
      rewrite Eup in Hr. discriminate. }
    destruct (createMemory W "strategyExecutions" s None) as [i0|e1];
      rewrite ?send_run, ?log_event_add, ?add_events_app;
      (do 2 eexists; split; [reflexivity|]); (split; [|split]).
    + intros e _. split; [prove_no_anchor|].
      intros c Hc. destruct (callback W _); [discriminate|].
      injection Hc as <-. repeat split. exact Hsteps.
    + intros a Ha Hanchor. exfalso.
      eapply no_anchor_In; [| exact Ha | exact Hanchor]. prove_no_anchor.
    + intros e r i _ Hsucc. destruct (Hnot r Hsucc).
    + intros e _. split; [prove_no_anchor | discriminate].
    + intros a Ha Hanchor. exfalso.
      eapply no_anchor_In; [| exact Ha | exact Hanchor]. prove_no_anchor.
    + intros e r i _ Hsucc. destruct (Hnot r Hsucc).
  - (* the upload succeeded *)
    assert (Hnot : forall e, ~ publication_fails W s e).
    { intros e He. specialize (He (add_events evs1 st)).
      rewrite Eup in He. discriminate. }
    assert (Hr0 : forall r, publication_succeeds W s r -> r = r0).
    { intros r Hr. specialize (Hr (add_events evs1 st)).
      rewrite Eup in Hr. now injection Hr. }
    assert (Hanchors : forall a,
               In a evs2 -> is_anchor a = true ->
               exists r, (exists st0, fst (uploadToIPFS W s st0) = Ok r)
                         /\ is_empty (cid r) = false /\ a = anchor_of W r).
    { intros a Ha Hanchor.
      exists r0. split; [exists (add_events evs1 st); now rewrite Eup|].
      split.
      - destruct (is_empty (cid r0)); [|reflexivity].
        destruct (no_anchor_In _ _ (Hempty eq_refl) Ha Hanchor).
      - unfold only_anchor in Honly. rewrite List.Forall_forall in Honly.
        now apply Honly. }
    destruct (createMemory W "strategyExecutions" s (Some r0)) as [i0|e1] eqn:Hcreate;
      rewrite ?send_run, ?log_event_add, ?add_events_app;
      (do 2 eexists; split; [reflexivity|]); (split; [|split]).
    + intros e He. destruct (Hnot e He).
    + intros a Ha Hanchor.
      assert (Hpin : In (CallPinJSON s)
                        (evs1 ++ (CallPinJSON s :: evs2)
                         ++ [CallCreateMemory "strategyExecutions" s]
                         ++ [CallCallback
                               (reply m (TextExecuted (steps0 ++ tail) (Some r0))
                                      "EXECUTE_YIELD_STRATEGY" (Some s) (Some r0) None)]))
        by (rewrite !in_app_iff; simpl; auto).
      split_in Ha; subst; try discriminate Hanchor.
      * destruct (no_anchor_In _ _ Hevs1 H Hanchor).
      * destruct (Hanchors a H Hanchor) as (r & H1 & H2 & H3).
        exists r. repeat split; assumption.
    + intros e r i Hfails Hsucc Hi Hcb. apply Hr0 in Hsucc as ->.
      rewrite Hcb. do 2 eexists. split; [reflexivity|].
      repeat split; [|rewrite !in_app_iff; simpl; auto].
      apply in_or_app. left. apply in_or_app. right.
      left. apply Hfail, Hfails.
    + intros e He. destruct (Hnot e He).
    + intros a Ha Hanchor.
      assert (Hpin : In (CallPinJSON s)
                        (evs1 ++ (CallPinJSON s :: evs2)
                         ++ [CallCreateMemory "strategyExecutions" s]))
        by (rewrite !in_app_iff; simpl; auto).
      split_in Ha; subst; try discriminate Hanchor.
      * destruct (no_anchor_In _ _ Hevs1 H Hanchor).
      * destruct (Hanchors a H Hanchor) as (r & H1 & H2 & H3).
        exists r. repeat split; assumption.
    + intros e r i Hfails Hsucc Hi Hcb. apply Hr0 in Hsucc as ->. congruence.
Qed.

Ltac quiet_branch :=
  intros [= <- <-];
  repeat match goal with x := _ : State |- _ => subst x end;
  eexists;
  (split; [cbn [trace add_events log_event mark_processed];
           rewrite <- ?app_assoc; reflexivity|]);
  (split;
   [ intros; exfalso; congruence
   | let a := fresh "a" in let Ha := fresh "Ha" in let Hb := fresh "Hb" in
     intros a Ha Hb; exfalso;
     eapply no_anchor_In; [| exact Ha | exact Hb]; prove_no_anchor ]).

(** C8.  In every run of the handler: when the publication of the loaded
    strategy fails, no anchoring call is made and the reply carries no
    published document and no anchoring step; and an anchoring call is
    only ever made after a publication that succeeded with an identifier
    that is not empty, for the retrieval address of that document. *)
Theorem anchor_needs_publication :
  forall l st res st',
    execute_handler W l st = (res, st') ->
    exists evs,
      trace st' = trace st ++ evs
      /\ (forall m mem mems s e,
            messages st !! l = Some m ->
            getMemories W (msg_roomId m) = Ok (mem :: mems) ->
            load_strategy W mem = Ok s ->
            publication_fails W s e ->
            no_anchor evs /\ forall c, res = Ok (Reply c) -> no_anchor_record c)
      /\ (forall a,
            In a evs -> is_anchor a = true ->
            exists s r,
              In (CallPinJSON s) evs
              /\ (exists st0, fst (uploadToIPFS W s st0) = Ok r)
              /\ is_empty (cid r) = false
              /\ a = anchor_of W r).
Proof.
  intros l st res st'. unfold execute_handler, bind, get_message.
  destruct (messages st !! l) as [m|] eqn:Hm.
  2:{ intros [= <- <-]. exists []. rewrite app_nil_r.
      split; [reflexivity|]. split; [discriminate | intros a []]. }
  unfold try_catch.
  case_bool_decide as Hproc.
  { unfold ret. intros [= <- <-]. exists []. rewrite app_nil_r.
    split; [reflexivity|]. split; [|intros a []].
    intros; split; [constructor | discriminate]. }
  unfold bind, set_processed, call.
  set (st1 := log_event _ (mark_processed l _ st)).
  destruct (getMemories W (msg_roomId m)) as [[|mem mems]|e0] eqn:Hmem.
  - (* no stored strategy *)
    rewrite send_run. destruct (callback W _); [rewrite send_run|];
      try destruct (callback W _); quiet_branch.
  - destruct (load_strategy W mem) as [s|e1] eqn:Hload.
    + (* the strategy is loaded *)
      destruct (run_strategy_cases m s st1) as (r0 & evs0 & -> & Hfail & Hanchor & _).
      assert (Hmain : forall c, r0 = Ok (Reply c) \/ no_anchor_record c ->
                forall m' mem' mems' s' e,
                  Some m = Some m' ->
                  getMemories W (msg_roomId m') = Ok (mem' :: mems') ->
                  load_strategy W mem' = Ok s' ->
                  publication_fails W s' e -> no_anchor_record c).
      { intros c [Hc|Hc] m' mem' mems' s' e Hm' Hmem' Hload' Hpub; [|exact Hc].
        injection Hm' as <-. rewrite Hmem in Hmem'. injection Hmem' as <- <-.
        rewrite Hload in Hload'. injection Hload' as <-.
        now apply (Hfail e Hpub). }
      assert (Hquiet : forall m' mem' mems' s' e,
                  Some m = Some m' ->
                  getMemories W (msg_roomId m') = Ok (mem' :: mems') ->
                  load_strategy W mem' = Ok s' ->
                  publication_fails W s' e -> no_anchor evs0).
      { intros m' mem' mems' s' e Hm' Hmem' Hload' Hpub.
        injection Hm' as <-. rewrite Hmem in Hmem'. injection Hmem' as <- <-.
        rewrite Hload in Hload'. injection Hload' as <-.
        now apply (Hfail e Hpub). }
      assert (Hwhere : forall a rest,
                 In a ([CallGetMemories (msg_roomId m)] ++ evs0 ++ rest) ->
                 no_anchor rest -> is_anchor a = true ->
                 exists s' r,
                   In (CallPinJSON s') ([CallGetMemories (msg_roomId m)] ++ evs0 ++ rest)
                   /\ (exists st0, fst (uploadToIPFS W s' st0) = Ok r)
                   /\ is_empty (cid r) = false /\ a = anchor_of W r).
      { intros a rest Ha Hrest Hb. split_in Ha; subst; try discriminate Hb.
        - destruct (Hanchor a H Hb) as (r & H1 & H2 & H3 & H4).
          exists s, r. repeat split; try assumption.
          rewrite !in_app_iff. right. left. exact H4.
        - destruct (no_anchor_In _ _ Hrest H Hb). }
      destruct r0 as [v|e2].
      * intros [= <- <-]. exists ([CallGetMemories (msg_roomId m)] ++ evs0 ++ []).
        split; [unfold st1; cbn [trace add_events log_event mark_processed];
                rewrite app_nil_r, <- ?app_assoc; reflexivity|].
        split.
        -- intros m' mem' mems' s' e Hm' Hmem' Hload' Hpub. split.
           ++ rewrite app_nil_r. apply Forall_cons. split; [reflexivity|].
              eapply Hquiet; eauto.
           ++ intros c [= ->]. eapply Hmain; eauto.
        -- intros a Ha Hb. apply (Hwhere a [] Ha); [constructor | exact Hb].
      * rewrite send_run, add_events_app.
        set (failure := reply m (TextFailure (error_message e2)) _ None None None).
        intros [= <- <-].
        exists ([CallGetMemories (msg_roomId m)] ++ evs0 ++ [CallCallback failure]).
        split; [unfold st1; cbn [trace add_events log_event mark_processed];
                rewrite <- ?app_assoc; reflexivity|].
        split.
        -- intros m' mem' mems' s' e Hm' Hmem' Hload' Hpub. split.
           ++ apply Forall_cons. split; [reflexivity|].
              apply no_anchor_app; [eapply Hquiet; eauto | repeat constructor].
           ++ intros c Hc. destruct (callback W failure); [discriminate|].
              injection Hc as <-. repeat split.
        -- intros a Ha Hb. apply (Hwhere a _ Ha); [repeat constructor | exact Hb].
    + (* the stored strategy does not parse *)
      rewrite send_run. destruct (callback W _); [rewrite send_run|];
        try destruct (callback W _); quiet_branch.
  - (* the store cannot be read *)
    rewrite send_run. destruct (callback W _); quiet_branch.
Qed.

(** The handler on a message it has not seen, with a stored strategy
    that parses. *)
Lemma execute_handler_loaded l st m mem mems s :
  messages st !! l = Some m ->
  content_processed m <> Some "EXECUTE_YIELD_STRATEGY" ->
  getMemories W (msg_roomId m) = Ok (mem :: mems) ->
  load_strategy W mem = Ok s ->
  execute_handler W l st
  = try_catch (run_strategy W m s)
      (fun e => send W (reply m (TextFailure (error_message e))
                              "PARSE_YIELD_STRATEGY" None None None))
      (add_events [CallGetMemories (msg_roomId m)]
                  (mark_processed l "EXECUTE_YIELD_STRATEGY" st)).
Proof.
  intros Hm Hproc Hmem Hload. unfold execute_handler, bind, get_message.
  rewrite Hm. unfold try_catch. rewrite bool_decide_eq_false_2 by exact Hproc.
  unfold bind, set_processed, call. rewrite Hmem, Hload. reflexivity.
Qed.


(** *** Repeated invocations *)

(** The state the handler leaves: the one it found when the message was
    already marked, and otherwise the marked state with more calls. *)
Lemma execute_handler_state l st res st' m :
  messages st !! l = Some m ->
  execute_handler W l st = (res, st') ->
  (content_processed m = Some "EXECUTE_YIELD_STRATEGY" /\ st' = st
   /\ res = Ok Undefined)
  \/ (content_processed m <> Some "EXECUTE_YIELD_STRATEGY"
      /\ exists evs,
          st' = add_events (CallGetMemories (msg_roomId m) :: evs)
                           (mark_processed l "EXECUTE_YIELD_STRATEGY" st)).
Proof.
  intros Hm. unfold execute_handler, bind, get_message. rewrite Hm.
  unfold try_catch. case_bool_decide as Hproc.
  { unfold ret. intros [= <- <-]. left. auto. }
  intros E. right. split; [exact Hproc|]. revert E.
  unfold bind, set_processed, call. rewrite log_event_add.
  set (st1 := add_events _ (mark_processed l _ st)).
  assert (Hout : forall r evs c,
             (match r with
              | Ok a => (Ok a, add_events evs st1)
              | Err e => send W (c e) (add_events evs st1)
              end) = (res, st') ->
             exists evs', st' = add_events (CallGetMemories (msg_roomId m) :: evs')
                                (mark_processed l "EXECUTE_YIELD_STRATEGY" st)).
  { intros r evs c. destruct r as [a|e]; [|rewrite send_run];
      intros [= <- <-]; unfold st1; rewrite !add_events_app; eexists; reflexivity. }
  destruct (getMemories W (msg_roomId m)) as [[|mem mems]|e0].
  - rewrite send_run. apply (Hout (match callback W _ with
                                    | None => Ok _ | Some e => Err e end)
                                   [CallCallback _] (fun e => _)).
  - destruct (load_strategy W mem) as [s|e1].
    + destruct (run_strategy_cases m s st1) as (r0 & evs0 & -> & _).
      apply (Hout r0 evs0 (fun e => _)).
    + rewrite send_run. apply (Hout (match callback W _ with
                                      | None => Ok _ | Some e => Err e end)
                                     [CallCallback _] (fun e => _)).
  - rewrite <- (add_events_nil st1) at 1.
    apply (Hout (Err e0) [] (fun e => _)).
Qed.

(** The flag on the message object: a second invocation on the same
    object returns at once and calls no collaborator. *)
Lemma execute_handler_same_object l st res st' m :
  messages st !! l = Some m ->
  execute_handler W l st = (res, st') ->
  execute_handler W l st' = (Ok Undefined, st').
Proof.
  intros Hm E.
  destruct (execute_handler_state l st res st' m Hm E)
    as [(Hp & -> & _) | (_ & evs & ->)];
    unfold execute_handler, bind, get_message.
  - rewrite Hm. unfold try_catch. now rewrite bool_decide_eq_true_2.
  - cbn [messages add_events mark_processed]. rewrite lookup_alter_eq, Hm.
    cbn [fmap option_fmap option_map]. unfold try_catch.
    now rewrite bool_decide_eq_true_2.
Qed.

(** The identifier plays no part: a second message object that is not
    marked is handled in full, starting with the read of the stored
    strategies, whatever identifier it carries. *)
Lemma execute_handler_other_object l1 l2 st res1 st1 res2 st2 m1 m2 :
  l1 <> l2 ->
  messages st !! l1 = Some m1 -> messages st !! l2 = Some m2 ->
  content_processed m2 <> Some "EXECUTE_YIELD_STRATEGY" ->
  execute_handler W l1 st = (res1, st1) ->
  execute_handler W l2 st1 = (res2, st2) ->
  exists evs, trace st2 = trace st1 ++ CallGetMemories (msg_roomId m2) :: evs.
Proof.
  intros Hl Hm1 Hm2 Hproc E1 E2.
  assert (Hm2' : messages st1 !! l2 = Some m2).
  { destruct (execute_handler_state l1 st res1 st1 m1 Hm1 E1)
      as [(_ & -> & _) | (_ & evs & ->)]; [exact Hm2|].
    cbn [messages add_events mark_processed]. now rewrite lookup_alter_ne. }
  destruct (execute_handler_state l2 st1 res2 st2 m2 Hm2' E2)
    as [(Hp & _) | (_ & evs & ->)]; [contradiction|].
  exists evs. reflexivity.
Qed.

(** The sibling handler keeps the registry keyed by the identifier of the
    message: once an invocation has passed its guards, the identifier is
    in the registry. *)
Lemma parse_handler_marks l st res st' m k :
  messages st !! l = Some m ->
  msg_id m = Some k -> is_empty k = false ->
  content_processed m <> Some "PARSE_YIELD_STRATEGY" ->
  default false (default ∅ (processedMessageIds st) !! k) = false ->
  parse_handler W l st = (res, st') ->
  processedMessageIds st'
  = Some (<[k := true]> (default ∅ (processedMessageIds st)))
  /\ messages st'
     = messages (mark_processed l "PARSE_YIELD_STRATEGY" st).
Proof.
  intros Hm Hk Hne Hproc Hreg.
  unfold parse_handler, bind, get_message. rewrite Hm.
  unfold try_catch, bind, init_registry.
  rewrite bool_decide_eq_false_2 by exact Hproc.
  unfold registry_has, registry_mark, set_processed, truthy_id.
  rewrite Hk, Hne. cbn [processedMessageIds default from_option id]. rewrite Hreg.
  unfold call, lift, sent_test_and_mark, send, bind, call_unit, ret.
  repeat match goal with
         | |- context [useModel W ?a] => destruct (useModel W a)
         | |- context [extract_strategy W ?a] => destruct (extract_strategy W a)
         | |- context [createMemory W ?a ?b ?c] => destruct (createMemory W a b c)
         | |- context [default false ?x] => destruct (default false x)
         | |- context [callback W ?c] => destruct (callback W c)
         end;
    intros [= <- <-]; split; reflexivity.
Qed.

(** A message whose identifier is in the registry is skipped: nothing is
    called. *)
Lemma parse_handler_skips l st m k reg :
  messages st !! l = Some m ->
  msg_id m = Some k -> is_empty k = false ->
  processedMessageIds st = Some reg -> reg !! k = Some true ->
  exists st', parse_handler W l st = (Ok Undefined, st') /\ trace st' = trace st.
Proof.
  intros Hm Hk Hne Hst Hreg.
  unfold parse_handler, bind, get_message. rewrite Hm.
  unfold try_catch, bind, init_registry.
  case_bool_decide.
  - eexists. split; reflexivity.
  - unfold registry_has, truthy_id. rewrite Hk, Hne.
    cbn [processedMessageIds default from_option id]. rewrite Hst.
    cbn [default from_option id]. rewrite Hreg. eexists. split; reflexivity.
Qed.

(** Two message objects with the same identifier: after the first has
    been handled by [parseStrategyAction], the second is skipped. *)
Lemma parse_handler_same_identifier l1 l2 st res st1 m1 m2 k :
  messages st !! l1 = Some m1 -> messages st !! l2 = Some m2 ->
  msg_id m1 = Some k -> msg_id m2 = Some k -> is_empty k = false ->
  content_processed m1 <> Some "PARSE_YIELD_STRATEGY" ->
  default false (default ∅ (processedMessageIds st) !! k) = false ->
  parse_handler W l1 st = (res, st1) ->
  exists st2, parse_handler W l2 st1 = (Ok Undefined, st2) /\ trace st2 = trace st1.
Proof.
  intros Hm1 Hm2 Hk1 Hk2 Hne Hproc Hreg E.
  destruct (parse_handler_marks l1 st res st1 m1 k Hm1 Hk1 Hne Hproc Hreg E)
    as [Hr Hmsgs].
  assert (Hm2' : exists m2', messages st1 !! l2 = Some m2' /\ msg_id m2' = Some k).
  { rewrite Hmsgs. cbn [messages mark_processed].
    destruct (decide (l1 = l2)) as [->|Hl].
    - rewrite lookup_alter_eq, Hm2. eexists. split; [reflexivity | exact Hk2].
    - rewrite lookup_alter_ne by exact Hl. eauto. }
  destruct Hm2' as (m2' & Hm2' & Hk2').
  eapply parse_handler_skips; eauto. apply lookup_insert_eq.
Qed.

End Orchestrator.

(** ** Scenarios *)

Section Scenarios.

#[local] Set Warnings "-inexact-float".

(** The end-to-end scenario: 70 percent of 1000000 at rate 7.2. *)
Lemma lending_batch_shape_witness :
  let W := demo_healthy 7.2%float 1000000 demo_lending70 in
  exists amount tx,
    amountToDeposit demo_lending70 1000000 = Ok amount
    /\ amount = 700000
    /\ snd (executeLendingAllocation W demo_lending70
              (strategyVaultAddress (getNetworkConfig W))
              (lendingPoolAddress (getNetworkConfig W)) 1000000 demo_inbox)
       = add_events
           (batch_events W (strategyVaultAddress (getNetworkConfig W))
                         (lendingPoolAddress (getNetworkConfig W)) amount tx)
           demo_inbox.
Proof.
  intros W.
  destruct (proj1 (lending_batch_shape W) demo_lending70
              (strategyVaultAddress (getNetworkConfig W))
              (lendingPoolAddress (getNetworkConfig W)) 1000000 demo_inbox
              {| hash := "0xa1"; blockNumber := 42 |}
              (snd (executeLendingAllocation W demo_lending70
                      (strategyVaultAddress (getNetworkConfig W))
                      (lendingPoolAddress (getNetworkConfig W)) 1000000 demo_inbox)))
    as (amount & tx & Ha & _ & _ & Hst & _).
  - vm_compute. reflexivity.
  - exists amount, tx. split; [exact Ha|]. split; [|exact Hst].
    assert (E : amountToDeposit demo_lending70 1000000 = Ok 700000)
      by (vm_compute; reflexivity).
    rewrite E in Ha. now injection Ha.
Defined.

Lemma no_allocation_fails_witness :
  let W := demo_healthy 7.2%float 1000000 demo_lending70 in
  let s := demo_strategy "APY > 6%" {[ "lendingProtocol" := (-5)%float ]} in
  amountToDeposit s 1000000 = Err NoAllocationError
  /\ exists e,
      executeLendingAllocation W s "0xa1" "0xb2" 1000000 demo_inbox = (Err e, demo_inbox)
      /\ (signer_available W -> e = NoAllocationError).
Proof.
  intros W s.
  apply (proj1 (no_allocation_fails W) s "0xa1" "0xb2" 1000000 demo_inbox).
  right. exists (-5)%float. split; vm_compute; reflexivity.
Defined.

Lemma allocation_reads_lending_entry_only_witness :
  let W := demo_healthy 7.2%float 1000000 demo_stable_eth in
  exists e,
    executeLendingAllocation W demo_stable_eth "0xa1" "0xb2" 1000000 demo_inbox
    = (Err e, demo_inbox)
    /\ (signer_available W -> e = NoAllocationError).
Proof.
  intros W.
  apply (proj1 (allocation_reads_lending_entry_only W) demo_stable_eth
               "0xa1" "0xb2" 1000000 demo_inbox).
  vm_compute. reflexivity.
Defined.

(** The condition [APY > 6%] against the rate 5.0: a skip; and against
    7.2 with an empty vault: a skip after the balance read. *)
Lemma gating_skip_is_clean_witness :
  executeFullStrategy (demo_healthy 5.0%float 1000000 demo_lending70) demo_lending70 demo_inbox
  = (Ok None, demo_inbox)
  /\ executeFullStrategy (demo_healthy 7.2%float 0 demo_lending70) demo_lending70 demo_inbox
     = (Ok None,
        add_events [CallTotalAssets "0x00000000000000000000000000000000000000a1"] demo_inbox).
Proof.
  split.
  - apply (proj1 (gating_skip_is_clean (demo_healthy 5.0%float 1000000 demo_lending70)
                    demo_lending70 [] demo_inbox
                    (conj eq_refl eq_refl))).
    vm_compute. reflexivity.
  - apply (proj2 (gating_skip_is_clean (demo_healthy 7.2%float 0 demo_lending70)
                    demo_lending70 [] demo_inbox
                    (conj eq_refl eq_refl)) 0).
    + vm_compute. reflexivity.
    + reflexivity.
    + lia.
Defined.


(** The pinning service cannot be reached: nothing is anchored. *)
Lemma anchor_needs_publication_witness :
  let W := demo_world 7.2%float (Ok 1000000) (Ok demo_sent)
                      (Err (Rejected "fetch failed")) demo_lending70 (Ok "e1") in
  exists evs,
    trace (snd (execute_handler W 0 demo_inbox)) = trace demo_inbox ++ evs
    /\ no_anchor evs
    /\ forall c, fst (execute_handler W 0 demo_inbox) = Ok (Reply c) ->
                 no_anchor_record c.
Proof.
  intros W.
  destruct (anchor_needs_publication W 0 demo_inbox
              (fst (execute_handler W 0 demo_inbox))
              (snd (execute_handler W 0 demo_inbox))
              (surjective_pairing _))
    as (evs & Ht & Hfail & _).
  exists evs. split; [exact Ht|].
  apply (Hfail (demo_message "msg-1")
               {| mem_id := "m1"; mem_text := Some "{...}"; mem_strategy := None |} []
               demo_lending70 (Rejected "fetch failed")).
  - vm_compute. reflexivity.
  - reflexivity.
  - reflexivity.
  - intros st. vm_compute. reflexivity.
Defined.

(** C4 as stated fails when no private key is configured: the signer is
    built before the percentage is read, and its error is the one raised. *)
Lemma zero_percentage_without_wallet_key :
  let W := without_wallet_key (demo_healthy 7.2%float 1000000 demo_lending70) in
  let s := demo_strategy "APY > 6%" {[ "lendingProtocol" := 0%float ]} in
  assetAllocation (strategy s) !! "lendingProtocol" = Some 0%float
  /\ executeLendingAllocation W s "0xa1" "0xb2" 1000000 demo_inbox
     = (Err (Error "Wallet private key is not configured"), demo_inbox)
  /\ Error "Wallet private key is not configured" <> NoAllocationError.
Proof. split; [|split]; [vm_compute; reflexivity.. | discriminate]. Qed.

(** C10 as stated fails in the same way for a strategy that allocates only
    to [stablecoin] and [eth]. *)
Lemma missing_entry_without_wallet_key :
  let W := without_wallet_key (demo_healthy 7.2%float 1000000 demo_stable_eth) in
  assetAllocation (strategy demo_stable_eth) !! "lendingProtocol" = None
  /\ executeLendingAllocation W demo_stable_eth "0xa1" "0xb2" 1000000 demo_inbox
     = (Err (Error "Wallet private key is not configured"), demo_inbox)
  /\ Error "Wallet private key is not configured" <> NoAllocationError.
Proof. split; [|split]; [vm_compute; reflexivity.. | discriminate]. Qed.


Lemma execute_handler_same_object_witness :
  let W := demo_healthy 7.2%float 1000000 demo_lending70 in
  let st1 := snd (execute_handler W 0 demo_inbox) in
  execute_handler W 0 st1 = (Ok Undefined, st1).
Proof.
  intros W st1.
  apply (execute_handler_same_object W 0 demo_inbox
           (fst (execute_handler W 0 demo_inbox)) st1 (demo_message "msg-1")).
  - vm_compute. reflexivity.
  - apply surjective_pairing.
Defined.

Lemma parse_handler_same_identifier_witness :
  let W := demo_healthy 7.2%float 1000000 demo_lending70 in
  let st1 := snd (parse_handler W 0 demo_inbox) in
  exists st2, parse_handler W 1 st1 = (Ok Undefined, st2) /\ trace st2 = trace st1.
Proof.
  intros W st1.
  apply (parse_handler_same_identifier W 0 1 demo_inbox
           (fst (parse_handler W 0 demo_inbox)) st1
           (demo_message "msg-1") (demo_message "msg-1") "msg-1").
  - vm_compute. reflexivity.
  - vm_compute. reflexivity.
  - reflexivity.
  - reflexivity.
  - reflexivity.
  - discriminate.
  - vm_compute. reflexivity.
  - apply surjective_pairing.
Defined.

(** C9 on the code.  Two message objects with the identifier [msg-1] are
    handed to the handler of [executeStrategyAction] one after the other:
    the batch is submitted twice and the document is published twice.  The
    handler consults the flag of the message object only, and not the
    registry of identifiers that [parseStrategyAction] keeps. *)
Lemma same_identifier_is_executed_twice :
  let W := demo_healthy 7.2%float 1000000 demo_lending70 in
  let st1 := snd (execute_handler W 0 demo_inbox) in
  let st2 := snd (execute_handler W 1 st1) in
  (msg_id <$> messages demo_inbox !! 0%nat) = (msg_id <$> messages demo_inbox !! 1%nat)
  /\ length (List.filter is_submission (trace st1)) = 1%nat
  /\ length (List.filter is_publication (trace st1)) = 1%nat
  /\ length (List.filter is_submission (trace st2)) = 2%nat
  /\ length (List.filter is_publication (trace st2)) = 2%nat
  /\ processedMessageIds st2 = None.
Proof. vm_compute. repeat split. Qed.

End Scenarios.

(** ** How the threshold is read *)

Section Thresholds.

Local Open Scope N_scope.

Implicit Types (s : YieldStrategy) (rate : Num.number) (o : operator).

Lemma match_here_other c r : is_letter 65 c = false -> match_here (c :: r) = None.
Proof.
  intros H. unfold match_here. destruct r as [|p [|y r]]; try reflexivity.
  now rewrite H.
Qed.

(** Text without the letter A is skipped by the search. *)
Lemma regex_match_skip before t :
  all_in (fun c => negb (is_letter 65 c)) before ->
  regex_match (before ++ t) = regex_match t.
Proof.
  induction 1 as [|c l Hc _ IH]; [reflexivity|].
  change (regex_match ((c :: l) ++ t))
    with (match match_here (c :: l ++ t) with
          | Some m => Some m
          | None => regex_match (l ++ t)
          end).
  rewrite match_here_other by (now apply negb_true_iff). exact IH.
Qed.

(** The comparison made for a condition whose run of digits and dots is
    [digits]. *)
Lemma evaluate_located s before o digits rest rate :
  condition_at s before o (digits ++ rest) ->
  all_in is_numchar digits -> digits <> [] -> stops is_numchar rest ->
  shouldInvestInLendingProtocol s rate = holds o rate (parseFloat digits).
Proof.
  intros (a & p & y & ws1 & ws2 & Hc & Hb & Ha & Hp & Hy & Hw1 & Hw2) Hd Hd0 Hr.
  apply evaluate_switch. rewrite Hc, regex_match_skip by exact Hb.
  apply regex_match_here, match_here_eq; try assumption;
    apply operator_text_opchars.
Qed.

(** [parseFloat] stops after the fraction: at a second dot, and at the end
    of the digits. *)
Lemma parseFloat_fraction ip fp tail :
  all_in is_digit ip -> ip <> [] -> all_in is_digit fp -> stops is_digit tail ->
  parseFloat (ip ++ cu "." :: fp ++ tail) = numeral_value ip fp.
Proof.
  intros Hi Hne Hf Ht. unfold parseFloat, numeral_value.
  rewrite (span_app is_digit ip) by (assumption || reflexivity).
  change (cu "." =? 46) with true. cbv iota.
  rewrite (span_app is_digit fp tail Hf Ht). simpl fst.
  destruct ip; [congruence | reflexivity].
Qed.

(** A run that starts with a dot and has no digit after it is not a
    number. *)
Lemma parseFloat_dot more : stops is_digit more -> parseFloat (cu "." :: more) = PrimFloat.nan.
Proof.
  intros Hm. unfold parseFloat. simpl span.
  change (cu "." =? 46) with true. cbv iota.
  rewrite <- (app_nil_l more), (span_app is_digit [] more) by (constructor || exact Hm).
  reflexivity.
Qed.

Lemma Prim2SF_is_nan x : PrimFloat.is_nan x = true -> Prim2SF x = S754_nan.
Proof.
  unfold PrimFloat.is_nan. rewrite FloatAxioms.eqb_spec.
  destruct (Prim2SF x) as [sg|sg| |sg m e]; try reflexivity;
    unfold SFeqb, SFcompare.
  - discriminate.
  - destruct sg; discriminate.
  - rewrite Z.compare_refl, Pos.compare_cont_refl. destruct sg; discriminate.
Qed.

Lemma SFcompare_nan_r x : SFcompare x S754_nan = None.
Proof. destruct x as [sg|sg| |sg m e]; try reflexivity; destruct sg; reflexivity. Qed.

(** No comparison holds against a rate that is not a number. *)
Lemma holds_nan_rate o rate t : Prim2SF rate = S754_nan -> holds o rate t = false.
Proof.
  intros H. destruct o; unfold holds;
    rewrite ?FloatAxioms.ltb_spec, ?FloatAxioms.leb_spec, ?FloatAxioms.eqb_spec, H;
    unfold SFltb, SFleb, SFeqb; rewrite ?SFcompare_nan_r; reflexivity.
Qed.

(** Nor against a threshold that is not a number. *)
Lemma holds_nan_threshold o rate t : Prim2SF t = S754_nan -> holds o rate t = false.
Proof.
  intros H. destruct o; unfold holds;
    rewrite ?FloatAxioms.ltb_spec, ?FloatAxioms.leb_spec, ?FloatAxioms.eqb_spec, H;
    unfold SFltb, SFleb, SFeqb; rewrite ?SFcompare_nan_r; reflexivity.
Qed.

(** Splitting what follows the operator into the run of digits and dots
    and the rest. *)
Lemma numchar_run tail :
  exists more rest, tail = more ++ rest /\ all_in is_numchar more /\ stops is_numchar rest.
Proof.
  destruct (span is_numchar tail) as [more rest] eqn:E.
  apply span_spec in E. exists more, rest. exact E.
Qed.

Lemma stops_prefix p more rest : stops p (more ++ rest) -> stops p more.
Proof. destruct more; [intros _; exact I | exact (fun H => H)]. Qed.

(** X4.  The evaluator fails closed on a rate that is not a number:
    whatever the condition, it answers [false]. *)
Theorem evaluator_fails_closed_on_nan :
  forall s rate,
    PrimFloat.is_nan rate = true -> shouldInvestInLendingProtocol s rate = false.
Proof.
  intros s rate Hnan. apply Prim2SF_is_nan in Hnan.
  destruct (shouldInvestInLendingProtocol s rate) eqn:E; [|reflexivity].
  destruct (evaluate_true s rate E) as (o & digits & _ & Hh).
  now rewrite (holds_nan_rate o rate _ Hnan) in Hh.
Qed.

Lemma evaluator_fails_closed_on_nan_witness :
  shouldInvestInLendingProtocol demo_lending70 PrimFloat.nan = false.
Proof. apply (evaluator_fails_closed_on_nan demo_lending70 PrimFloat.nan). reflexivity. Defined.

(** X5.  Text around the condition is ignored: before it, any text without the
    letter A; after the numeral, any text that does not go on with a digit
    or a dot.  The comparison is the one of the numeral. *)
Theorem evaluator_ignores_surrounding_text :
  forall s before o ip fp rest rate,
    condition_at s before o (numeral ip fp ++ rest) ->
    all_in is_digit ip -> ip <> [] -> all_in is_digit fp ->
    stops is_numchar rest ->
    shouldInvestInLendingProtocol s rate = holds o rate (numeral_value ip fp).
Proof.
  intros s before o ip fp rest rate Hc Hi Hne Hf Hr.
  rewrite <- (parseFloat_numeral ip fp Hi Hne Hf).
  apply (evaluate_located s before o (numeral ip fp) rest rate Hc).
  - now apply numeral_numchars.
  - unfold numeral. destruct ip; [congruence | discriminate].
  - exact Hr.
Qed.

Lemma evaluator_ignores_surrounding_text_witness :
  shouldInvestInLendingProtocol
    (with_condition (js "only if APY >= 6.5 percent") ∅) 6.5%float
  = holds OpGe 6.5%float (numeral_value (js "6") (js "5")).
Proof.
  apply (evaluator_ignores_surrounding_text
           (with_condition (js "only if APY >= 6.5 percent") ∅)
           (js "only if ") OpGe (js "6") (js "5") (js " percent") 6.5%float).
  - exists (cu "A"), (cu "P"), (cu "Y"), (js " "), (js " ").
    repeat split; try reflexivity; repeat constructor.
  - repeat constructor.
  - discriminate.
  - repeat constructor.
  - reflexivity.
Defined.

(** X6.  The pattern admits several dots, and the number is read up to the
    second one: in [APY > 6.5.9] the threshold is 6.5, and in [APY > 6..5]
    it is 6. *)
Theorem threshold_is_read_up_to_second_dot :
  forall s before o ip fp rest rate,
    condition_at s before o (ip ++ cu "." :: fp ++ cu "." :: rest) ->
    all_in is_digit ip -> ip <> [] -> all_in is_digit fp ->
    shouldInvestInLendingProtocol s rate = holds o rate (numeral_value ip fp).
Proof.
  intros s before o ip fp rest rate Hc Hi Hne Hf.
  destruct (numchar_run rest) as (more & rest' & -> & Hmore & Hstop).
  rewrite <- (parseFloat_fraction ip fp (cu "." :: more) Hi Hne Hf eq_refl).
  apply (evaluate_located s before o (ip ++ cu "." :: fp ++ cu "." :: more) rest' rate).
  - now rewrite <- !app_assoc, <- !app_comm_cons, <- !app_assoc, <- !app_comm_cons.
  - apply all_in_app; [eapply Forall_impl; [exact Hi | apply digit_numchar]|].
    constructor; [reflexivity|].
    apply all_in_app; [eapply Forall_impl; [exact Hf | apply digit_numchar]|].
    constructor; [reflexivity | exact Hmore].
  - destruct ip; [congruence | discriminate].
  - exact Hstop.
Qed.

Lemma threshold_is_read_up_to_second_dot_witness :
  shouldInvestInLendingProtocol (with_condition (js "APY > 6.5.9%") ∅) 6.7%float
  = holds OpGt 6.7%float (numeral_value (js "6") (js "5")).
Proof.
  apply (threshold_is_read_up_to_second_dot
           (with_condition (js "APY > 6.5.9%") ∅)
           [] OpGt (js "6") (js "5") (js "9%") 6.7%float).
  - exists (cu "A"), (cu "P"), (cu "Y"), (js " "), (js " ").
    repeat split; try reflexivity; repeat constructor.
  - repeat constructor.
  - discriminate.
  - repeat constructor.
Defined.

(** X7.  A threshold without a digit, as in [APY > .] or [APY >= ..5], is not
    a number: the condition is never met, whatever the rate. *)
Theorem threshold_without_digit_is_never_met :
  forall s before o rest rate,
    condition_at s before o (cu "." :: rest) ->
    stops is_digit rest ->
    shouldInvestInLendingProtocol s rate = false.
Proof.
  intros s before o rest rate Hc Hr.
  destruct (numchar_run rest) as (more & rest' & -> & Hmore & Hstop).
  rewrite (evaluate_located s before o (cu "." :: more) rest' rate Hc).
  - rewrite (parseFloat_dot more (stops_prefix _ _ _ Hr)).
    now apply holds_nan_threshold.
  - constructor; [reflexivity | exact Hmore].
  - discriminate.
  - exact Hstop.
Qed.

Lemma threshold_without_digit_is_never_met_witness :
  shouldInvestInLendingProtocol (with_condition (js "APY >= ..5") ∅) 7.2%float = false.
Proof.
  apply (threshold_without_digit_is_never_met
           (with_condition (js "APY >= ..5") ∅) [] OpGe (js ".5") 7.2%float).
  - exists (cu "A"), (cu "P"), (cu "Y"), (js " "), (js " ").
    repeat split; try reflexivity; repeat constructor.
  - reflexivity.
Defined.

End Thresholds.

(** ** Percentages outside the expected range *)

Section Amounts.

Implicit Types (s : YieldStrategy) (p : Num.number) (b z : Z).

(** X8.  The calculator has no upper bound on the percentage: an integer
    percentage above 100 yields an amount that is at least the balance,
    and more than the balance as soon as the balance is 100 or more. *)
Theorem percentage_above_hundred_exceeds_balance :
  forall s b p z,
    assetAllocation (strategy s) !! "lendingProtocol" = Some p ->
    Num.to_integer p = Some z -> 100 < z -> 0 <= b ->
    exists a, amountToDeposit s b = Ok a /\ b <= a /\ (100 <= b -> b < a).
Proof.
  intros s b p z Hp Hz Hlt Hb. exists (b * z / 100).
  rewrite (amountToDeposit_integer s b p z Hp Hz) by lia.
  rewrite Z.quot_div_nonneg by lia. split; [reflexivity|]. split.
  - apply Z.div_le_lower_bound; nia.
  - intros Hb100. apply Z.lt_le_trans with (b + 1); [lia|].
    apply Z.div_le_lower_bound; nia.
Qed.

Lemma percentage_above_hundred_exceeds_balance_witness :
  exists a,
    amountToDeposit (demo_strategy "APY > 6%" {[ "lendingProtocol" := 150%float ]}) 1000
    = Ok a
    /\ 1000 <= a /\ (100 <= 1000 -> 1000 < a).
Proof.
  apply (percentage_above_hundred_exceeds_balance
           (demo_strategy "APY > 6%" {[ "lendingProtocol" := 150%float ]})
           1000 150%float 150).
  - vm_compute. reflexivity.
  - vm_compute. reflexivity.
  - lia.
  - lia.
Defined.

End Amounts.

(** ** Runs of the executor, of the orchestrator and of the publication *)

Section Runs.

Variable W : World.

Implicit Types (s : YieldStrategy) (st : State) (b : Z).

(** Every run of the executor: it fails before any call, or the batch is
    sent and rejected, or the batch is accepted and the run ends as the
    wait for its confirmation does. *)
Lemma executeLendingAllocation_run s v pool b st :
  (exists e, executeLendingAllocation W s v pool b st = (Err e, st))
  \/ exists amount,
      amountToDeposit s b = Ok amount
      /\ ((exists e,
            vault_execute W v [tokenAddress (getNetworkConfig W); pool]
                          [approve pool amount; deposit amount] [0; 0] = Err e
            /\ executeLendingAllocation W s v pool b st
               = (Err e, add_events [submission W v pool amount] st))
          \/ (exists tx,
               vault_execute W v [tokenAddress (getNetworkConfig W); pool]
                             [approve pool amount; deposit amount] [0; 0] = Ok tx
               /\ executeLendingAllocation W s v pool b st
                  = (tx_wait W tx, add_events (batch_events W v pool amount tx) st))).
Proof.
  unfold executeLendingAllocation, bind.
  destruct (getSigner_state W st) as [[[]|e] ->]; [|left; eauto].
  unfold lift. destruct (amountToDeposit s b) as [amount|e]; [|left; eauto].
  destruct (is_empty _); [unfold throw; left; eauto|].
  unfold encode, bind, ret, throw, call.
  destruct (encodeFunctionData W (approve pool amount)); [left; eauto|].
  destruct (encodeFunctionData W (deposit amount)); [left; eauto|].
  right. exists amount. split; [reflexivity|].
  destruct (vault_execute W v _ _ _) as [tx|e].
  - right. exists tx. split; [reflexivity|].
    rewrite !log_event_add, add_events_app.
    destruct (tx_wait W tx); reflexivity.
  - left. exists e. split; reflexivity.
Qed.

(** Every run of the orchestrator: it ends before any call, or the
    condition holds and the balance is read; the executor runs when the
    balance is positive. *)
Lemma executeFullStrategy_run s st :
  let vault := strategyVaultAddress (getNetworkConfig W) in
  let pool := lendingPoolAddress (getNetworkConfig W) in
  let st1 := add_events [CallTotalAssets vault] st in
  (exists r, executeFullStrategy W s st = (r, st)
             /\ forall receipt, r <> Ok (Some receipt))
  \/ (configured W
      /\ shouldInvestInLendingProtocol s (currentAPY (getNetworkConfig W)) = true
      /\ ((exists e, totalAssets W vault = Err e
                     /\ executeFullStrategy W s st = (Err e, st1))
          \/ (exists b, totalAssets W vault = Ok b /\ b <= 0
                        /\ executeFullStrategy W s st = (Ok None, st1))
          \/ (exists b, totalAssets W vault = Ok b /\ 0 < b
                /\ executeFullStrategy W s st
                   = (match fst (executeLendingAllocation W s vault pool b st1) with
                      | Ok r => Ok (Some r)
                      | Err e => Err e
                      end,
                      snd (executeLendingAllocation W s vault pool b st1))))).
Proof.
  intros vault pool st1. unfold executeFullStrategy, configured, throw, ret.
  fold vault pool.
  destruct (is_empty vault); [left; eexists; split; [reflexivity | discriminate]|].
  destruct (is_empty pool); [left; eexists; split; [reflexivity | discriminate]|].
  destruct (shouldInvestInLendingProtocol _ _); simpl;
    [|left; eexists; split; [reflexivity | discriminate]].
  right. split; [auto|]. split; [reflexivity|].
  unfold bind, getVaultTotalAssets, call. rewrite log_event_add. fold st1.
  destruct (totalAssets W vault) as [b|e]; [|left; eauto].
  right. destruct (Z.leb_spec b 0) as [Hle|Hlt].
  - left. exists b. auto.
  - right. exists b. split; [reflexivity|]. split; [exact Hlt|].
    destruct (executeLendingAllocation W s vault pool b st1) as [[r|e] st2];
      reflexivity.
Qed.

Lemma occurrences_app kind evs1 evs2 :
  occurrences kind (evs1 ++ evs2)
  = (occurrences kind evs1 + occurrences kind evs2)%nat.
Proof. unfold occurrences. now rewrite List.filter_app, length_app. Qed.

Lemma occurrences_none kind evs :
  (forall ev, In ev evs -> kind ev = false) -> occurrences kind evs = 0%nat.
Proof.
  unfold occurrences. induction evs as [|ev evs IH]; intros H; [reflexivity|].
  simpl. rewrite (H ev (or_introl eq_refl)). apply IH.
  intros ev' Hev'. apply H. now right.
Qed.

(** X9.  A failed run of the executor.  Either no collaborator was called;
    or the vault rejected the batch; or the vault accepted the batch and
    the wait for its confirmation failed, so that a transaction was
    submitted although the executor reports a failure. *)
Theorem failed_allocation_trace :
  forall s v pool b st e st',
    executeLendingAllocation W s v pool b st = (Err e, st') ->
    st' = st
    \/ (exists amount,
          amountToDeposit s b = Ok amount
          /\ vault_execute W v [tokenAddress (getNetworkConfig W); pool]
                           [approve pool amount; deposit amount] [0; 0] = Err e
          /\ st' = add_events [submission W v pool amount] st)
    \/ (exists amount tx,
          amountToDeposit s b = Ok amount
          /\ vault_execute W v [tokenAddress (getNetworkConfig W); pool]
                           [approve pool amount; deposit amount] [0; 0] = Ok tx
          /\ tx_wait W tx = Err e
          /\ st' = add_events (batch_events W v pool amount tx) st).
Proof.
  intros s v pool b st e st' E.
  destruct (executeLendingAllocation_run s v pool b st)
    as [[e0 E0] | (amount & Ha & [(e0 & Hx & E0) | (tx & Hx & E0)])];
    rewrite E0 in E.
  - left. congruence.
  - right. left. exists amount. injection E as <- <-. auto.
  - right. right. exists amount, tx. injection E as Hw <-. auto.
Qed.

(** X10.  The orchestrator submits at most one batch in a run, and only when
    the vault and the pool are configured, the condition holds at the
    configured rate and the balance read from the vault is positive; the
    batch is the one for the amount computed from that balance. *)
Theorem submission_needs_condition_and_balance :
  forall s st res st',
    executeFullStrategy W s st = (res, st') ->
    exists evs,
      st' = add_events evs st
      /\ (occurrences is_submission evs <= 1)%nat
      /\ forall ev,
          In ev evs -> is_submission ev = true ->
          configured W
          /\ shouldInvestInLendingProtocol s (currentAPY (getNetworkConfig W)) = true
          /\ exists b amount,
              totalAssets W (strategyVaultAddress (getNetworkConfig W)) = Ok b
              /\ 0 < b
              /\ amountToDeposit s b = Ok amount
              /\ ev = submission W (strategyVaultAddress (getNetworkConfig W))
                                 (lendingPoolAddress (getNetworkConfig W)) amount.
Proof.
  intros s st res st' E.
  assert (Hquiet : forall evs,
             (forall ev, In ev evs -> is_submission ev = false) ->
             st' = add_events evs st ->
             exists evs0,
               st' = add_events evs0 st
               /\ (occurrences is_submission evs0 <= 1)%nat
               /\ forall ev,
                   In ev evs0 -> is_submission ev = true ->
                   configured W
                   /\ shouldInvestInLendingProtocol s (currentAPY (getNetworkConfig W)) = true
                   /\ exists b amount,
                       totalAssets W (strategyVaultAddress (getNetworkConfig W)) = Ok b
                       /\ 0 < b
                       /\ amountToDeposit s b = Ok amount
                       /\ ev = submission W (strategyVaultAddress (getNetworkConfig W))
                                          (lendingPoolAddress (getNetworkConfig W)) amount).
  { intros evs Hno ->. exists evs. split; [reflexivity|]. split.
    - rewrite (occurrences_none is_submission evs Hno). lia.
    - intros ev Hev Hsub. rewrite (Hno ev Hev) in Hsub. discriminate. }
  destruct (executeFullStrategy_run s st)
    as [(r & E0 & _) | (Hconf & Hcond & [(e & Hb & E0) | [(b & Hb & Hle & E0)
                                                         | (b & Hb & Hlt & E0)]])];
    rewrite E0 in E.
  - injection E as _ <-. apply (Hquiet []); [intros ev [] | now rewrite add_events_nil].
  - injection E as _ <-. eapply Hquiet; [|reflexivity].
    intros ev [<-|[]]. reflexivity.
  - injection E as _ <-. eapply Hquiet; [|reflexivity].
    intros ev [<-|[]]. reflexivity.
  - set (vault := strategyVaultAddress (getNetworkConfig W)) in *.
    set (pool := lendingPoolAddress (getNetworkConfig W)) in *.
    destruct (executeLendingAllocation_run s vault pool b
                (add_events [CallTotalAssets vault] st))
      as [[e0 E1] | (amount & Ha & [(e0 & Hx & E1) | (tx & Hx & E1)])];
      rewrite E1 in E; cbn [fst snd] in E; rewrite ?add_events_app in E;
      injection E as _ <-.
    + eapply Hquiet; [|reflexivity]. intros ev [<-|[]]. reflexivity.
    + eexists. split; [reflexivity|]. split; [cbv; lia|].
      intros ev [<-|[<-|[]]] Hsub; [discriminate|].
      repeat split; try apply Hconf; try assumption. exists b, amount. auto.
    + eexists. split; [reflexivity|]. split; [cbv; lia|].
      intros ev [<-|[<-|[<-|[]]]] Hsub; try discriminate.
      repeat split; try apply Hconf; try assumption. exists b, amount. auto.
Qed.

(** X11.  The orchestrator skips on a balance of zero, not on an amount of
    zero.  With a positive balance too small for the percentage
    ([b * z < 100]) the amount is 0, and the batch that approves 0 and
    deposits 0 is submitted all the same. *)
Theorem dust_balance_submits_zero_batch :
  forall s b p z tx receipt st,
    configured W -> signer_available W ->
    shouldInvestInLendingProtocol s (currentAPY (getNetworkConfig W)) = true ->
    totalAssets W (strategyVaultAddress (getNetworkConfig W)) = Ok b ->
    0 < b ->
    assetAllocation (strategy s) !! "lendingProtocol" = Some p ->
    Num.to_integer p = Some z -> 0 < z -> b * z < 100 ->
    is_empty (tokenAddress (getNetworkConfig W)) = false ->
    encodeFunctionData W (approve (lendingPoolAddress (getNetworkConfig W)) 0) = None ->
    encodeFunctionData W (deposit 0) = None ->
    vault_execute W (strategyVaultAddress (getNetworkConfig W))
                  [tokenAddress (getNetworkConfig W); lendingPoolAddress (getNetworkConfig W)]
                  [approve (lendingPoolAddress (getNetworkConfig W)) 0; deposit 0]
                  [0; 0] = Ok tx ->
    tx_wait W tx = Ok receipt ->
    amountToDeposit s b = Ok 0
    /\ executeFullStrategy W s st
       = (Ok (Some receipt),
          add_events
            (CallTotalAssets (strategyVaultAddress (getNetworkConfig W))
             :: batch_events W (strategyVaultAddress (getNetworkConfig W))
                             (lendingPoolAddress (getNetworkConfig W)) 0 tx)
            st).
Proof.
  intros s b p z tx receipt st [Hv Hpool] Hs Hc Hb Hpos Hp Hz Hz0 Hdust Ht He1 He2 Hx Hw.
  assert (Ha : amountToDeposit s b = Ok 0).
  { rewrite (amountToDeposit_integer s b p z Hp Hz Hz0).
    rewrite Z.quot_small by lia. reflexivity. }
  split; [exact Ha|].
  unfold executeFullStrategy. rewrite Hv, Hpool, Hc. simpl.
  unfold bind at 1. unfold getVaultTotalAssets, call. rewrite Hb.
  destruct (Z.leb_spec b 0); [lia|].
  unfold executeLendingAllocation, bind.
  rewrite (getSigner_available W _ Hs). unfold lift. rewrite Ha, Ht.
  unfold encode, bind, ret, call. rewrite He1, He2, Hx, Hw.
  now rewrite !log_event_add, !add_events_app.
Qed.

(** X12.  The execution reads two fields of the strategy, the investment
    condition and the entry [lendingProtocol] of the allocation.  Two
    strategies that agree on them run alike, whatever their fallback and
    stop-loss conditions, their rebalancing rules and their transaction
    limits: none of these is enforced. *)
Theorem execution_reads_two_fields :
  forall s s' st,
    investmentCondition (lendingProtocol (strategy s))
    = investmentCondition (lendingProtocol (strategy s')) ->
    assetAllocation (strategy s) !! "lendingProtocol"
    = assetAllocation (strategy s') !! "lendingProtocol" ->
    executeFullStrategy W s st = executeFullStrategy W s' st.
Proof.
  intros s s' st Hc Ha.
  unfold executeFullStrategy, shouldInvestInLendingProtocol,
    executeLendingAllocation, amountToDeposit, lendingPercentage.
  now rewrite Hc, Ha.
Qed.

(** X13.  A publication that returns a document.  The token of the pinning
    service is configured, one request was made, for the document itself;
    the service answered with success, the identifier is the one it
    returned, and both addresses end with that identifier, the first under
    the configured gateway or [ipfs.io].  Without a token the publication
    fails before any request. *)
Theorem upload_result_is_the_pinned_document :
  (forall s st r st',
      uploadToIPFS W s st = (Ok r, st') ->
      ~ pinning_unconfigured W
      /\ st' = add_events [CallPinJSON s] st
      /\ (exists response body,
            pin_fetch W s = Ok response /\ ok response = true
            /\ json response = Ok body /\ cid r = IpfsHash body)
      /\ gatewayUrl r = "https://" +:+ gateway_host W +:+ "/ipfs/" +:+ cid r
      /\ pinataUrl r = "https://gateway.pinata.cloud/ipfs/" +:+ cid r)
  /\ (forall s st,
      pinning_unconfigured W ->
      uploadToIPFS W s st
      = (Err (Error "PINATA_JWT environment variable is not set"), st)).
Proof.
  split.
  - intros s st r st'. unfold uploadToIPFS, pinning_unconfigured, gateway_host.
    destruct (env_PINATA_JWT (config W)) as [jwt|]; [|discriminate].
    destruct (is_empty jwt); [discriminate|].
    unfold bind, call, lift, throw, ret.
    destruct (pin_fetch W s) as [response|e]; [|discriminate].
    destruct (ok response) eqn:Hok; simpl;
      destruct (json response) as [body|e] eqn:Hjson; try discriminate.
    intros [= <- <-]. split; [discriminate|]. split; [reflexivity|].
    split; [exists response, body; auto|]. split; reflexivity.
  - intros s st. unfold uploadToIPFS, pinning_unconfigured.
    destruct (env_PINATA_JWT (config W)) as [jwt|]; [|reflexivity].
    now intros ->.
Qed.

(** X14.  The anchoring call.  A run of [setStrategyReference] that returns
    a receipt has built the signer and made two calls: the transaction on
    the configured vault, with the identifier and the reference it was
    given, and the wait for its confirmation.  A run that fails has
    called nothing, or the vault alone, which refused, or the vault and
    the wait, which failed.  Without a private key or a vault address it
    fails before any call. *)
Theorem reference_call_shape :
  forall i ref st,
    (forall receipt st',
        setStrategyReference W i ref st = (Ok receipt, st') ->
        signer_available W
        /\ exists tx,
            vault_setStrategyReference W (strategyVaultAddress (getNetworkConfig W)) i ref
            = Ok tx
            /\ tx_wait W tx = Ok receipt
            /\ st' = add_events (reference_events W i ref tx) st)
    /\ (forall e st',
        setStrategyReference W i ref st = (Err e, st') ->
        st' = st
        \/ (vault_setStrategyReference W (strategyVaultAddress (getNetworkConfig W)) i ref
            = Err e
            /\ st' = add_events
                       [CallSetStrategyReference
                          (strategyVaultAddress (getNetworkConfig W)) i ref] st)
        \/ (exists tx,
              vault_setStrategyReference W (strategyVaultAddress (getNetworkConfig W)) i ref
              = Ok tx
              /\ tx_wait W tx = Err e
              /\ st' = add_events (reference_events W i ref tx) st))
    /\ (is_empty (wallet_privateKey (config W)) = true
        \/ is_empty (strategyVaultAddress (getNetworkConfig W)) = true ->
        exists e, setStrategyReference W i ref st = (Err e, st)).
Proof.
  intros i ref st. unfold setStrategyReference, bind. split; [|split].
  - intros receipt st'.
    destruct (getSigner W st) as [[[]|e] st1] eqn:E; [|discriminate].
    apply getSigner_ok in E as [Hs ->].
    destruct (is_empty _); [discriminate|]. unfold call, ret.
    destruct (vault_setStrategyReference W _ i ref) as [tx|e]; [|discriminate].
    destruct (tx_wait W tx) as [r|e] eqn:Hw; [|discriminate].
    intros [= <- <-]. split; [exact Hs|]. exists tx.
    now rewrite !log_event_add, add_events_app.
  - intros e st'.
    destruct (getSigner_state W st) as [[[]|e0] ->]; [|left; congruence].
    destruct (is_empty _); [unfold throw; left; congruence|]. unfold call, ret.
    destruct (vault_setStrategyReference W _ i ref) as [tx|e0].
    + destruct (tx_wait W tx) as [r|e1] eqn:Hw; [discriminate|].
      intros [= <- <-]. right. right. exists tx.
      now rewrite !log_event_add, add_events_app.
    + intros [= <- <-]. right. left. auto.
  - intros H. destruct (getSigner_state W st) as [[[]|e0] E]; rewrite E; [|eauto].
    destruct H as [Hk|Hv].
    + unfold getSigner in E. rewrite Hk in E. discriminate.
    + rewrite Hv. unfold throw. eauto.
Qed.

(** X15.  Neither phase of the handler ever throws.  The allocation phase
    appends one step, which records the outcome of the orchestrator: the
    transaction, no action, or the failure.  The publication phase appends
    an anchoring step exactly when a document with an identifier was
    published, and yields that document; when the publication failed it
    appends nothing and yields no document. *)
Theorem execution_phases_contain_failures :
  forall s steps st,
    (exists x,
        allocation_phase W s steps st
        = (Ok (steps ++ [x]), snd (executeFullStrategy W s st))
        /\ x = match fst (executeFullStrategy W s st) with
               | Ok (Some r) => StepExecuted (hash r)
               | Ok None => StepNoAction
               | Err e => StepExecutionFailed (error_message e)
               end)
    /\ (exists tail ipfs st',
        publication_phase W s steps st = (Ok (steps ++ tail, ipfs), st')
        /\ match fst (uploadToIPFS W s st) with
           | Err _ => ipfs = None /\ tail = [] /\ st' = snd (uploadToIPFS W s st)
           | Ok r =>
               ipfs = Some r
               /\ if is_empty (cid r) then tail = []
                  else exists x, tail = [x] /\ is_anchor_step x = true
           end).
Proof.
  intros s steps st. split.
  - unfold allocation_phase, try_catch, bind.
    destruct (executeFullStrategy W s st) as [[[r|]|e] st1]; unfold ret;
      eexists; split; reflexivity.
  - unfold publication_phase, try_catch, bind.
    destruct (uploadToIPFS W s st) as [[r|e] st1]; cbn [fst snd].
    + destruct (is_empty (cid r)) eqn:Hcid; simpl.
      * exists [], (Some r), st1. rewrite app_nil_r. unfold ret.
        split; [reflexivity|]. split; reflexivity.
      * destruct (setStrategyReference W 1 (gatewayUrl r) st1) as [[receipt|e] st2];
          unfold ret; do 3 eexists; (split; [reflexivity|]);
          (split; [reflexivity|]); eexists; split; reflexivity.
    + exists [], None, st1. rewrite app_nil_r. unfold ret. auto.
Qed.

End Runs.

(** ** Invocations of the handler of [executeStrategyAction] *)

Section Invocations.

Variable W : World.

Implicit Types (s : YieldStrategy) (st : State) (m : Message).

Lemma occurrences_prefix kind (evs full : list event) :
  evs `prefix_of` full -> (occurrences kind evs <= occurrences kind full)%nat.
Proof. intros [k ->]. rewrite occurrences_app. lia. Qed.

Lemma Forall_prefix (P : event -> Prop) (evs full : list event) :
  evs `prefix_of` full -> Forall P full -> Forall P evs.
Proof. intros [k ->] H. apply Forall_app in H. apply H. Qed.

Lemma allocation_phase_run s steps st :
  exists x,
    allocation_phase W s steps st
    = (Ok (steps ++ [x]), snd (executeFullStrategy W s st)).
Proof.
  unfold allocation_phase, try_catch, bind.
  destruct (executeFullStrategy W s st) as [[[r|]|e] st1]; unfold ret;
    eexists; reflexivity.
Qed.

(** The calls of the orchestrator are the first calls of the sequence
    balance read, batch, wait. *)
Lemma executeFullStrategy_prefix s st :
  exists amount tx evs,
    snd (executeFullStrategy W s st) = add_events evs st
    /\ evs `prefix_of`
         (CallTotalAssets (strategyVaultAddress (getNetworkConfig W))
          :: batch_events W (strategyVaultAddress (getNetworkConfig W))
                          (lendingPoolAddress (getNetworkConfig W)) amount tx).
Proof.
  pose (tx0 := {| tx_hash := EmptyString |}).
  destruct (executeFullStrategy_run W s st)
    as [(r & E0 & _) | (_ & _ & [(e & _ & E0) | [(b & _ & _ & E0)
                                                | (b & _ & _ & E0)]])];
    rewrite E0; cbn [snd].
  - exists 0, tx0, []. rewrite add_events_nil. split; [reflexivity | apply prefix_nil].
  - exists 0, tx0. eexists. split; [reflexivity|]. apply prefix_cons, prefix_nil.
  - exists 0, tx0. eexists. split; [reflexivity|]. apply prefix_cons, prefix_nil.
  - destruct (executeLendingAllocation_run W s
                (strategyVaultAddress (getNetworkConfig W))
                (lendingPoolAddress (getNetworkConfig W)) b
                (add_events [CallTotalAssets (strategyVaultAddress (getNetworkConfig W))] st))
      as [[e0 E1] | (amount & _ & [(e0 & _ & E1) | (tx & _ & E1)])];
      rewrite E1; cbn [snd]; rewrite ?add_events_app.
    + exists 0, tx0. eexists. split; [reflexivity|]. apply prefix_cons, prefix_nil.
    + exists amount, tx0. eexists. split; [reflexivity|].
      apply prefix_cons, prefix_cons, prefix_nil.
    + exists amount, tx. eexists. split; [reflexivity|]. reflexivity.
Qed.

Lemma setStrategyReference_prefix i ref st :
  exists r tx evs,
    setStrategyReference W i ref st = (r, add_events evs st)
    /\ evs `prefix_of` reference_events W i ref tx.
Proof.
  pose (tx0 := {| tx_hash := EmptyString |}).
  unfold setStrategyReference, bind.
  assert (Hnone : forall r : result TransactionReceipt,
             exists r' tx evs,
               (r, st) = (r', add_events evs st)
               /\ evs `prefix_of` reference_events W i ref tx).
  { intros r. exists r, tx0, []. rewrite add_events_nil.
    split; [reflexivity | apply prefix_nil]. }
  destruct (getSigner_state W st) as [[[]|e] ->]; [|apply Hnone].
  destruct (is_empty _); [apply Hnone|]. unfold call, ret.
  destruct (vault_setStrategyReference W _ i ref) as [tx|e].
  - exists (tx_wait W tx), tx. eexists.
    rewrite !log_event_add, add_events_app.
    split; [destruct (tx_wait W tx); reflexivity | reflexivity].
  - exists (Err e), tx0. eexists. rewrite log_event_add.
    split; [reflexivity | apply prefix_cons, prefix_nil].
Qed.

Lemma uploadToIPFS_prefix s st :
  exists r evs,
    uploadToIPFS W s st = (r, add_events evs st)
    /\ (evs = [] \/ evs = [CallPinJSON s])
    /\ (forall d, r = Ok d -> evs = [CallPinJSON s]).
Proof.
  unfold uploadToIPFS.
  assert (Hnone : forall e, exists r evs,
             @throw IpfsResult e st = (r, add_events evs st)
             /\ (evs = [] \/ evs = [CallPinJSON s])
             /\ (forall d, r = Ok d -> evs = [CallPinJSON s])).
  { intros e. exists (Err e), []. rewrite add_events_nil.
    split; [reflexivity|]. split; [auto | discriminate]. }
  destruct (env_PINATA_JWT _) as [jwt|]; [|apply Hnone].
  destruct (is_empty jwt); [apply Hnone|].
  unfold bind, call, lift, throw, ret. rewrite log_event_add.
  destruct (pin_fetch W s) as [response|e].
  - destruct (ok response); simpl; destruct (json response) as [body|e];
      do 2 eexists; (split; [reflexivity|]); auto.
  - do 2 eexists. split; [reflexivity|]. auto.
Qed.

(** The calls of the publication phase are the first calls of the
    sequence pinning request, anchoring transaction, wait. *)
Lemma publication_phase_prefix s steps st :
  exists res url tx evs,
    publication_phase W s steps st = (Ok res, add_events evs st)
    /\ evs `prefix_of` (CallPinJSON s :: reference_events W 1 url tx).
Proof.
  pose (tx0 := {| tx_hash := EmptyString |}).
  unfold publication_phase, try_catch, bind.
  destruct (uploadToIPFS_prefix s st) as (r & evs & -> & Hevs & Hok).
  destruct r as [d|e].
  - rewrite (Hok d eq_refl). destruct (is_empty (cid d)); simpl.
    + unfold ret. exists (steps, Some d), EmptyString, tx0. eexists.
      split; [reflexivity | apply prefix_cons, prefix_nil].
    + destruct (setStrategyReference_prefix 1 (gatewayUrl d)
                  (add_events [CallPinJSON s] st)) as (r & tx & evs1 & -> & Hevs1).
      rewrite add_events_app.
      destruct r as [receipt|e]; unfold ret;
        (eexists; exists (gatewayUrl d), tx; eexists; split; [reflexivity|]);
        apply prefix_cons, Hevs1.
  - unfold ret. exists (steps, None), EmptyString, tx0, evs.
    split; [reflexivity|].
    destruct Hevs as [-> | ->]; [apply prefix_nil | apply prefix_cons, prefix_nil].
Qed.

(** What the handler calls once the strategy is loaded: the calls of the
    allocation, those of the publication, the store of the execution
    record and, when the record is stored, the reply. *)
Lemma run_strategy_calls m s st :
  exists res amount tx url tx' evsA evsP evsT,
    run_strategy W m s st = (res, add_events (evsA ++ evsP ++ evsT) st)
    /\ evsA `prefix_of`
         (CallTotalAssets (strategyVaultAddress (getNetworkConfig W))
          :: batch_events W (strategyVaultAddress (getNetworkConfig W))
                          (lendingPoolAddress (getNetworkConfig W)) amount tx)
    /\ evsP `prefix_of` (CallPinJSON s :: reference_events W 1 url tx')
    /\ ((exists e, res = Err e /\ evsT = [CallCreateMemory "strategyExecutions" s])
        \/ (exists c,
              evsT = [CallCreateMemory "strategyExecutions" s; CallCallback c]
              /\ res = match callback W c with
                       | None => Ok (Reply c)
                       | Some e => Err e
                       end
              /\ executedStrategy c = Some s)).
Proof.
  unfold run_strategy, bind.
  destruct (allocation_phase_run s (initial_steps W s) st) as [x ->].
  destruct (executeFullStrategy_prefix s st) as (amount & tx & evsA & -> & HA).
  destruct (publication_phase_prefix s (initial_steps W s ++ [x]) (add_events evsA st))
    as (res & url & tx' & evsP & -> & HP).
  unfold call. rewrite log_event_add, !add_events_app.
  destruct (createMemory W "strategyExecutions" s (snd res)) as [i|e].
  - rewrite send_run, add_events_app.
    eexists; exists amount, tx, url, tx', evsA, evsP; eexists.
    split; [rewrite <- ?app_assoc; reflexivity|].
    split; [exact HA|]. split; [exact HP|]. right. eexists. repeat split.
  - eexists; exists amount, tx, url, tx', evsA, evsP; eexists.
    split; [rewrite <- ?app_assoc; reflexivity|].
    split; [exact HA|]. split; [exact HP|]. left. eauto.
Qed.

Lemma body_tally body :
  run_body W body ->
  (occurrences is_submission body <= 1)%nat
  /\ (occurrences is_publication body <= 1)%nat
  /\ (occurrences is_anchor body <= 1)%nat
  /\ Forall (fun ev => is_callback ev = false) body.
Proof.
  intros [-> | (s & amount & tx & url & tx' & evsA & evsP & -> & HA & HP)].
  { repeat split; try (cbv; lia). constructor. }
  rewrite !occurrences_app.
  pose proof (occurrences_prefix is_submission _ _ HA) as A1.
  pose proof (occurrences_prefix is_publication _ _ HA) as A2.
  pose proof (occurrences_prefix is_anchor _ _ HA) as A3.
  pose proof (occurrences_prefix is_submission _ _ HP) as P1.
  pose proof (occurrences_prefix is_publication _ _ HP) as P2.
  pose proof (occurrences_prefix is_anchor _ _ HP) as P3.
  change (occurrences is_submission (CallTotalAssets _ :: _)) with 1%nat in A1.
  change (occurrences is_publication (CallTotalAssets _ :: _)) with 0%nat in A2.
  change (occurrences is_anchor (CallTotalAssets _ :: _)) with 0%nat in A3.
  change (occurrences is_submission (CallPinJSON _ :: _)) with 0%nat in P1.
  change (occurrences is_publication (CallPinJSON _ :: _)) with 1%nat in P2.
  change (occurrences is_anchor (CallPinJSON _ :: _)) with 1%nat in P3.
  change (occurrences is_submission [CallCreateMemory _ _]) with 0%nat.
  change (occurrences is_publication [CallCreateMemory _ _]) with 0%nat.
  change (occurrences is_anchor [CallCreateMemory _ _]) with 0%nat.
  repeat split; try lia.
  apply Forall_app. split; [|apply Forall_app; split].
  - eapply Forall_prefix; [exact HA | repeat constructor].
  - eapply Forall_prefix; [exact HP | repeat constructor].
  - repeat constructor.
Qed.

Ltac deliver Hreply body :=
  match goal with
  | |- context [callback ?W ?c] =>
      let Hb := fresh "Hb" in
      let H := fresh "H" in
      let Hc := fresh "Hc" in
      assert (Hb : run_body W body);
      [ | pose proof (Hreply c body Hb) as H; clear Hreply;
          destruct (callback W c) eqn:Hc; try rewrite Hc in H; exact H ]
  end.

(** Every invocation on a message that is not marked: the read of the
    stored strategies, then, when a strategy was loaded, the calls of the
    run up to the store of the execution record, then the reply; a second
    reply follows only when the delivery of the first has failed. *)
Lemma execute_handler_calls l st m :
  messages st !! l = Some m ->
  content_processed m <> Some "EXECUTE_YIELD_STRATEGY" ->
  exists res body c1 more,
    execute_handler W l st
    = (res,
       add_events (CallGetMemories (msg_roomId m) :: body ++ CallCallback c1 :: more)
                  (mark_processed l "EXECUTE_YIELD_STRATEGY" st))
    /\ run_body W body /\ run_replies W res c1 more.
Proof.
  intros Hm Hproc. unfold execute_handler, bind, get_message. rewrite Hm.
  unfold try_catch. rewrite bool_decide_eq_false_2 by exact Hproc.
  unfold bind, set_processed, call. rewrite log_event_add.
  set (st0 := mark_processed l _ st).
  assert (Hreply : forall c body,
             run_body W body ->
             exists res body' c1 more,
               match callback W c with
               | None =>
                   (Ok (Reply c),
                    add_events (CallGetMemories (msg_roomId m) :: body ++ [CallCallback c]) st0)
               | Some e =>
                   send W (reply m (TextFailure (error_message e))
                                 "PARSE_YIELD_STRATEGY" None None None)
                        (add_events
                           (CallGetMemories (msg_roomId m) :: body ++ [CallCallback c]) st0)
               end
               = (res,
                  add_events
                    (CallGetMemories (msg_roomId m) :: body' ++ CallCallback c1 :: more) st0)
               /\ run_body W body' /\ run_replies W res c1 more).
  { intros c body Hbody. destruct (callback W c) as [e|] eqn:Hc.
    - rewrite send_run, add_events_app.
      eexists; exists body, c; eexists. split.
      + f_equal. f_equal. simpl. rewrite <- app_assoc. reflexivity.
      + split; [exact Hbody|]. right. eexists. split; [congruence|].
        split; reflexivity.
    - exists (Ok (Reply c)), body, c, []. split; [reflexivity|].
      split; [exact Hbody|]. left. now rewrite Hc. }
  assert (Hcatch : forall e body,
             run_body W body ->
             exists res body' c1 more,
               send W (reply m (TextFailure (error_message e))
                             "PARSE_YIELD_STRATEGY" None None None)
                    (add_events (CallGetMemories (msg_roomId m) :: body) st0)
               = (res,
                  add_events
                    (CallGetMemories (msg_roomId m) :: body' ++ CallCallback c1 :: more) st0)
               /\ run_body W body' /\ run_replies W res c1 more).
  { intros e body Hbody. rewrite send_run, add_events_app.
    eexists; exists body; do 2 eexists. split; [reflexivity|].
    split; [exact Hbody|]. left. split; reflexivity. }
  destruct (getMemories W (msg_roomId m)) as [[|mem mems]|e0].
  - rewrite send_run, add_events_app. deliver Hreply (@nil event). now left.
  - destruct (load_strategy W mem) as [s|e1].
    + destruct (run_strategy_calls m s (add_events [CallGetMemories (msg_roomId m)] st0))
        as (res & amount & tx & url & tx' & evsA & evsP & evsT & -> & HA & HP & HT).
      rewrite add_events_app.
      assert (Hbody : run_body W (evsA ++ evsP ++ [CallCreateMemory "strategyExecutions" s]))
        by (right; exists s, amount, tx, url, tx', evsA, evsP; auto).
      destruct HT as [(e & -> & ->) | (c & -> & -> & _)].
      * replace ([CallGetMemories (msg_roomId m)]
                 ++ evsA ++ evsP ++ [CallCreateMemory "strategyExecutions" s])
          with (CallGetMemories (msg_roomId m)
                :: (evsA ++ evsP ++ [CallCreateMemory "strategyExecutions" s]))
          by reflexivity.
        apply (Hcatch e _ Hbody).
      * replace ([CallGetMemories (msg_roomId m)]
                 ++ evsA ++ evsP ++ [CallCreateMemory "strategyExecutions" s; CallCallback c])
          with (CallGetMemories (msg_roomId m)
                :: (evsA ++ evsP ++ [CallCreateMemory "strategyExecutions" s])
                   ++ [CallCallback c])
          by (simpl; rewrite <- !app_assoc; reflexivity).
        deliver Hreply (evsA ++ evsP ++ [CallCreateMemory "strategyExecutions" s]).
        exact Hbody.
    + rewrite send_run, add_events_app. deliver Hreply (@nil event). now left.
  - apply (Hcatch e0 []). now left.
Qed.

(** X16.  When the reply callback does not fail, an invocation on a message
    that is not marked never throws, and it replies exactly once: the
    callback is the last call it makes, and what it returns is what it
    has delivered.  Every failure of a collaborator has become a reply. *)
Theorem execute_handler_replies_once :
  forall l st m,
    messages st !! l = Some m ->
    content_processed m <> Some "EXECUTE_YIELD_STRATEGY" ->
    (forall c, callback W c = None) ->
    exists c evs st',
      execute_handler W l st = (Ok (Reply c), st')
      /\ trace st' = trace st ++ evs ++ [CallCallback c]
      /\ Forall (fun ev => is_callback ev = false) evs.
Proof.
  intros l st m Hm Hproc Hcb.
  destruct (execute_handler_calls l st m Hm Hproc)
    as (res & body & c1 & more & E & Hbody & Hmore).
  destruct Hmore as [[-> ->] | (c2 & Hc1 & _)]; [|destruct (Hc1 (Hcb c1))].
  rewrite Hcb in E. exists c1, (CallGetMemories (msg_roomId m) :: body). eexists.
  split; [exact E|]. split.
  - reflexivity.
  - constructor; [reflexivity|]. apply (body_tally body Hbody).
Qed.

(** X17.  One invocation, at most one of each side effect.  Whatever the
    collaborators answer, an invocation of the handler submits at most
    one batch, publishes at most one document and sends at most one
    anchoring transaction. *)
Theorem one_invocation_one_batch :
  forall l st res st',
    execute_handler W l st = (res, st') ->
    exists evs,
      trace st' = trace st ++ evs
      /\ (occurrences is_submission evs <= 1)%nat
      /\ (occurrences is_publication evs <= 1)%nat
      /\ (occurrences is_anchor evs <= 1)%nat.
Proof.
  intros l st res st' E.
  assert (Hnone : st' = st ->
                  exists evs,
                    trace st' = trace st ++ evs
                    /\ (occurrences is_submission evs <= 1)%nat
                    /\ (occurrences is_publication evs <= 1)%nat
                    /\ (occurrences is_anchor evs <= 1)%nat).
  { intros ->. exists []. rewrite app_nil_r. repeat split; cbv; lia. }
  destruct (messages st !! l) as [m|] eqn:Hm.
  2:{ apply Hnone. revert E. unfold execute_handler, bind, get_message.
      rewrite Hm. congruence. }
  destruct (decide (content_processed m = Some "EXECUTE_YIELD_STRATEGY")) as [Hp|Hp].
  { apply Hnone. revert E. unfold execute_handler, bind, get_message.
    rewrite Hm. unfold try_catch. rewrite bool_decide_eq_true_2 by exact Hp.
    unfold ret. congruence. }
  destruct (execute_handler_calls l st m Hm Hp)
    as (res0 & body & c1 & more & E0 & Hbody & Hmore).
  rewrite E0 in E. injection E as _ <-.
  exists (CallGetMemories (msg_roomId m) :: body ++ CallCallback c1 :: more).
  split; [reflexivity|].
  change (CallGetMemories (msg_roomId m) :: body ++ CallCallback c1 :: more)
    with ([CallGetMemories (msg_roomId m)] ++ body ++ [CallCallback c1] ++ more).
  rewrite !occurrences_app.
  assert (Hmore0 : forall kind,
             (forall c, kind (CallCallback c) = false) ->
             occurrences kind more = 0%nat).
  { intros kind Hk. destruct Hmore as [[-> _] | (c2 & _ & -> & _)];
      [reflexivity|]. unfold occurrences. simpl. now rewrite Hk. }
  rewrite !Hmore0 by reflexivity.
  change (occurrences is_submission [CallGetMemories _]) with 0%nat.
  change (occurrences is_publication [CallGetMemories _]) with 0%nat.
  change (occurrences is_anchor [CallGetMemories _]) with 0%nat.
  change (occurrences is_submission [CallCallback _]) with 0%nat.
  change (occurrences is_publication [CallCallback _]) with 0%nat.
  change (occurrences is_anchor [CallCallback _]) with 0%nat.
  destruct (body_tally body Hbody) as (H1 & H2 & H3 & _).
  repeat split; lia.
Qed.

(** X18.  Without a stored strategy that loads, the handler touches nothing.
    When the store holds no strategy, or the first record does not parse,
    the invocation reads the store and replies; it contacts neither the
    chain nor the pinning service, and its reply carries no executed
    strategy and no published document. *)
Theorem handler_without_strategy_touches_nothing :
  forall l st m res st',
    messages st !! l = Some m ->
    content_processed m <> Some "EXECUTE_YIELD_STRATEGY" ->
    (getMemories W (msg_roomId m) = Ok []
     \/ exists mem mems e,
         getMemories W (msg_roomId m) = Ok (mem :: mems)
         /\ load_strategy W mem = Err e) ->
    execute_handler W l st = (res, st') ->
    exists evs,
      st' = add_events (CallGetMemories (msg_roomId m) :: evs)
                       (mark_processed l "EXECUTE_YIELD_STRATEGY" st)
      /\ Forall (fun ev => is_callback ev = true) evs
      /\ forall c, res = Ok (Reply c) ->
                   executedStrategy c = None /\ ipfsData c = None
                   /\ actions c = ["PARSE_YIELD_STRATEGY"].
Proof.
  intros l st m res st' Hm Hproc Hstore.
  unfold execute_handler, bind, get_message. rewrite Hm.
  unfold try_catch. rewrite bool_decide_eq_false_2 by exact Hproc.
  unfold bind, set_processed, call. rewrite log_event_add.
  set (st0 := mark_processed l _ st).
  assert (Hsend : forall t,
             match send W (reply m t "PARSE_YIELD_STRATEGY" None None None)
                     (add_events [CallGetMemories (msg_roomId m)] st0) with
             | (Ok a, st1) => (Ok a, st1)
             | (Err e, st1) =>
                 send W (reply m (TextFailure (error_message e))
                               "PARSE_YIELD_STRATEGY" None None None) st1
             end = (res, st') ->
             exists evs,
               st' = add_events (CallGetMemories (msg_roomId m) :: evs) st0
               /\ Forall (fun ev => is_callback ev = true) evs
               /\ forall c, res = Ok (Reply c) ->
                            executedStrategy c = None /\ ipfsData c = None
                            /\ actions c = ["PARSE_YIELD_STRATEGY"]).
  { intros t. rewrite send_run, add_events_app.
    destruct (callback W _) as [e|].
    - rewrite send_run, add_events_app. intros [= <- <-].
      eexists. split; [reflexivity|]. split; [repeat constructor|].
      intros c Hc. destruct (callback W _); [discriminate|].
      injection Hc as <-. repeat split.
    - intros [= <- <-]. eexists. split; [reflexivity|].
      split; [repeat constructor|]. intros c [= <-]. repeat split. }
  destruct Hstore as [-> | (mem & mems & e & -> & ->)]; apply Hsend.
Qed.

(** A property of every call of the handler, given that it holds of the
    calls made once the strategy is loaded, of the read of the store and
    of the replies. *)
Lemma execute_handler_all (P : event -> Prop) :
  (forall room, P (CallGetMemories room)) ->
  (forall c, P (CallCallback c)) ->
  (forall m s st, exists res evs,
      run_strategy W m s st = (res, add_events evs st) /\ Forall P evs) ->
  forall l st res st',
    execute_handler W l st = (res, st') ->
    exists evs, trace st' = trace st ++ evs /\ Forall P evs.
Proof.
  intros Hread Hreply Hrun l st res st'.
  unfold execute_handler, bind, get_message.
  destruct (messages st !! l) as [m|].
  2:{ intros [= <- <-]. exists []. rewrite app_nil_r. split; [reflexivity | constructor]. }
  unfold try_catch. case_bool_decide.
  { unfold ret. intros [= <- <-]. exists []. rewrite app_nil_r.
    split; [reflexivity | constructor]. }
  unfold bind, set_processed, call. rewrite log_event_add.
  set (st0 := mark_processed l _ st).
  assert (Hout : forall (r : result handler_result) evs c,
             Forall P evs ->
             (match r with
              | Ok a => (Ok a, add_events evs st0)
              | Err e => send W (c e) (add_events evs st0)
              end) = (res, st') ->
             exists evs', trace st' = trace st ++ evs' /\ Forall P evs').
  { intros r evs c Hevs. destruct r as [a|e]; [|rewrite send_run, add_events_app];
      intros [= <- <-]; eexists; (split; [reflexivity|]); try assumption.
    apply Forall_app. split; [assumption | repeat constructor; apply Hreply]. }
  destruct (getMemories W (msg_roomId m)) as [[|mem mems]|e0].
  - rewrite send_run, add_events_app.
    apply (Hout (match callback W _ with None => Ok _ | Some e => Err e end)
                _ (fun e => _)).
    repeat constructor; [apply Hread | apply Hreply].
  - destruct (load_strategy W mem) as [s|e1].
    + destruct (Hrun m s (add_events [CallGetMemories (msg_roomId m)] st0))
        as (r0 & evs0 & -> & Hevs0).
      rewrite add_events_app. apply (Hout r0 _ (fun e => _)).
      constructor; [apply Hread | exact Hevs0].
    + rewrite send_run, add_events_app.
      apply (Hout (match callback W _ with None => Ok _ | Some e => Err e end)
                  _ (fun e => _)).
      repeat constructor; [apply Hread | apply Hreply].
  - apply (Hout (Err e0) _ (fun e => _)). repeat constructor. apply Hread.
Qed.

Lemma getSigner_unable st :
  is_empty (wallet_privateKey (config W)) = true ->
  exists e, getSigner W st = (Err e, st).
Proof. intros Hk. unfold getSigner. rewrite Hk. unfold throw. eauto. Qed.

Lemma executeFullStrategy_unable s st :
  unable_to_sign W ->
  exists r evs,
    executeFullStrategy W s st = (r, add_events evs st)
    /\ Forall (fun ev => is_transaction ev = false) evs.
Proof.
  intros Hun. unfold executeFullStrategy.
  assert (Hnone : forall r : result (option TransactionReceipt),
             exists r' evs,
               (r, st) = (r', add_events evs st)
               /\ Forall (fun ev => is_transaction ev = false) evs).
  { intros r. exists r, []. rewrite add_events_nil. split; [reflexivity | constructor]. }
  destruct (is_empty (strategyVaultAddress _)) eqn:Hv; [apply Hnone|].
  destruct (is_empty (lendingPoolAddress _)); [apply Hnone|].
  destruct (shouldInvestInLendingProtocol _ _); simpl; [|apply Hnone].
  unfold bind at 1. unfold getVaultTotalAssets, call. rewrite log_event_add.
  destruct (totalAssets W _) as [b|e];
    [|do 2 eexists; split; [reflexivity | repeat constructor]].
  destruct (b <=? 0); [do 2 eexists; split; [reflexivity | repeat constructor]|].
  destruct Hun as [Hk|Hv']; [|congruence].
  unfold executeLendingAllocation, bind.
  destruct (getSigner_unable (add_events [CallTotalAssets
              (strategyVaultAddress (getNetworkConfig W))] st) Hk) as [e ->].
  do 2 eexists. split; [reflexivity | repeat constructor].
Qed.

Lemma setStrategyReference_unable i ref st :
  unable_to_sign W -> exists e, setStrategyReference W i ref st = (Err e, st).
Proof.
  intros Hun. unfold setStrategyReference, bind.
  destruct (getSigner_state W st) as [[[]|e] E]; rewrite E; [|eauto].
  destruct Hun as [Hk|Hv].
  - destruct (getSigner_unable st Hk) as [e E']. congruence.
  - rewrite Hv. unfold throw. eauto.
Qed.

Lemma run_strategy_unable m s st :
  unable_to_sign W ->
  exists res evs,
    run_strategy W m s st = (res, add_events evs st)
    /\ Forall (fun ev => is_transaction ev = false) evs.
Proof.
  intros Hun. unfold run_strategy, bind.
  destruct (allocation_phase_run s (initial_steps W s) st) as [x ->].
  destruct (executeFullStrategy_unable s st Hun) as (r & evsA & E & HA).
  rewrite E. cbn [snd].
  assert (HP : exists res evsP,
             publication_phase W s (initial_steps W s ++ [x]) (add_events evsA st)
             = (Ok res, add_events evsP (add_events evsA st))
             /\ Forall (fun ev => is_transaction ev = false) evsP).
  { unfold publication_phase, try_catch, bind.
    destruct (uploadToIPFS_prefix s (add_events evsA st)) as (u & evs & -> & Hevs & Hok).
    assert (Hq : Forall (fun ev => is_transaction ev = false) evs)
      by (destruct Hevs as [-> | ->]; repeat constructor).
    destruct u as [d|e]; [|unfold ret; eauto].
    destruct (is_empty (cid d)); simpl; [unfold ret; eauto|].
    destruct (setStrategyReference_unable 1 (gatewayUrl d)
                (add_events evs (add_events evsA st)) Hun) as [e ->].
    unfold ret. eauto. }
  destruct HP as (res & evsP & -> & HP).
  unfold call. rewrite log_event_add, !add_events_app.
  destruct (createMemory W "strategyExecutions" s (snd res)) as [i|e].
  - rewrite send_run, add_events_app. do 2 eexists. split; [reflexivity|].
    repeat (apply Forall_app; split); try assumption; repeat constructor.
  - do 2 eexists. split; [reflexivity|].
    repeat (apply Forall_app; split); try assumption; repeat constructor.
Qed.

(** All that a deployment that cannot sign does for the allocation is to
    read the balance of the vault. *)
Lemma executeFullStrategy_unable_reads s st :
  unable_to_sign W ->
  exists r evs,
    executeFullStrategy W s st = (r, add_events evs st)
    /\ (evs = []
        \/ evs = [CallTotalAssets (strategyVaultAddress (getNetworkConfig W))]).
Proof.
  intros Hun. unfold executeFullStrategy.
  assert (Hnone : forall r : result (option TransactionReceipt),
             exists r' evs,
               (r, st) = (r', add_events evs st)
               /\ (evs = []
                   \/ evs = [CallTotalAssets
                               (strategyVaultAddress (getNetworkConfig W))])).
  { intros r. exists r, []. rewrite add_events_nil. split; [reflexivity | now left]. }
  destruct (is_empty (strategyVaultAddress _)) eqn:Hv; [apply Hnone|].
  destruct (is_empty (lendingPoolAddress _)); [apply Hnone|].
  destruct (shouldInvestInLendingProtocol _ _); simpl; [|apply Hnone].
  unfold bind at 1. unfold getVaultTotalAssets, call. rewrite log_event_add.
  destruct (totalAssets W _) as [b|e];
    [|do 2 eexists; split; [reflexivity | now right]].
  destruct (b <=? 0); [do 2 eexists; split; [reflexivity | now right]|].
  destruct Hun as [Hk|Hv']; [|congruence].
  unfold executeLendingAllocation, bind.
  destruct (getSigner_unable (add_events [CallTotalAssets
              (strategyVaultAddress (getNetworkConfig W))] st) Hk) as [e ->].
  do 2 eexists. split; [reflexivity | now right].
Qed.

(** With a token for the pinning service, the upload makes the pinning
    request, whatever the service answers. *)
Lemma uploadToIPFS_configured s st :
  ~ pinning_unconfigured W ->
  exists r, uploadToIPFS W s st = (r, add_events [CallPinJSON s] st).
Proof.
  intros Hcfg. unfold pinning_unconfigured in Hcfg. unfold uploadToIPFS.
  destruct (env_PINATA_JWT _) as [jwt|]; [|destruct Hcfg; exact I].
  destruct (is_empty jwt); [destruct Hcfg; reflexivity|].
  unfold bind, call, lift, throw, ret. rewrite log_event_add.
  destruct (pin_fetch W s) as [response|e].
  - destruct (ok response); simpl; destruct (json response) as [body|e];
      eexists; reflexivity.
  - eexists. reflexivity.
Qed.

(** Once the strategy is loaded, a deployment that cannot sign but has a
    token for the pinning service makes one pinning request, for the
    loaded strategy. *)
Lemma run_strategy_unable_pins m s st :
  unable_to_sign W -> ~ pinning_unconfigured W ->
  exists res evs,
    run_strategy W m s st = (res, add_events evs st)
    /\ occurrences is_publication evs = 1%nat /\ In (CallPinJSON s) evs.
Proof.
  intros Hun Hcfg. unfold run_strategy, bind.
  destruct (allocation_phase_run s (initial_steps W s) st) as [x ->].
  destruct (executeFullStrategy_unable_reads s st Hun) as (r & evsA & E & HA).
  rewrite E. cbn [snd].
  assert (HA0 : occurrences is_publication evsA = 0%nat)
    by (destruct HA as [-> | ->]; reflexivity).
  assert (HP : exists res,
             publication_phase W s (initial_steps W s ++ [x]) (add_events evsA st)
             = (Ok res, add_events [CallPinJSON s] (add_events evsA st))).
  { unfold publication_phase, try_catch, bind.
    destruct (uploadToIPFS_configured s (add_events evsA st) Hcfg) as (u & ->).
    destruct u as [d|e]; [|unfold ret; eauto].
    destruct (is_empty (cid d)); simpl; [unfold ret; eauto|].
    destruct (setStrategyReference_unable 1 (gatewayUrl d)
                (add_events [CallPinJSON s] (add_events evsA st)) Hun) as [e ->].
    unfold ret. eauto. }
  destruct HP as (res & ->).
  unfold call. rewrite log_event_add, !add_events_app.
  destruct (createMemory W "strategyExecutions" s (snd res)) as [i|e].
  - rewrite send_run, add_events_app. do 2 eexists. split; [reflexivity|]. split.
    + rewrite !occurrences_app, HA0. reflexivity.
    + apply in_or_app. left. apply in_or_app. right. apply in_or_app. left.
      now left.
  - do 2 eexists. split; [reflexivity|]. split.
    + rewrite !occurrences_app, HA0. reflexivity.
    + apply in_or_app. right. apply in_or_app. left. now left.
Qed.

Lemma execute_handler_unable_pins l st res st' m mem mems s :
  unable_to_sign W -> ~ pinning_unconfigured W ->
  messages st !! l = Some m ->
  content_processed m <> Some "EXECUTE_YIELD_STRATEGY" ->
  getMemories W (msg_roomId m) = Ok (mem :: mems) ->
  load_strategy W mem = Ok s ->
  execute_handler W l st = (res, st') ->
  exists evs,
    trace st' = trace st ++ evs
    /\ occurrences is_publication evs = 1%nat /\ In (CallPinJSON s) evs.
Proof.
  intros Hun Hcfg Hm Hproc Hmem Hload.
  rewrite (execute_handler_loaded W l st m mem mems s Hm Hproc Hmem Hload).
  unfold try_catch.
  destruct (run_strategy_unable_pins m s
              (add_events [CallGetMemories (msg_roomId m)]
                          (mark_processed l "EXECUTE_YIELD_STRATEGY" st)) Hun Hcfg)
    as (r & evs & -> & Hocc & Hin).
  rewrite add_events_app.
  destruct r as [a|e]; [|rewrite send_run, add_events_app];
    intros [= <- <-]; eexists; (split; [reflexivity|]); split.
  - exact Hocc.
  - now right.
  - change (occurrences is_publication (evs ++ [CallCallback
             (reply m (TextFailure (error_message e)) "PARSE_YIELD_STRATEGY"
                    None None None)]) = 1%nat).
    rewrite occurrences_app, Hocc. reflexivity.
  - right. apply in_or_app. now left.
Qed.

(** X26.  A deployment that cannot sign sends nothing.  Without a private
    key, or without an address for the vault (the default of the
    configuration), no invocation of the handler submits a batch or sends
    an anchoring transaction, whatever the stored strategy and the
    answers of the collaborators.  The document is still pinned when the
    pinning service is configured: an invocation that loads a strategy
    makes one pinning request, for that strategy. *)
Theorem unsigned_deployment_sends_no_transaction :
  forall l st res st',
    unable_to_sign W ->
    execute_handler W l st = (res, st') ->
    exists evs,
      trace st' = trace st ++ evs
      /\ Forall (fun ev => is_transaction ev = false) evs
      /\ forall m mem mems s,
          messages st !! l = Some m ->
          content_processed m <> Some "EXECUTE_YIELD_STRATEGY" ->
          getMemories W (msg_roomId m) = Ok (mem :: mems) ->
          load_strategy W mem = Ok s ->
          ~ pinning_unconfigured W ->
          occurrences is_publication evs = 1%nat /\ In (CallPinJSON s) evs.
Proof.
  intros l st res st' Hun Hrun.
  assert (Hall : exists evs,
             trace st' = trace st ++ evs
             /\ Forall (fun ev => is_transaction ev = false) evs).
  { revert Hrun. apply (execute_handler_all (fun ev => is_transaction ev = false)).
    - reflexivity.
    - reflexivity.
    - intros m s st0. now apply run_strategy_unable. }
  destruct Hall as (evs & Htrace & Hnone). exists evs.
  split; [exact Htrace|]. split; [exact Hnone|].
  intros m mem mems s Hm Hproc Hmem Hload Hcfg.
  destruct (execute_handler_unable_pins l st res st' m mem mems s
              Hun Hcfg Hm Hproc Hmem Hload Hrun) as (evs' & Htrace' & Hpins).
  rewrite Htrace in Htrace'. apply app_inv_head in Htrace'. subst evs'.
  exact Hpins.
Qed.

End Invocations.

(** ** Invocations of the handler of [parseStrategyAction] *)

Section Parsing.

Variable W : World.

Implicit Types (s : YieldStrategy) (st : State) (m : Message).

(** The test of the registry agrees with the one of the validator. *)
Lemma registry_has_registered i st :
  registry_has i (snd (init_registry st)) = (Ok (registered i st), snd (init_registry st)).
Proof.
  unfold registry_has, registered, init_registry. cbn [snd processedMessageIds].
  destruct (truthy_id i) as [k|]; [|reflexivity].
  destruct (processedMessageIds st) as [reg|]; reflexivity.
Qed.

Ltac answers :=
  repeat match goal with
         | |- context [useModel W ?a] =>
             let E := fresh "Hmodel" in destruct (useModel W a) eqn:E
         | |- context [extract_strategy W ?a] =>
             let E := fresh "Hextract" in destruct (extract_strategy W a) eqn:E
         | |- context [createMemory W ?a ?b ?c] => destruct (createMemory W a b c)
         | |- context [default false (?x !! ?k)] => destruct (default false (x !! k))
         | |- context [callback W ?c] => destruct (callback W c)
         end.

(** X19.  Only a strategy that passed the validation is stored.  In every
    invocation the handler stores at most one record, in the table
    [yieldStrategies], and the strategy it stores is the one extracted and
    validated from the answer of the model to the text of the message.
    When the model fails, or its answer holds no valid strategy, nothing
    is stored. *)
Theorem parse_handler_stores_validated_only :
  forall l st res st',
    parse_handler W l st = (res, st') ->
    exists evs,
      trace st' = trace st ++ evs
      /\ (occurrences is_storage evs <= 1)%nat
      /\ forall table s,
          In (CallCreateMemory table s) evs ->
          table = "yieldStrategies"
          /\ exists m t,
              messages st !! l = Some m
              /\ useModel W (content_text m) = Ok t
              /\ extract_strategy W t = Ok s.
Proof.
  intros l st res st'. unfold parse_handler, bind, get_message.
  assert (Hnone : forall r (st0 : State),
             trace st0 = trace st -> (r, st0) = (res, st') ->
             exists evs,
               trace st' = trace st ++ evs
               /\ (occurrences is_storage evs <= 1)%nat
               /\ forall table s,
                   In (CallCreateMemory table s) evs ->
                   table = "yieldStrategies"
                   /\ exists m t,
                       messages st !! l = Some m
                       /\ useModel W (content_text m) = Ok t
                       /\ extract_strategy W t = Ok s).
  { intros r st0 Ht [= <- <-]. exists []. rewrite app_nil_r.
    split; [exact Ht|]. split; [cbv; lia | intros table s []]. }
  destruct (messages st !! l) as [m|] eqn:Hm; [|apply Hnone; reflexivity].
  unfold try_catch, bind, init_registry.
  case_bool_decide; [apply Hnone; reflexivity|].
  unfold registry_has. cbn [processedMessageIds].
  destruct (match truthy_id (msg_id m) with
            | Some k => default false (default ∅ (Some (default ∅ (processedMessageIds st))) !! k)
            | None => false
            end); [apply Hnone; reflexivity|].
  unfold set_processed, registry_mark, mark_processed.
  destruct (truthy_id (msg_id m)) as [k|];
    unfold call, lift, sent_test_and_mark, send, bind, call_unit, ret, log_event;
    cbn [trace messages processedMessageIds sentResponses];
    answers; intros [= <- <-]; cbn [trace];
    (eexists; split; [rewrite <- ?app_assoc; reflexivity|]);
    (split; [cbv; lia|]);
    intros table s0 Hin; simpl in Hin;
    repeat match goal with
           | H : _ \/ _ |- _ => destruct H
           | H : False |- _ => destruct H
           | H : _ = CallCreateMemory _ _ |- _ => inversion H; subst; clear H
           end;
    (split; [reflexivity|]); exists m; eexists; eauto.
Qed.

(** A reply that carries a parsed strategy has marked its serialized form
    as sent. *)
Lemma parse_handler_sent l st c st1 s :
  parse_handler W l st = (Ok (Reply c), st1) ->
  parsedStrategy c = Some s ->
  default ∅ (sentResponses st1) !! stringify W s = Some true.
Proof.
  unfold parse_handler, bind, get_message.
  destruct (messages st !! l) as [m|]; [|discriminate].
  unfold try_catch, bind, init_registry.
  case_bool_decide; [discriminate|].
  unfold registry_has. cbn [processedMessageIds].
  destruct (match truthy_id (msg_id m) with
            | Some k => default false (default ∅ (Some (default ∅ (processedMessageIds st))) !! k)
            | None => false
            end); [discriminate|].
  unfold set_processed, registry_mark, mark_processed.
  destruct (truthy_id (msg_id m)) as [k|];
    unfold call, lift, sent_test_and_mark, send, bind, call_unit, ret, log_event;
    cbn [trace messages processedMessageIds sentResponses];
    answers; intros [= <- <-]; cbn [parsedStrategy reply sentResponses];
    intros [= <-]; cbn [default from_option id]; apply lookup_insert_eq.
Qed.

(** A reply that carries a parsed strategy carries the strategy read
    from the answer of the model. *)
Lemma parse_handler_parsed l st m t c st1 s :
  messages st !! l = Some m ->
  useModel W (content_text m) = Ok t ->
  parse_handler W l st = (Ok (Reply c), st1) ->
  parsedStrategy c = Some s ->
  extract_strategy W t = Ok s.
Proof.
  intros Hm Hmodel. unfold parse_handler, bind, get_message. rewrite Hm.
  unfold try_catch, bind, init_registry.
  case_bool_decide; [discriminate|].
  unfold registry_has. cbn [processedMessageIds].
  destruct (match truthy_id (msg_id m) with
            | Some k => default false (default ∅ (Some (default ∅ (processedMessageIds st))) !! k)
            | None => false
            end); [discriminate|].
  unfold set_processed, registry_mark, mark_processed.
  destruct (truthy_id (msg_id m)) as [k|];
    unfold call, lift, sent_test_and_mark, send, bind, call_unit, ret, log_event;
    cbn [trace messages processedMessageIds sentResponses];
    rewrite Hmodel; destruct (extract_strategy W t) as [s'|e];
    answers; intros [= <- <-]; cbn [parsedStrategy reply];
    intros [= <-]; reflexivity.
Qed.

(** A message whose strategy has the serialized form of a strategy that
    was sent is parsed and stored, and gets no reply. *)
Lemma parse_handler_repeats l1 l2 st c1 st1 s1 m2 t2 s2 i :
  parse_handler W l1 st = (Ok (Reply c1), st1) ->
  parsedStrategy c1 = Some s1 ->
  messages st1 !! l2 = Some m2 ->
  content_processed m2 <> Some "PARSE_YIELD_STRATEGY" ->
  registered (msg_id m2) st1 = false ->
  useModel W (content_text m2) = Ok t2 ->
  extract_strategy W t2 = Ok s2 ->
  stringify W s2 = stringify W s1 ->
  createMemory W "yieldStrategies" s2 None = Ok i ->
  exists st2,
    parse_handler W l2 st1 = (Ok Null, st2)
    /\ trace st2
       = trace st1 ++ [CallUseModel (content_text m2);
                       CallCreateMemory "yieldStrategies" s2].
Proof.
  intros E1 Hp1 Hm2 Hproc Hreg Hmodel Hextract Hsame Hstore.
  pose proof (parse_handler_sent l1 st c1 st1 s1 E1 Hp1) as Hsent.
  unfold parse_handler, bind, get_message. rewrite Hm2.
  pose proof (registry_has_registered (msg_id m2) st1) as Hr.
  unfold init_registry in Hr. cbn [snd] in Hr.
  unfold try_catch, bind, init_registry.
  rewrite bool_decide_eq_false_2 by exact Hproc.
  rewrite Hr, Hreg.
  unfold set_processed, registry_mark, mark_processed.
  destruct (truthy_id (msg_id m2)) as [k|];
    unfold call, lift, sent_test_and_mark, send, bind, call_unit, ret, log_event;
    cbn [trace messages processedMessageIds sentResponses];
    rewrite Hmodel, Hextract, Hstore, Hsame, Hsent;
    eexists; (split; [reflexivity|]); cbn [trace];
    now rewrite <- app_assoc.
Qed.

(** X20.  A repeated answer gets no reply.  Once the handler has replied
    with the strategy it read from an answer of the model, a later
    message with another identifier for which the model gives the same
    answer is parsed and stored again, but the handler returns [null]
    without calling the reply callback.  The identifiers are UUIDs and
    the serialized strategy is the text of a JSON object, so that no key
    of the two registries names a property that a plain object
    inherits. *)
Theorem repeated_strategy_gets_no_reply :
  forall l1 l2 st m1 c1 st1 s m2 t i,
    messages st !! l1 = Some m1 ->
    uuid_shaped (msg_id m1) ->
    useModel W (content_text m1) = Ok t ->
    parse_handler W l1 st = (Ok (Reply c1), st1) ->
    parsedStrategy c1 = Some s ->
    object_text (stringify W s) ->
    messages st1 !! l2 = Some m2 ->
    uuid_shaped (msg_id m2) ->
    content_processed m2 <> Some "PARSE_YIELD_STRATEGY" ->
    registered (msg_id m2) st1 = false ->
    useModel W (content_text m2) = Ok t ->
    createMemory W "yieldStrategies" s None = Ok i ->
    exists st2,
      parse_handler W l2 st1 = (Ok Null, st2)
      /\ trace st2
         = trace st1 ++ [CallUseModel (content_text m2);
                         CallCreateMemory "yieldStrategies" s].
Proof.
  intros l1 l2 st m1 c1 st1 s m2 t i Hm1 _ Hmodel1 E1 Hp1 _ Hm2 _ Hproc Hreg
         Hmodel2 Hstore.
  pose proof (parse_handler_parsed l1 st m1 t c1 st1 s Hm1 Hmodel1 E1 Hp1) as Hextract.
  exact (parse_handler_repeats l1 l2 st c1 st1 s m2 t s i
           E1 Hp1 Hm2 Hproc Hreg Hmodel2 Hextract eq_refl Hstore).
Qed.

(** X27.  When the reply callback does not fail, an invocation of the
    handler of [parseStrategyAction] never throws and replies at most
    once.  It returns nothing, or [null], without any reply; or it
    returns the content it has just delivered, the callback being the
    last call it makes. *)
Theorem parse_handler_replies_at_most_once :
  forall l st m,
    messages st !! l = Some m ->
    (forall c, callback W c = None) ->
    exists res st' evs,
      parse_handler W l st = (Ok res, st')
      /\ trace st' = trace st ++ evs
      /\ match res with
         | Reply c =>
             exists evs0,
               evs = evs0 ++ [CallCallback c]
               /\ Forall (fun ev => is_callback ev = false) evs0
         | Undefined | Null => Forall (fun ev => is_callback ev = false) evs
         end.
Proof.
  intros l st m Hm Hcb. unfold parse_handler, bind, get_message. rewrite Hm.
  unfold try_catch, bind, init_registry.
  case_bool_decide.
  { unfold ret. do 2 eexists. exists []. rewrite app_nil_r.
    split; [reflexivity|]. split; [reflexivity | constructor]. }
  unfold registry_has. cbn [processedMessageIds].
  destruct (match truthy_id (msg_id m) with
            | Some k => default false (default ∅ (Some (default ∅ (processedMessageIds st))) !! k)
            | None => false
            end).
  { unfold ret. do 2 eexists. exists []. rewrite app_nil_r.
    split; [reflexivity|]. split; [reflexivity | constructor]. }
  unfold set_processed, registry_mark, mark_processed.
  destruct (truthy_id (msg_id m)) as [k|];
    unfold call, lift, sent_test_and_mark, send, bind, call_unit, ret, log_event;
    cbn [trace messages processedMessageIds sentResponses];
    rewrite ?Hcb;
    repeat match goal with
           | |- context [useModel W ?a] => destruct (useModel W a)
           | |- context [extract_strategy W ?a] => destruct (extract_strategy W a)
           | |- context [createMemory W ?a ?b ?c] => destruct (createMemory W a b c)
           | |- context [default false (?x !! ?k)] => destruct (default false (x !! k))
           end;
    rewrite ?Hcb;
    do 3 eexists; (split; [reflexivity|]); cbn [trace];
    (split; [rewrite <- ?app_assoc; reflexivity|]);
    lazymatch goal with
    | |- exists _, ?a ++ ?b ++ ?c = _ /\ _ =>
        exists (a ++ b); split; [now rewrite <- app_assoc | repeat constructor]
    | |- exists _, ?a ++ ?c = _ /\ _ =>
        exists a; split; [reflexivity | repeat constructor]
    | |- Forall _ _ => repeat constructor
    end.
Qed.

End Parsing.

(** ** The validators *)

Section Validation.

Variable W : World.

Variable toLowerCase : string -> string.

Lemma prefix_append n b : String.prefix n (n +:+ b) = true.
Proof.
  induction n as [|a n IH].
  - destruct b; reflexivity.
  - simpl. destruct (ascii_dec a a); [exact IH | contradiction].
Qed.

Lemma prefix_inv n h : String.prefix n h = true -> exists b, h = n +:+ b.
Proof.
  revert h. induction n as [|a n IH]; intros h.
  - intros _. exists h. reflexivity.
  - destruct h as [|c h]; [discriminate|]. simpl.
    destruct (ascii_dec a c) as [->|]; [|discriminate].
    intros H. destruct (IH h H) as [b ->]. exists b. reflexivity.
Qed.

(** [includes] is the test that the needle occurs in the text. *)
Lemma includes_spec n h :
  includes n h = true <-> exists a b, h = a +:+ n +:+ b.
Proof.
  split.
  - induction h as [|c h IH]; intros H.
    + change (includes n EmptyString) with (String.prefix n EmptyString || false) in H.
      rewrite orb_false_r in H. destruct (prefix_inv n _ H) as [b Hb].
      exists EmptyString, b. exact Hb.
    + change (includes n (String c h))
        with (String.prefix n (String c h) || includes n h) in H.
      apply orb_true_iff in H as [H|H].
      * destruct (prefix_inv n _ H) as [b Hb]. exists EmptyString, b. exact Hb.
      * destruct (IH H) as (a & b & ->). exists (String c a), b. reflexivity.
  - intros (a & b & ->). induction a as [|c a IH].
    + change (EmptyString +:+ n +:+ b) with (n +:+ b).
      destruct (n +:+ b) eqn:E;
        [change (includes n EmptyString) with (String.prefix n EmptyString || false)
        |change (includes n (String a s))
           with (String.prefix n (String a s) || includes n s)];
        rewrite <- E, prefix_append; reflexivity.
    + change (includes n (String c a +:+ n +:+ b))
        with (String.prefix n (String c (a +:+ n +:+ b)) || includes n (a +:+ n +:+ b)).
      rewrite IH. apply orb_true_r.
Qed.

(** X21.  No message passes both validators.  The validator of
    [parseStrategyAction] rejects every text in which the word execute
    occurs, and the validator of [executeStrategyAction] accepts no other
    text, whatever the case conversion yields. *)
Theorem validators_are_exclusive :
  forall m acts st,
    parse_validate toLowerCase m acts st && execute_validate toLowerCase m acts = false.
Proof.
  intros m acts st. unfold parse_validate, execute_validate.
  destruct (includes "execute" (toLowerCase (content_text m))); [reflexivity|].
  destruct (has_action "EXECUTE_YIELD_STRATEGY" acts); apply andb_false_r.
Qed.

Lemma registered_default k st :
  is_empty k = false ->
  registered (Some k) st = default false (default ∅ (processedMessageIds st) !! k).
Proof.
  intros Hk. unfold registered, truthy_id. rewrite Hk.
  destruct (processedMessageIds st); reflexivity.
Qed.

(** X22.  The validator rejects what the handler has taken up.  Once an
    invocation of the handler of [parseStrategyAction] has passed its
    guards for a message with an identifier, the validator rejects every
    message that carries this identifier, whatever its text. *)
Theorem validator_rejects_handled_identifier :
  forall l st res st' m k m' acts,
    messages st !! l = Some m ->
    msg_id m = Some k -> is_empty k = false ->
    content_processed m <> Some "PARSE_YIELD_STRATEGY" ->
    registered (msg_id m) st = false ->
    parse_handler W l st = (res, st') ->
    msg_id m' = Some k ->
    parse_validate toLowerCase m' acts st' = false.
Proof.
  intros l st res st' m k m' acts Hm Hk Hne Hproc Hreg E Hk'.
  rewrite Hk, (registered_default k st Hne) in Hreg.
  destruct (parse_handler_marks W l st res st' m k Hm Hk Hne Hproc Hreg E) as [Hr _].
  unfold parse_validate. rewrite Hk', (registered_default k st' Hne), Hr.
  cbn [default from_option id]. rewrite lookup_insert_eq. cbn [default from_option id].
  destruct (includes "execute" _); [reflexivity|].
  destruct (has_action "PARSE_YIELD_STRATEGY" acts); reflexivity.
Qed.

End Validation.

(** ** Further scenarios *)

Section Deployments.

(** The vault refuses the batch. *)
Lemma failed_allocation_trace_witness :
  let W := demo_world 7.2%float (Ok 1000000) (Err (Rejected "execution reverted"))
                      demo_pinned demo_lending70 (Ok "e1") in
  let st' := snd (executeLendingAllocation W demo_lending70 "0xa1" "0xb2" 1000000
                                           demo_inbox) in
  st' = demo_inbox
  \/ (exists amount,
        amountToDeposit demo_lending70 1000000 = Ok amount
        /\ vault_execute W "0xa1" [tokenAddress (getNetworkConfig W); "0xb2"]
                         [approve "0xb2" amount; deposit amount] [0; 0]
           = Err (Rejected "execution reverted")
        /\ st' = add_events [submission W "0xa1" "0xb2" amount] demo_inbox)
  \/ (exists amount tx,
        amountToDeposit demo_lending70 1000000 = Ok amount
        /\ vault_execute W "0xa1" [tokenAddress (getNetworkConfig W); "0xb2"]
                         [approve "0xb2" amount; deposit amount] [0; 0] = Ok tx
        /\ tx_wait W tx = Err (Rejected "execution reverted")
        /\ st' = add_events (batch_events W "0xa1" "0xb2" amount tx) demo_inbox).
Proof.
  intros W st'.
  apply (failed_allocation_trace W demo_lending70 "0xa1" "0xb2" 1000000 demo_inbox
           (Rejected "execution reverted") st').
  vm_compute. reflexivity.
Defined.

(** The end-to-end scenario: one batch, for 70 percent of the balance. *)
Lemma submission_needs_condition_and_balance_witness :
  let W := demo_healthy 7.2%float 1000000 demo_lending70 in
  exists evs,
    snd (executeFullStrategy W demo_lending70 demo_inbox) = add_events evs demo_inbox
    /\ (occurrences is_submission evs <= 1)%nat.
Proof.
  intros W.
  destruct (submission_needs_condition_and_balance W demo_lending70 demo_inbox
              (fst (executeFullStrategy W demo_lending70 demo_inbox))
              (snd (executeFullStrategy W demo_lending70 demo_inbox))
              (surjective_pairing _))
    as (evs & Hst & Hone & _).
  exists evs. split; assumption.
Defined.

(** A vault that holds one unit, and 70 percent to allocate. *)
Lemma dust_balance_submits_zero_batch_witness :
  let W := demo_healthy 7.2%float 1 demo_lending70 in
  amountToDeposit demo_lending70 1 = Ok 0
  /\ executeFullStrategy W demo_lending70 demo_inbox
     = (Ok (Some {| hash := "0xa1"; blockNumber := 42 |}),
        add_events
          (CallTotalAssets (strategyVaultAddress (getNetworkConfig W))
           :: batch_events W (strategyVaultAddress (getNetworkConfig W))
                           (lendingPoolAddress (getNetworkConfig W)) 0 demo_sent)
          demo_inbox).
Proof.
  intros W.
  apply (dust_balance_submits_zero_batch W demo_lending70 1 70%float 70 demo_sent
           {| hash := "0xa1"; blockNumber := 42 |} demo_inbox).
  - split; reflexivity.
  - split; reflexivity.
  - vm_compute. reflexivity.
  - reflexivity.
  - lia.
  - vm_compute. reflexivity.
  - vm_compute. reflexivity.
  - lia.
  - lia.
  - reflexivity.
  - reflexivity.
  - reflexivity.
  - reflexivity.
  - reflexivity.
Defined.

(** Stop-loss, rebalancing and transaction limits change nothing. *)
Lemma execution_reads_two_fields_witness :
  let W := demo_healthy 7.2%float 1000000 demo_lending70 in
  executeFullStrategy W demo_lending70 demo_inbox
  = executeFullStrategy W demo_cautious demo_inbox.
Proof.
  intros W.
  apply (execution_reads_two_fields W demo_lending70 demo_cautious demo_inbox).
  - reflexivity.
  - vm_compute. reflexivity.
Defined.

Lemma upload_result_is_the_pinned_document_witness :
  let W := demo_healthy 7.2%float 1000000 demo_lending70 in
  let r := {| cid := "bafkreigh2akiscaildc";
              gatewayUrl := "https://ipfs.io/ipfs/bafkreigh2akiscaildc";
              pinataUrl := "https://gateway.pinata.cloud/ipfs/bafkreigh2akiscaildc" |} in
  gatewayUrl r = "https://" +:+ gateway_host W +:+ "/ipfs/" +:+ cid r
  /\ pinataUrl r = "https://gateway.pinata.cloud/ipfs/" +:+ cid r.
Proof.
  intros W r.
  destruct (proj1 (upload_result_is_the_pinned_document W) demo_lending70 demo_inbox r
              (add_events [CallPinJSON demo_lending70] demo_inbox))
    as (_ & _ & _ & Hg & Hp).
  - vm_compute. reflexivity.
  - split; assumption.
Defined.

Lemma reference_call_shape_witness :
  let W := demo_healthy 7.2%float 1000000 demo_lending70 in
  let url := "https://ipfs.io/ipfs/bafkreigh2akiscaildc" in
  signer_available W
  /\ exists tx,
      vault_setStrategyReference W (strategyVaultAddress (getNetworkConfig W)) 1 url = Ok tx
      /\ tx_wait W tx = Ok {| hash := "0xa2"; blockNumber := 42 |}
      /\ snd (setStrategyReference W 1 url demo_inbox)
         = add_events (reference_events W 1 url tx) demo_inbox.
Proof.
  intros W url.
  apply (proj1 (reference_call_shape W 1 url demo_inbox)
               {| hash := "0xa2"; blockNumber := 42 |}
               (snd (setStrategyReference W 1 url demo_inbox))).
  vm_compute. reflexivity.
Defined.

(** The database of execution records is down: still one reply. *)
Lemma execute_handler_replies_once_witness :
  let W := demo_world 7.2%float (Ok 1000000) (Ok demo_sent) demo_pinned demo_lending70
                      (Err (Rejected "database unavailable")) in
  exists c evs st',
    execute_handler W 0 demo_inbox = (Ok (Reply c), st')
    /\ trace st' = trace demo_inbox ++ evs ++ [CallCallback c]
    /\ Forall (fun ev => is_callback ev = false) evs.
Proof.
  intros W.
  apply (execute_handler_replies_once W 0 demo_inbox (demo_message "msg-1")).
  - vm_compute. reflexivity.
  - discriminate.
  - reflexivity.
Defined.

Lemma one_invocation_one_batch_witness :
  let W := demo_healthy 7.2%float 1000000 demo_lending70 in
  exists evs,
    trace (snd (execute_handler W 0 demo_inbox)) = trace demo_inbox ++ evs
    /\ (occurrences is_submission evs <= 1)%nat
    /\ (occurrences is_publication evs <= 1)%nat
    /\ (occurrences is_anchor evs <= 1)%nat.
Proof.
  intros W.
  apply (one_invocation_one_batch W 0 demo_inbox
           (fst (execute_handler W 0 demo_inbox))
           (snd (execute_handler W 0 demo_inbox))).
  apply surjective_pairing.
Defined.

(** Nothing has been parsed yet. *)
Lemma handler_without_strategy_touches_nothing_witness :
  let W := with_memories (demo_healthy 7.2%float 1000000 demo_lending70) (Ok []) in
  exists evs,
    snd (execute_handler W 0 demo_inbox)
    = add_events (CallGetMemories "room" :: evs)
                 (mark_processed 0 "EXECUTE_YIELD_STRATEGY" demo_inbox)
    /\ Forall (fun ev => is_callback ev = true) evs
    /\ forall c, fst (execute_handler W 0 demo_inbox) = Ok (Reply c) ->
                 executedStrategy c = None /\ ipfsData c = None
                 /\ actions c = ["PARSE_YIELD_STRATEGY"].
Proof.
  intros W.
  apply (handler_without_strategy_touches_nothing W 0 demo_inbox (demo_message "msg-1")
           (fst (execute_handler W 0 demo_inbox))
           (snd (execute_handler W 0 demo_inbox))).
  - vm_compute. reflexivity.
  - discriminate.
  - left. reflexivity.
  - apply surjective_pairing.
Defined.

Lemma parse_handler_stores_validated_only_witness :
  let W := demo_healthy 7.2%float 1000000 demo_lending70 in
  exists evs,
    trace (snd (parse_handler W 0 demo_inbox)) = trace demo_inbox ++ evs
    /\ (occurrences is_storage evs <= 1)%nat.
Proof.
  intros W.
  destruct (parse_handler_stores_validated_only W 0 demo_inbox
              (fst (parse_handler W 0 demo_inbox))
              (snd (parse_handler W 0 demo_inbox))
              (surjective_pairing _))
    as (evs & Ht & Hone & _).
  exists evs. split; assumption.
Defined.

(** The same strategy described in a second message. *)
Lemma repeated_strategy_gets_no_reply_witness :
  let W := demo_healthy 7.2%float 1000000 demo_lending70 in
  let st1 := snd (parse_handler W 0 demo_two_messages) in
  exists st2,
    parse_handler W 1 st1 = (Ok Null, st2)
    /\ trace st2
       = trace st1 ++ [CallUseModel "Execute my yield strategy";
                       CallCreateMemory "yieldStrategies" demo_lending70].
Proof.
  intros W st1.
  apply (repeated_strategy_gets_no_reply W 0 1 demo_two_messages
           (demo_message "msg-1")
           (reply (demo_message "msg-1") (TextParsed demo_lending70)
                  "PARSE_YIELD_STRATEGY" None None (Some demo_lending70))
           st1 demo_lending70 (demo_message "msg-2") "{...}" "e1").
  - reflexivity.
  - reflexivity.
  - reflexivity.
  - vm_compute. reflexivity.
  - reflexivity.
  - reflexivity.
  - vm_compute. reflexivity.
  - reflexivity.
  - discriminate.
  - vm_compute. reflexivity.
  - reflexivity.
  - reflexivity.
Defined.

(** A second delivery of a message that described a strategy. *)
Lemma validator_rejects_handled_identifier_witness :
  let W := demo_healthy 7.2%float 1000000 demo_lending70 in
  let m := {| msg_id := Some "msg-7";
              msg_roomId := "room";
              content_text := "Invest in Lending for Yield";
              content_source := "chat";
              content_processed := None |} in
  let st := initial_state {[ 0%nat := m ]} in
  parse_validate demo_toLowerCase m None st = true
  /\ parse_validate demo_toLowerCase m None (snd (parse_handler W 0 st)) = false.
Proof.
  intros W m st. split; [vm_compute; reflexivity|].
  apply (validator_rejects_handled_identifier W demo_toLowerCase 0 st
           (fst (parse_handler W 0 st)) (snd (parse_handler W 0 st))
           m "msg-7" m None).
  - vm_compute. reflexivity.
  - reflexivity.
  - reflexivity.
  - discriminate.
  - reflexivity.
  - apply surjective_pairing.
  - reflexivity.
Defined.

(** The documented deployment without its private key: the document is
    pinned, nothing is sent to the chain. *)
Lemma unsigned_deployment_sends_no_transaction_witness :
  let W := without_wallet_key (demo_healthy 7.2%float 1000000 demo_lending70) in
  let st' := snd (execute_handler W 0 demo_inbox) in
  exists evs,
    trace st' = trace demo_inbox ++ evs
    /\ Forall (fun ev => is_transaction ev = false) evs
    /\ occurrences is_publication evs = 1%nat
    /\ In (CallPinJSON demo_lending70) evs.
Proof.
  intros W st'.
  destruct (unsigned_deployment_sends_no_transaction W 0 demo_inbox
              (fst (execute_handler W 0 demo_inbox)) st')
    as (evs & Htrace & Hnone & Hpins).
  - left. reflexivity.
  - apply surjective_pairing.
  - exists evs. split; [exact Htrace|]. split; [exact Hnone|].
    apply (Hpins (demo_message "msg-1")
                 {| mem_id := "m1"; mem_text := Some "{...}"; mem_strategy := None |}
                 [] demo_lending70).
    + reflexivity.
    + discriminate.
    + reflexivity.
    + reflexivity.
    + intros H. vm_compute in H. discriminate H.
Defined.

Lemma parse_handler_replies_at_most_once_witness :
  let W := demo_healthy 7.2%float 1000000 demo_lending70 in
  exists res st' evs,
    parse_handler W 0 demo_inbox = (Ok res, st')
    /\ trace st' = trace demo_inbox ++ evs
    /\ match res with
       | Reply c =>
           exists evs0,
             evs = evs0 ++ [CallCallback c]
             /\ Forall (fun ev => is_callback ev = false) evs0
       | Undefined | Null => Forall (fun ev => is_callback ev = false) evs
       end.
Proof.
  intros W.
  apply (parse_handler_replies_at_most_once W 0 demo_inbox (demo_message "msg-1")).
  - vm_compute. reflexivity.
  - reflexivity.
Defined.

End Deployments.

(** ** The JSON document in the answer of the model *)

Section Answers.

Local Open Scope N_scope.

Implicit Types (c d : code_unit) (s pre post doc : jsstring).

Lemma strip_prefix_app n r : strip_prefix n (n ++ r) = Some r.
Proof.
  induction n as [|c n IH]; simpl; [now destruct r|].
  now rewrite N.eqb_refl.
Qed.

Lemma strip_prefix_other c n d s : c <> d -> strip_prefix (c :: n) (d :: s) = None.
Proof. intros H. simpl. destruct (N.eqb_spec c d); [contradiction | reflexivity]. Qed.

Lemma find_here c n pre rest :
  without c pre -> find (c :: n) (pre ++ (c :: n) ++ rest) = Some (pre, rest).
Proof.
  induction 1 as [|d pre Hd _ IH].
  - change ([] ++ (c :: n) ++ rest) with ((c :: n) ++ rest).
    destruct ((c :: n) ++ rest) eqn:E; [discriminate|].
    unfold find. rewrite <- E, strip_prefix_app. reflexivity.
  - change (find (c :: n) ((d :: pre) ++ (c :: n) ++ rest))
      with (match strip_prefix (c :: n) (d :: pre ++ (c :: n) ++ rest) with
            | Some after => Some ([], after)
            | None =>
                match find (c :: n) (pre ++ (c :: n) ++ rest) with
                | Some (before, after) => Some (d :: before, after)
                | None => None
                end
            end).
    simpl strip_prefix. destruct (N.eqb_spec c d) as [->|_]; [congruence|].
    now rewrite IH.
Qed.

Lemma find_none c n s : without c s -> find (c :: n) s = None.
Proof.
  induction 1 as [|d s Hd _ IH]; [reflexivity|].
  change (find (c :: n) (d :: s))
    with (match strip_prefix (c :: n) (d :: s) with
          | Some after => Some ([], after)
          | None =>
              match find (c :: n) s with
              | Some (before, after) => Some (d :: before, after)
              | None => None
              end
          end).
  simpl strip_prefix. destruct (N.eqb_spec c d) as [->|_]; [congruence|].
  now rewrite IH.
Qed.

(** What [find] returns is a place where the needle occurs. *)
Lemma strip_prefix_spec n s r : strip_prefix n s = Some r -> s = n ++ r.
Proof.
  revert s. induction n as [|c n IH]; intros s; simpl.
  - destruct s; now intros [= <-].
  - destruct s as [|d s]; [discriminate|].
    destruct (N.eqb_spec c d) as [->|_]; [|discriminate].
    intros H. now rewrite (IH s H).
Qed.

Lemma find_spec n s a b : find n s = Some (a, b) -> s = a ++ n ++ b.
Proof.
  revert a b. induction s as [|d s IH]; intros a b.
  - unfold find. destruct (strip_prefix n []) as [r|] eqn:E; [|discriminate].
    intros [= <- <-]. exact (strip_prefix_spec _ _ _ E).
  - change (find n (d :: s))
      with (match strip_prefix n (d :: s) with
            | Some after => Some ([], after)
            | None =>
                match find n s with
                | Some (before, after) => Some (d :: before, after)
                | None => None
                end
            end).
    destruct (strip_prefix n (d :: s)) as [r|] eqn:E.
    + intros [= <- <-]. exact (strip_prefix_spec _ _ _ E).
    + destruct (find n s) as [[a' b']|]; [|discriminate].
      intros [= <- <-]. now rewrite (IH a' b' eq_refl).
Qed.

(** And it is the first such place. *)
Lemma find_first n s a b a' b' :
  find n s = Some (a, b) -> s = a' ++ n ++ b' -> (length a <= length a')%nat.
Proof.
  revert a b a'. induction s as [|d s IH]; intros a b a'.
  - unfold find. destruct (strip_prefix n []); [|discriminate].
    intros [= <- <-] _. simpl. lia.
  - change (find n (d :: s))
      with (match strip_prefix n (d :: s) with
            | Some after => Some ([], after)
            | None =>
                match find n s with
                | Some (before, after) => Some (d :: before, after)
                | None => None
                end
            end).
    destruct (strip_prefix n (d :: s)) as [r|] eqn:E.
    + intros [= <- <-] _. simpl. lia.
    + destruct (find n s) as [[a0 b0]|] eqn:E0; [|discriminate].
      intros [= <- <-] Hs. destruct a' as [|d' a'].
      * simpl in Hs. rewrite Hs, strip_prefix_app in E. discriminate.
      * injection Hs as <- Hs. simpl. apply le_n_S. now apply (IH a0 b0 a').
Qed.

Lemma upto_last_none c s : without c s -> upto_last c s = None.
Proof.
  induction 1 as [|d s Hd _ IH]; [reflexivity|]. simpl. rewrite IH.
  destruct (N.eqb_spec d c); [contradiction | reflexivity].
Qed.

Lemma upto_last_app c inner post :
  without c post -> upto_last c (inner ++ c :: post) = Some inner.
Proof.
  intros Hp. induction inner as [|d inner IH]; simpl.
  - now rewrite (upto_last_none c post Hp), N.eqb_refl.
  - now rewrite IH.
Qed.

Lemma remove_fences_plain b r :
  without 96 b -> remove_fences 0 (b ++ r) = b ++ remove_fences 0 r.
Proof.
  induction 1 as [|d b Hd _ IH]; [reflexivity|].
  change (remove_fences 0 ((d :: b) ++ r))
    with (match strip_prefix (js "```json") (d :: b ++ r) with
          | Some _ => remove_fences 6 (b ++ r)
          | None =>
              match strip_prefix (js "```") (d :: b ++ r) with
              | Some _ => remove_fences 2 (b ++ r)
              | None => d :: remove_fences 0 (b ++ r)
              end
          end).
  change (js "```json") with (96 :: js "``json").
  change (js "```") with (96 :: js "``").
  rewrite !(strip_prefix_other 96) by congruence.
  now rewrite IH.
Qed.

Lemma drop_spaces_app ws s : all_in is_space ws -> drop_spaces (ws ++ s) = drop_spaces s.
Proof. induction 1 as [|c ws Hc _ IH]; [reflexivity|]. simpl. now rewrite Hc. Qed.

Lemma drop_spaces_stops s : stops is_space s -> drop_spaces s = s.
Proof. destruct s as [|c s]; [reflexivity|]. simpl. now intros ->. Qed.

Lemma trim_padded ws1 doc ws2 :
  all_in is_space ws1 -> all_in is_space ws2 -> trimmed doc ->
  trim (ws1 ++ doc ++ ws2) = doc.
Proof.
  intros H1 H2 [Hl Hr]. unfold trim. rewrite (drop_spaces_app ws1 _ H1).
  destruct doc as [|d doc].
  - simpl app. rewrite <- (app_nil_r ws2), (drop_spaces_app ws2 [] H2). reflexivity.
  - rewrite (drop_spaces_stops ((d :: doc) ++ ws2) Hl).
    rewrite rev_app_distr, (drop_spaces_app (rev ws2)) by now apply Forall_rev.
    rewrite (drop_spaces_stops _ Hr). apply rev_involutive.
Qed.

Lemma space_not_backquote ws : all_in is_space ws -> without 96 ws.
Proof.
  intros H. eapply Forall_impl; [exact H|]. intros c Hc ->. discriminate Hc.
Qed.

Lemma without_app c s1 s2 : without c s1 -> without c s2 -> without c (s1 ++ s2).
Proof. intros H1 H2. apply Forall_app. split; assumption. Qed.

Lemma match_fenced_here pre body post :
  without 96 pre -> without 96 body ->
  match_fenced (pre ++ js "```json" ++ body ++ js "```" ++ post)
  = Some (js "```json" ++ body ++ js "```").
Proof.
  intros Hpre Hbody. unfold match_fenced.
  assert (E1 : find (js "```json") (pre ++ js "```json" ++ body ++ js "```" ++ post)
               = Some (pre, body ++ js "```" ++ post))
    by (apply (find_here 96 (js "``json")); assumption).
  assert (E2 : find (js "```") (body ++ js "```" ++ post) = Some (body, post))
    by (apply (find_here 96 (js "``")); assumption).
  now rewrite E1, E2.
Qed.

Lemma match_fenced_none s : without 96 s -> match_fenced s = None.
Proof.
  intros Hs. unfold match_fenced.
  assert (E : find (js "```json") s = None) by (apply (find_none 96); assumption).
  now rewrite E.
Qed.

Lemma match_braces_here pre inner post :
  without 123 pre -> without 125 post ->
  match_braces (pre ++ cu "{" :: inner ++ cu "}" :: post)
  = Some (cu "{" :: inner ++ js "}").
Proof.
  intros Hopen Hclose. unfold match_braces.
  assert (E1 : find (js "{") (pre ++ cu "{" :: inner ++ cu "}" :: post)
               = Some (pre, inner ++ cu "}" :: post))
    by (apply (find_here 123 []); assumption).
  assert (E2 : upto_last 125 (inner ++ cu "}" :: post) = Some inner)
    by (apply (upto_last_app 125); assumption).
  now rewrite E1, E2.
Qed.

Lemma remove_fences_block body :
  without 96 body -> remove_fences 0 (js "```json" ++ body ++ js "```") = body.
Proof.
  intros Hbody.
  change (remove_fences 0 (js "```json" ++ body ++ js "```"))
    with (remove_fences 0 (body ++ js "```")).
  rewrite (remove_fences_plain body (js "```") Hbody).
  change (remove_fences 0 (js "```")) with (@nil code_unit). apply app_nil_r.
Qed.

Lemma remove_fences_none s : without 96 s -> remove_fences 0 s = s.
Proof.
  intros Hs. rewrite <- (app_nil_r s) at 1.
  rewrite (remove_fences_plain s [] Hs). apply app_nil_r.
Qed.

Lemma trim_trimmed s : trimmed s -> trim s = s.
Proof.
  intros Hs.
  pose proof (trim_padded [] s [] (List.Forall_nil _) (List.Forall_nil _) Hs) as E.
  simpl in E. now rewrite app_nil_r in E.
Qed.

(** X23.  A fenced document is recovered as it is.  When the answer holds,
    after a text without backquote, a block opened by the fence with the
    word json and closed by a fence, the document between the fences is
    returned without the white space around it, whatever precedes and
    follows the block, braces included. *)
Theorem fenced_document_is_recovered :
  forall pre ws1 doc ws2 post,
    without 96 pre -> all_in is_space ws1 -> all_in is_space ws2 ->
    without 96 doc -> trimmed doc ->
    jsonStr (pre ++ js "```json" ++ ws1 ++ doc ++ ws2 ++ js "```" ++ post) = Ok doc.
Proof.
  intros pre ws1 doc ws2 post Hpre H1 H2 Hdoc Htrim.
  assert (Hbody : without 96 (ws1 ++ doc ++ ws2)).
  { repeat apply without_app; auto using space_not_backquote. }
  unfold jsonStr.
  replace (pre ++ js "```json" ++ ws1 ++ doc ++ ws2 ++ js "```" ++ post)
    with (pre ++ js "```json" ++ (ws1 ++ doc ++ ws2) ++ js "```" ++ post)
    by (now rewrite <- !app_assoc).
  rewrite (match_fenced_here pre _ post Hpre Hbody).
  rewrite (remove_fences_block _ Hbody).
  now rewrite trim_padded.
Qed.

Lemma fenced_document_is_recovered_witness :
  jsonStr (js "Here is your strategy: ```json  {1: {2}}  ``` Shall I {execute} it?")
  = Ok (js "{1: {2}}").
Proof.
  apply (fenced_document_is_recovered
           (js "Here is your strategy: ") (js "  ") (js "{1: {2}}") (js "  ")
           (js " Shall I {execute} it?")).
  - repeat constructor; discriminate.
  - repeat constructor.
  - repeat constructor.
  - repeat constructor; discriminate.
  - split; reflexivity.
Defined.

(** X24.  Without a fence, the document runs from the first opening brace to
    the last closing brace of the answer.  Text between two documents, or a
    closing brace in the text that follows, becomes part of what is handed
    to the JSON parser. *)
Theorem braces_span_first_to_last :
  forall pre inner post,
    without 96 pre -> without 96 inner -> without 96 post ->
    without 123 pre -> without 125 post ->
    jsonStr (pre ++ cu "{" :: inner ++ cu "}" :: post)
    = Ok (cu "{" :: inner ++ js "}").
Proof.
  intros pre inner post Hp Hi Hq Hopen Hclose.
  assert (Hall : without 96 (pre ++ cu "{" :: inner ++ cu "}" :: post)).
  { apply without_app; [exact Hp|]. constructor; [discriminate|].
    apply without_app; [exact Hi|]. constructor; [discriminate | exact Hq]. }
  assert (Hdoc : without 96 (cu "{" :: inner ++ js "}")).
  { constructor; [discriminate|]. apply without_app; [exact Hi|].
    constructor; [discriminate | constructor]. }
  unfold jsonStr.
  rewrite (match_fenced_none _ Hall), (match_braces_here pre inner post Hopen Hclose).
  rewrite (remove_fences_none _ Hdoc), trim_trimmed; [reflexivity|].
  split; [reflexivity|]. simpl rev. rewrite rev_app_distr. reflexivity.
Qed.

Lemma braces_span_first_to_last_witness :
  jsonStr (js "First {1} and then {2}, see :}") = Ok (js "{1} and then {2}, see :}").
Proof.
  apply (braces_span_first_to_last (js "First ") (js "1} and then {2}, see :") []).
  - repeat constructor; discriminate.
  - repeat constructor; discriminate.
  - constructor.
  - repeat constructor; discriminate.
  - constructor.
Defined.

(** X25.  An answer without a document.  When the answer holds no backquote,
    and no opening brace or no closing brace, the extraction fails with
    its error: the handler replies that it has trouble parsing. *)
Theorem answer_without_document_fails :
  forall s,
    without 96 s -> without 123 s \/ without 125 s ->
    jsonStr s = Err (Error "Failed to extract JSON from the response").
Proof.
  intros s Hs Hbrace. unfold jsonStr.
  rewrite (match_fenced_none s Hs). unfold match_braces.
  destruct Hbrace as [Hopen | Hclose].
  - assert (E : find (js "{") s = None) by (apply (find_none 123); assumption).
    now rewrite E.
  - destruct (find (js "{") s) as [[a b]|] eqn:E; [|reflexivity].
    apply find_spec in E. subst s.
    apply Forall_app in Hclose as [_ Hclose].
    apply Forall_app in Hclose as [_ Hclose].
    now rewrite (upto_last_none 125 b Hclose).
Qed.

Lemma answer_without_document_fails_witness :
  jsonStr (js "I could not find an allocation in your message.")
  = Err (Error "Failed to extract JSON from the response").
Proof.
  apply (answer_without_document_fails
           (js "I could not find an allocation in your message.")).
  - repeat constructor; discriminate.
  - left. repeat constructor; discriminate.
Defined.

End Answers.
